(** * InkyPi image-album plugin: illustration job completion

    A shallow embedding of

    - [_sanitize_filename], [_save_illustration], the methods of
      [ImmichProvider] and [ImageAlbum.generate_image]
      (plugins/image_album/image_album.py),
    - [wait_for_result], its callbacks and [_subscribe_private_channel]
      (plugins/image_album/illustration_providers/deapi_websocket.py),
    - [to_illustration] and [_poll_for_result]
      (plugins/image_album/illustration_providers/deapi_provider.py),
    - [is_configured] (plugins/image_album/illustration_providers/base.py)
      and [get_illustration_provider]
      (plugins/image_album/illustration_providers/registry.py),

    followed by the properties of the completion protocol and of the code
    around it. *)

From Stdlib Require Import String Ascii List Bool ZArith Lia.
From Equations Require Import Equations.
Import ListNotations.
Local Open Scope string_scope.

(** ** Python strings

    A [str] is modelled as a [string]; each character stands for one code
    point below 256. *)

Module PyStr.

(** [str.isspace] on one code point below 256: TAB..CR, FS..US, SPACE,
    NEL and NBSP. *)
Definition isspace (c : ascii) : bool :=
  let n := nat_of_ascii c in
  (((9 <=? n) && (n <=? 13)) || ((28 <=? n) && (n <=? 32))
   || (n =? 133) || (n =? 160))%nat.

Fixpoint lstrip (s : string) : string :=
  match s with
  | EmptyString => EmptyString
  | String c r => if isspace c then lstrip r else s
  end.

Fixpoint rstrip (s : string) : string :=
  match s with
  | EmptyString => EmptyString
  | String c r =>
      match rstrip r with
      | EmptyString => if isspace c then EmptyString else String c EmptyString
      | r' => String c r'
      end
  end.

(** [s.strip()] *)
Definition strip (s : string) : string := rstrip (lstrip s).

(** Truth value of a string: [bool(s)]. *)
Definition truthy (s : string) : bool :=
  match s with EmptyString => false | _ => true end.

(** [a or b] where [a] is a [str]. *)
Definition or_else (a b : string) : string := if truthy a then a else b.

(** [a or b] where [a] is a [str] or [None]. *)
Definition opt_or_else (a : option string) (b : string) : string :=
  match a with
  | Some s => or_else s b
  | None => b
  end.

(** [re.sub('[' + cls + ']', _, s)] with an empty replacement: every
    character of the class is dropped. *)
Fixpoint re_sub_class (cls : list ascii) (s : string) : string :=
  match s with
  | EmptyString => EmptyString
  | String c r =>
      if existsb (Ascii.eqb c) cls then re_sub_class cls r
      else String c (re_sub_class cls r)
  end.

Fixpoint mem (c : ascii) (s : string) : bool :=
  match s with
  | EmptyString => false
  | String d r => Ascii.eqb c d || mem c r
  end.

End PyStr.

(** ** image_album.py *)

Module ImageAlbum.
Import PyStr.

(** The character class of the pattern handed to [re.sub]: slash,
    backslash, colon, star, question mark, double quote, the two angle
    brackets and the bar. *)
Definition FORBIDDEN : list ascii :=
  ["/"; "\"; ":"; "*"; "?"; "034"; "<"; ">"; "|"]%char.

(** [_sanitize_filename(name)]; [None] is a possible argument (the callers
    pass [person_name] and [album], both [str | None]). *)
Definition _sanitize_filename (name : option string) : string :=
  let s := strip (opt_or_else name "unknown") in
  let s := re_sub_class FORBIDDEN s in
  or_else s "unknown".

End ImageAlbum.

(** ** Python values

    The values that [json.loads] builds and the handlers inspect: [None],
    booleans, integers, strings, lists and dicts.  JSON numbers are taken
    to be integers. *)

Module Py.

#[warnings="-register-all"]
Inductive value : Type :=
| VNone
| VBool (b : bool)
| VInt (n : Z)
| VStr (s : string)
| VList (l : list value)
| VDict (kv : list (string * value)).

(** Exceptions that the modelled code can meet; all of them derive from
    [Exception]. *)
Inductive exn : Type :=
| JSONDecodeError
| AttributeError
| TypeError
| RequestException
| ImageError.

(** [bool(v)] *)
Definition truthy (v : value) : bool :=
  match v with
  | VNone => false
  | VBool b => b
  | VInt n => negb (n =? 0)%Z
  | VStr s => PyStr.truthy s
  | VList l => match l with [] => false | _ => true end
  | VDict kv => match kv with [] => false | _ => true end
  end.

Fixpoint lookup (k : string) (kv : list (string * value)) : option value :=
  match kv with
  | [] => None
  | (k', v) :: rest => if String.eqb k k' then Some v else lookup k rest
  end.

(** [d[k] = v] on the association list of a dict: an existing key keeps its
    place and takes the new value. *)
Fixpoint dict_set (k : string) (v : value) (kv : list (string * value))
  : list (string * value) :=
  match kv with
  | [] => [(k, v)]
  | (k', v') :: rest =>
      if String.eqb k k' then (k, v) :: rest else (k', v') :: dict_set k v rest
  end.

(** [del d[k]] when present. *)
Fixpoint dict_remove (k : string) (kv : list (string * value))
  : list (string * value) :=
  match kv with
  | [] => []
  | (k', v') :: rest =>
      if String.eqb k k' then dict_remove k rest
      else (k', v') :: dict_remove k rest
  end.

(** [v.get(k, default)]: only a dict has [get]. *)
Definition get_default (v : value) (k : string) (default : value)
  : exn + value :=
  match v with
  | VDict kv => inr (match lookup k kv with Some x => x | None => default end)
  | _ => inl AttributeError
  end.

(** [v.get(k)] *)
Definition get (v : value) (k : string) : exn + value :=
  get_default v k VNone.

(** [v == s] for a string literal [s]. *)
Definition eq_str (v : value) (s : string) : bool :=
  match v with
  | VStr t => String.eqb t s
  | _ => false
  end.

(** [a == b]: [True] and [False] compare equal to [1] and [0], lists
    compare element by element, dicts compare as key/value sets. *)
Fixpoint eq (a b : value) {struct a} : bool :=
  match a, b with
  | VNone, VNone => true
  | VBool x, VBool y => Bool.eqb x y
  | VBool x, VInt n | VInt n, VBool x => (n =? (if x then 1 else 0))%Z
  | VInt n, VInt m => (n =? m)%Z
  | VStr s, VStr t => String.eqb s t
  | VList l, VList m =>
      (fix go (l : list value) (m : list value) {struct l} : bool :=
         match l, m with
         | [], [] => true
         | x :: l', y :: m' => eq x y && go l' m'
         | _, _ => false
         end) l m
  | VDict kv, VDict kw =>
      (length kv =? length kw)%nat
      && (fix go (kv : list (string * value)) {struct kv} : bool :=
            match kv with
            | [] => true
            | (k, x) :: rest =>
                match lookup k kw with
                | Some y => eq x y && go rest
                | None => false
                end
            end) kv
  | _, _ => false
  end.

End Py.

(** ** Statements that mutate and may raise

    A block of Python statements run over a state [S]: it yields the state
    it leaves behind together with either the exception it raised or its
    value.  What was done before a [raise] stays done. *)

Module Eff.
Import Py.

Definition M (S A : Type) : Type := S -> S * (exn + A).

Definition ret {S A} (a : A) : M S A := fun s => (s, inr a).

Definition raise {S A} (e : exn) : M S A := fun s => (s, inl e).

Definition bind {S A B} (m : M S A) (k : A -> M S B) : M S B :=
  fun s =>
    match m s with
    | (s', inl e) => (s', inl e)
    | (s', inr a) => k a s'
    end.

(** An expression that may raise, used as a statement. *)
Definition lift {S A} (r : exn + A) : M S A := fun s => (s, r).

(** A plain assignment to the state. *)
Definition modify {S} (f : S -> S) : M S unit := fun s => (f s, inr tt).

(** [if c: body] with no [else]. *)
Definition when {S} (c : bool) (body : M S unit) : M S unit :=
  if c then body else ret tt.

Declare Scope eff_scope.
Delimit Scope eff_scope with eff.
Notation "x <- m ;; k" := (bind m (fun x => k))
  (at level 61, m at next level, right associativity) : eff_scope.
Notation "m ;;; k" := (bind m (fun _ => k))
  (at level 61, right associativity) : eff_scope.

End Eff.

(** ** The HTTP session and the log *)

Module Net.
Import Py.

(** What a call of [session.post] or [session.get] comes to: the call
    raises, or it returns a response with [status_code] and body (the
    [text], or the [content] of a download). *)
Inductive http_outcome : Type :=
| HttpRaises
| HttpResponse (status_code : Z) (text : string).

(** The records written through [logger]. *)
Inductive log_line : Type :=
| LogProgress (progress : value)
| LogJobError (payload : value)
| LogParseError (e : exn)
| LogSocketError (error : string)
| LogAuthFailed (status_code : Z) (text : string)
| LogSubscribed (channel : string)
| LogNoApiKey
| LogSubmitError (status_code : Z)
| LogNoRequestId
| LogWaitingWebSocket (request_id : value)
| LogFetchFailedFallback
| LogNoResultFallback
| LogPolling (request_id : value)
| LogStatusError (status_code : Z) (text : string)
| LogDoneNoUrl
| LogFetchFailed (status_code : Z)
| LogJobFailed (data : value)
| LogPollTimedOut
| LogGenerated
| LogConversionFailed (e : exn).

(** Times and durations are in milliseconds. *)
Definition secs (n : Z) : Z := 1000 * n.

End Net.

(** ** deapi_websocket.py *)

Module WebSocket.
Import Py Net Eff.
Local Open Scope eff_scope.

(** Who called [ws.close()]: a handler running on the socket thread, or
    the caller of [wait_for_result] after its wait ran out. *)
Inductive closer : Type := ByHandler | ByOwner.

(** The objects shared by [wait_for_result] and its callbacks, together
    with what the callbacks did to the connection and the session. *)
Record listener : Type := mkListener {
  result_holder : value;               (* result_holder[0] *)
  done : bool;                         (* done.is_set() *)
  ws_ref : bool;                       (* ws_ref is not empty *)
  closes : list closer;                (* calls of ws.close(), newest first *)
  sent : list value;                   (* frames given to ws.send *)
  auth_posts : list (value * string);  (* socket_id and channel posted *)
  log : list log_line                  (* newest first *)
}.

Definition initial : listener :=
  mkListener VNone false false [] [] [] [].

Definition set_result (v : value) (st : listener) : listener :=
  mkListener v (done st) (ws_ref st) (closes st) (sent st)
             (auth_posts st) (log st).

Definition set_done (st : listener) : listener :=
  mkListener (result_holder st) true (ws_ref st) (closes st) (sent st)
             (auth_posts st) (log st).

Definition set_ws_ref (st : listener) : listener :=
  mkListener (result_holder st) (done st) true (closes st) (sent st)
             (auth_posts st) (log st).

Definition ws_close (who : closer) (st : listener) : listener :=
  mkListener (result_holder st) (done st) (ws_ref st) (who :: closes st)
             (sent st) (auth_posts st) (log st).

Definition ws_send (frame : value) (st : listener) : listener :=
  mkListener (result_holder st) (done st) (ws_ref st) (closes st)
             (frame :: sent st) (auth_posts st) (log st).

Definition note_auth_post (socket_id : value) (channel : string)
    (st : listener) : listener :=
  mkListener (result_holder st) (done st) (ws_ref st) (closes st) (sent st)
             ((socket_id, channel) :: auth_posts st) (log st).

Definition logger (l : log_line) (st : listener) : listener :=
  mkListener (result_holder st) (done st) (ws_ref st) (closes st) (sent st)
             (auth_posts st) (l :: log st).

(** [ws.close()] has been called. *)
Definition closed (st : listener) : bool :=
  match closes st with [] => false | _ => true end.

(** A step of the socket thread started by [wait_for_result]: [run_ws]
    creating the app and appending it to [ws_ref], or [run_forever]
    invoking one of the three callbacks. *)
Inductive thread_step : Type :=
| Register
| OnMessage (message : string)
| OnError (error : string)
| OnClose.

(** How [done.wait(timeout)] came back: [True] because the flag was set
    by a thread step, or [False] after the whole timeout. *)
Inductive wake : Type :=
| Signalled (at_ms : Z) (by_step : thread_step)
| Expired.

Record run : Type := mkRun {
  returned : value;      (* the dict, or None *)
  returned_at : Z;       (* milliseconds after the wait began *)
  woke : wake;
  final : listener
}.

Section Listener.

(** [json.loads] on a text: [None] when it raises [JSONDecodeError]. *)
Variable json_loads : string -> option value.

(** The answer to [session.post(AUTH_URL, ...)] for a bearer token, a
    socket id and a channel name. *)
Variable auth_post : string -> value -> string -> http_outcome.

(** [json.loads(v)]: the argument has to be a string. *)
Definition loads (v : value) : exn + value :=
  match v with
  | VStr s =>
      match json_loads s with
      | Some x => inr x
      | None => inl JSONDecodeError
      end
  | _ => inl TypeError
  end.

(** [_subscribe_private_channel(ws, api_token, client_id, socket_id,
    session)] *)
Definition _subscribe_private_channel (api_token client_id : string)
    (socket_id : value) : M listener unit :=
  let channel := "private-client." ++ client_id in
  modify (note_auth_post socket_id channel) ;;;
  match auth_post api_token socket_id channel with
  | HttpRaises => raise RequestException
  | HttpResponse status_code text =>
      if negb (status_code =? 200)%Z then
        modify (logger (LogAuthFailed status_code text))
      else
        auth_data <- lift (loads (VStr text)) ;;
        auth <- lift (get_default auth_data "auth" (VStr "")) ;;
        modify (ws_send
                  (VDict [("event", VStr "pusher:subscribe");
                          ("data", VDict [("channel", VStr channel);
                                          ("auth", auth)])])) ;;;
        modify (logger (LogSubscribed channel))
  end.

(** The branch of [on_message] for [pusher:connection_established], from
    the decoded [conn_data] on. *)
Definition on_connection_established (api_token client_id : string)
    (conn_data : value) : M listener unit :=
  socket_id <- lift (get conn_data "socket_id") ;;
  when (truthy socket_id)
       (_subscribe_private_channel api_token client_id socket_id).

(** The branch of [on_message] for [request.status.updated], from the
    decoded [payload] on. *)
Definition on_status_update (request_id : value) (payload : value)
  : M listener unit :=
  rid <- lift (get payload "request_id") ;;
  when (eq rid request_id)
       (status <- lift (get payload "status") ;;
        progress <- lift (get_default payload "progress" (VStr "")) ;;
        when (truthy progress) (modify (logger (LogProgress progress))) ;;;
        if eq_str status "done" then
          modify (set_result payload) ;;;
          modify set_done ;;;
          modify (ws_close ByHandler)
        else if eq_str status "error" then
          modify (logger (LogJobError payload)) ;;;
          modify set_done ;;;
          modify (ws_close ByHandler)
        else ret tt).

(** The body of the [try] in [on_message]. *)
Definition on_message_try (request_id : value)
    (api_token client_id : string) (message : string) : M listener unit :=
  data <- lift (loads (VStr message)) ;;
  event <- lift (get data "event") ;;
  if eq_str event "pusher:connection_established" then
    raw <- lift (get_default data "data" (VStr "{}")) ;;
    conn_data <- lift (loads raw) ;;
    on_connection_established api_token client_id conn_data
  else if eq_str event "request.status.updated" then
    raw <- lift (get_default data "data" (VStr "{}")) ;;
    payload <- lift (loads raw) ;;
    on_status_update request_id payload
  else ret tt.

(** [on_message(ws, message)]: the [try] with its [except Exception]. *)
Definition on_message (request_id : value) (api_token client_id : string)
    (message : string) (st : listener) : listener :=
  match on_message_try request_id api_token client_id message st with
  | (st', inl e) => logger (LogParseError e) st'
  | (st', inr _) => st'
  end.

(** [on_error(ws, error)] *)
Definition on_error (error : string) (st : listener) : listener :=
  set_done (logger (LogSocketError error) st).

(** [on_close(ws, close_status, close_msg)] *)
Definition on_close (st : listener) : listener := set_done st.

Definition step (request_id : value) (api_token client_id : string)
    (s : thread_step) (st : listener) : listener :=
  match s with
  | Register => set_ws_ref st
  | OnMessage message => on_message request_id api_token client_id message st
  | OnError error => on_error error st
  | OnClose => on_close st
  end.

(** The socket thread against the waiting caller: the steps that come
    before the end of the timeout are run in order, and the caller wakes
    at the first one that leaves [done] set.  The steps of a script are
    given in the order in which the thread takes them, each with its time
    in milliseconds after [done.wait] was called; a step that the thread
    took between [thread.start()] and that call has a negative time.
    [timeout] is the number of seconds of the wait, as the one caller
    passes it: [MAX_WAIT_TIME]. *)
Fixpoint pump (request_id : value) (api_token client_id : string)
    (timeout : Z) (script : list (Z * thread_step)) (st : listener)
  : listener * wake :=
  match script with
  | [] => (st, Expired)
  | (t, s) :: rest =>
      if (secs timeout <=? t)%Z then (st, Expired)
      else
        let st' := step request_id api_token client_id s st in
        if done st' then (st', Signalled t s)
        else pump request_id api_token client_id timeout rest st'
  end.

(** The steps that [pump] has not run: those from the first one at or
    after the end of the timeout on, or those after the step that woke
    the caller.  The thread is a daemon and goes on taking them. *)
Fixpoint left_over (request_id : value) (api_token client_id : string)
    (timeout : Z) (script : list (Z * thread_step)) (st : listener)
  : list (Z * thread_step) :=
  match script with
  | [] => []
  | (t, s) :: rest =>
      if (secs timeout <=? t)%Z then script
      else
        let st' := step request_id api_token client_id s st in
        if done st' then rest
        else left_over request_id api_token client_id timeout rest st'
  end.

(** The thread while the caller goes from the wait that ran out to its
    reading of [ws_ref]: no lock is held in between, and the steps whose
    time is the very end of the timeout are taken there.  They wake the
    caller no more, but what they do is done when the caller reads
    [ws_ref] and calls [close]. *)
Fixpoint race (request_id : value) (api_token client_id : string)
    (timeout : Z) (script : list (Z * thread_step)) (st : listener)
  : listener :=
  match script with
  | [] => st
  | (t, s) :: rest =>
      if (t =? secs timeout)%Z
      then race request_id api_token client_id timeout rest
             (step request_id api_token client_id s st)
      else st
  end.

(** The steps that follow those of [race]. *)
Fixpoint after_race (timeout : Z) (script : list (Z * thread_step))
  : list (Z * thread_step) :=
  match script with
  | [] => []
  | (t, s) :: rest =>
      if (t =? secs timeout)%Z then after_race timeout rest else script
  end.

(** [wait_for_result(request_id, api_token, client_id, session, timeout)]
    against the steps that the socket thread takes; [final] is the
    listener when the call returns. *)
Definition wait_for_result (request_id : value)
    (api_token client_id : string) (timeout : Z)
    (script : list (Z * thread_step)) : run :=
  match pump request_id api_token client_id timeout script initial with
  | (st, Signalled t s) => mkRun (result_holder st) t (Signalled t s) st
  | (st, Expired) =>
      let st :=
        race request_id api_token client_id timeout
          (left_over request_id api_token client_id timeout script initial)
          st in
      let st' := if ws_ref st then ws_close ByOwner st else st in
      mkRun VNone (secs timeout) Expired st'
  end.

(** The steps that the thread takes after [wait_for_result] has
    returned. *)
Definition later_steps (request_id : value) (api_token client_id : string)
    (timeout : Z) (script : list (Z * thread_step))
  : list (Z * thread_step) :=
  let rest :=
    left_over request_id api_token client_id timeout script initial in
  match snd (pump request_id api_token client_id timeout script initial) with
  | Signalled _ _ => rest
  | Expired => after_race timeout rest
  end.

(** The listener once the thread has taken every step of the script. *)
Definition settled (request_id : value) (api_token client_id : string)
    (timeout : Z) (script : list (Z * thread_step)) : listener :=
  fold_left
    (fun st ts => step request_id api_token client_id (snd ts) st)
    (later_steps request_id api_token client_id timeout script)
    (final (wait_for_result request_id api_token client_id timeout script)).

End Listener.

End WebSocket.

(** ** prompts.py *)

Module Prompts.

Definition PERSON_ILLUSTRATION_PROMPT : string :=
  "Transform this portrait photo into a high-quality professional graphic illustration. "
  ++ "Preserve the subject’s identity, facial structure, proportions, and expression with high accuracy. "
  ++ "Style: modern editorial illustration, clean vector-like linework, smooth contours, "
  ++ "flat color blocks with minimal gradients, bold yet controlled color palette. "
  ++ "High contrast between subject and background, strong edge definition. "
  ++ "Optimize for print and e-ink displays: limited colors, clear shapes, no visual noise. "
  ++ "Soft, simple background or solid neutral backdrop. "
  ++ "No photorealism, no painterly textures, no blur, no heavy shading, no background clutter.".

Definition GENERIC_ILLUSTRATION_PROMPT : string :=
  "Transform this image into a clean, professional graphic illustration. "
  ++ "Style: modern editorial illustration, crisp linework, flat color areas, "
  ++ "minimal gradients, simplified geometry. "
  ++ "High contrast, strong silhouettes, and clear visual hierarchy. "
  ++ "Optimize for print and e-ink displays: limited color palette, bold shapes, no noise. "
  ++ "No photorealism, no complex textures, no cluttered background.".

Definition get_illustration_prompt (is_person : bool) : string :=
  if is_person then PERSON_ILLUSTRATION_PROMPT
  else GENERIC_ILLUSTRATION_PROMPT.

End Prompts.

(** ** deapi_provider.py *)

Module Provider.
Import Py Net Eff.
Local Open Scope eff_scope.
Local Open Scope Z_scope.

Definition DEFAULT_MODEL : string := "Flux_2_Klein_4B_BF16".
Definition MAX_WAIT_TIME : Z := 300.
Definition POLL_INTERVAL : Z := 2.

(** The attributes that [__init__] sets. *)
Record provider : Type := mkProvider {
  api_key : string;
  client_id : string;
  model : string
}.

(** [DeAPIIllustrationProvider(api_key, client_id, model)] *)
Definition init (api_key client_id : option string) (model : string)
  : provider :=
  mkProvider (PyStr.strip (PyStr.opt_or_else api_key ""))
             (PyStr.strip (PyStr.opt_or_else client_id ""))
             model.

(** What [_poll_for_result] did. *)
Record polling : Type := mkPolling {
  status_gets : nat;           (* GETs of the status URL *)
  sleeps : nat;                (* calls of time.sleep(POLL_INTERVAL) *)
  poll_fetched : list value;   (* result URLs fetched, newest first *)
  poll_log : list log_line     (* newest first *)
}.

Definition poll_start (request_id : value) : polling :=
  mkPolling 0 0 [] [LogPolling request_id].

Definition note_status_get (st : polling) : polling :=
  mkPolling (S (status_gets st)) (sleeps st) (poll_fetched st) (poll_log st).

Definition note_sleep (st : polling) : polling :=
  mkPolling (status_gets st) (S (sleeps st)) (poll_fetched st) (poll_log st).

Definition note_poll_fetch (url : value) (st : polling) : polling :=
  mkPolling (status_gets st) (sleeps st) (url :: poll_fetched st)
            (poll_log st).

Definition poll_logger (l : log_line) (st : polling) : polling :=
  mkPolling (status_gets st) (sleeps st) (poll_fetched st) (l :: poll_log st).

Section Provider.

(** A PIL image. *)
Variable image : Type.

(** How a call of [_poll_for_result] ended. *)
Record polled : Type := mkPolled {
  poll_result : exn + option image;  (* raised, or returned *)
  poll_elapsed : Z;                  (* time.monotonic() - start at the end *)
  poll_did : polling
}.

(** What [to_illustration] did after it had a request id. *)
Record trace : Type := mkTrace {
  ws_run : option WebSocket.run;  (* the call of wait_for_result *)
  ws_fetched : list value;        (* result URLs fetched after the wait *)
  poll_run : option polled;       (* the last call of _poll_for_result *)
  log : list log_line;            (* newest first *)
  poll_calls : nat                (* calls of _poll_for_result *)
}.

Definition no_trace : trace := mkTrace None [] None [] 0.

Definition note_ws (r : WebSocket.run) (tr : trace) : trace :=
  mkTrace (Some r) (ws_fetched tr) (poll_run tr) (log tr) (poll_calls tr).

Definition note_fetch (url : value) (tr : trace) : trace :=
  mkTrace (ws_run tr) (url :: ws_fetched tr) (poll_run tr) (log tr)
          (poll_calls tr).

Definition note_poll (p : polled) (tr : trace) : trace :=
  mkTrace (ws_run tr) (ws_fetched tr) (Some p) (log tr) (S (poll_calls tr)).

Definition logger (l : log_line) (tr : trace) : trace :=
  mkTrace (ws_run tr) (ws_fetched tr) (poll_run tr) (l :: log tr)
          (poll_calls tr).

(** [json.loads] on a text: [None] when it raises. *)
Variable json_loads : string -> option value.

(** The conversion to RGB and [save(buffer, format=PNG)]: the bytes of the
    buffer, or [None] when one of them raises. *)
Variable png_save : image -> option string.

(** [Image.open(io.BytesIO(content)).convert(RGB)]: [None] when it
    raises. *)
Variable image_open : string -> option image.

(** The answer to the POST of [IMG2IMG_ENDPOINT] for a token, a prompt, a
    model and the PNG bytes (steps, seed and guidance go with them). *)
Variable submit_post : string -> string -> string -> string -> http_outcome.

(** The answer to the POST of [AUTH_URL]. *)
Variable auth_post : string -> value -> string -> http_outcome.

(** The steps of the socket thread, each with the time at which it is
    taken, in milliseconds after the wait began. *)
Variable script : list (Z * WebSocket.thread_step).

(** The answer to the GET of a result URL. *)
Variable url_get : value -> http_outcome.

(** The [k]-th GET of the status URL: how long the call takes and what it
    comes to. *)
Variable status_get : nat -> N * http_outcome.

Definition loads := WebSocket.loads json_loads.

Definition open_image (content : string) : exn + image :=
  match image_open content with
  | Some img => inr img
  | None => inl ImageError
  end.

(** One turn of the [while] of [_poll_for_result] from the response to
    the status GET up to [time.sleep]: [Some r] when the turn executes
    [return r], [None] when it falls through to the sleep. *)
Definition poll_turn (resp : http_outcome)
  : M polling (option (option image)) :=
  modify note_status_get ;;;
  match resp with
  | HttpRaises => raise RequestException
  | HttpResponse status_code text =>
      if negb (status_code =? 200) then
        modify (poll_logger (LogStatusError status_code text)) ;;;
        ret (Some None)
      else
        body <- lift (loads (VStr text)) ;;
        data <- lift (get_default body "data" (VDict [])) ;;
        status <- lift (get data "status") ;;
        if eq_str status "done" then
          result_url <- lift (get data "result_url") ;;
          if negb (truthy result_url) then
            modify (poll_logger LogDoneNoUrl) ;;;
            ret (Some None)
          else
            modify (note_poll_fetch result_url) ;;;
            match url_get result_url with
            | HttpRaises => raise RequestException
            | HttpResponse img_status content =>
                if negb (img_status =? 200) then
                  modify (poll_logger (LogFetchFailed img_status)) ;;;
                  ret (Some None)
                else
                  img <- lift (open_image content) ;;
                  ret (Some (Some img))
            end
        else if eq_str status "error" then
          modify (poll_logger (LogJobFailed data)) ;;;
          ret (Some None)
        else ret None
  end.

(** The [while] of [_poll_for_result], entered when [time.monotonic() -
    start] is [now], and the [return None] that follows it.  A turn that
    falls through sleeps [POLL_INTERVAL] seconds, so the clock passes
    [MAX_WAIT_TIME] after finitely many turns. *)
#[local] Opaque secs.

Equations? poll_loop (now : Z) (st : polling) : polled
  by wf (Z.to_nat (secs MAX_WAIT_TIME - now)) lt :=
poll_loop now st with Z_lt_dec now (secs MAX_WAIT_TIME) := {
  | right _ => mkPolled (inr None) now (poll_logger LogPollTimedOut st)
  | left _ with status_get (status_gets st) := {
      | (latency, resp) with poll_turn resp st := {
          | (st1, inl e) => mkPolled (inl e) (now + Z.of_N latency) st1
          | (st1, inr (Some r)) =>
              mkPolled (inr r) (now + Z.of_N latency) st1
          | (st1, inr None) =>
              poll_loop (now + Z.of_N latency + secs POLL_INTERVAL)
                        (note_sleep st1)
        }
    }
  }.
Proof.
  pose proof (N2Z.is_nonneg latency).
  assert (0 < secs POLL_INTERVAL) by (vm_compute; reflexivity).
  lia.
Defined.

#[local] Transparent secs.

(** [self._poll_for_result(request_id, headers)] *)
Definition _poll_for_result (request_id : value) : polled :=
  poll_loop 0 (poll_start request_id).

(** The call of [_poll_for_result] as a statement of [to_illustration]. *)
Definition poll (request_id : value) : M trace (option image) :=
  fun tr =>
    let p := _poll_for_result request_id in
    (note_poll p tr, poll_result p).

(** The lines of [to_illustration] under [if self.client_id:]; the value
    is [out_img]. *)
Definition websocket_path (self : provider) (request_id : value)
  : M trace (option image) :=
  modify (logger (LogWaitingWebSocket request_id)) ;;;
  let r := WebSocket.wait_for_result json_loads auth_post request_id
             (api_key self) (client_id self) MAX_WAIT_TIME script in
  modify (note_ws r) ;;;
  let ws_result := WebSocket.returned r in
  url <- (if truthy ws_result then lift (get ws_result "result_url")
          else ret ws_result) ;;
  if truthy url then
    modify (note_fetch url) ;;;
    match url_get url with
    | HttpRaises => raise RequestException
    | HttpResponse status_code content =>
        if (status_code =? 200) then
          img <- lift (open_image content) ;;
          ret (Some img)
        else
          modify (logger LogFetchFailedFallback) ;;;
          ret None
    end
  else
    modify (logger LogNoResultFallback) ;;;
    ret None.

(** The lines of [to_illustration] from [out_img = None] to [return
    out_img]: the wait on the socket when there is a client id, the
    polling when that gave no image. *)
Definition resolve (self : provider) (request_id : value)
  : M trace (option image) :=
  out_img <- (if PyStr.truthy (client_id self)
              then websocket_path self request_id
              else ret None) ;;
  out_img <- (match out_img with
              | None => poll request_id
              | Some _ => ret out_img
              end) ;;
  when (match out_img with Some _ => true | None => false end)
       (modify (logger LogGenerated)) ;;;
  ret out_img.

(** From the response to the submission to the end of the [try]. *)
Definition await (self : provider) (resp : http_outcome)
  : M trace (option image) :=
  match resp with
  | HttpRaises => raise RequestException
  | HttpResponse status_code text =>
      if negb (status_code =? 200) then
        modify (logger (LogSubmitError status_code)) ;;;
        ret None
      else
        result <- lift (loads (VStr text)) ;;
        data <- lift (get_default result "data" (VDict [])) ;;
        request_id <- lift (get data "request_id") ;;
        if negb (truthy request_id) then
          modify (logger LogNoRequestId) ;;;
          ret None
        else resolve self request_id
  end.

(** The body of the [try] in [to_illustration]. *)
Definition to_illustration_try (self : provider) (img : image)
    (prompt : string) : M trace (option image) :=
  png <- lift (match png_save img with
               | Some b => inr b
               | None => inl ImageError
               end) ;;
  await self (submit_post (api_key self) prompt (model self) png).

(** What a call of [to_illustration] returned and did. *)
Record outcome : Type := mkOutcome {
  illustration : option image;
  did : trace
}.

(** The end of the [try]: its [return], or the [except Exception] with
    its [return None]. *)
Definition finish (r : trace * (exn + option image)) : outcome :=
  match r with
  | (tr, inr out_img) => mkOutcome out_img tr
  | (tr, inl e) => mkOutcome None (logger (LogConversionFailed e) tr)
  end.

(** [self.to_illustration(image, prompt, is_person)] *)
Definition to_illustration (self : provider) (img : image)
    (prompt : option string) (is_person : bool) : outcome :=
  if negb (PyStr.truthy (api_key self)) then
    mkOutcome None (logger LogNoApiKey no_trace)
  else
    let prompt :=
      PyStr.opt_or_else prompt (Prompts.get_illustration_prompt is_person) in
    finish (to_illustration_try self img prompt no_trace).

End Provider.

Arguments mkPolled {image}.
Arguments poll_result {image}.
Arguments poll_elapsed {image}.
Arguments poll_did {image}.
Arguments mkTrace {image}.
Arguments ws_run {image}.
Arguments ws_fetched {image}.
Arguments poll_run {image}.
Arguments log {image}.
Arguments poll_calls {image}.
Arguments no_trace {image}.
Arguments note_ws {image}.
Arguments note_fetch {image}.
Arguments note_poll {image}.
Arguments logger {image}.
Arguments mkOutcome {image}.
Arguments illustration {image}.
Arguments did {image}.
Arguments finish {image}.

End Provider.

(** ** JSON texts

    A reader and a writer for JSON texts over the values of [Py]: objects,
    arrays, strings with their backslash escapes, integers and the three
    literals.  They stand for [json.loads] and [json.dumps] on the texts of
    the example runs below; the general statements hold for every reader. *)

Module JsonText.
Import Py.

Definition dquote : ascii := "034"%char.

Definition is_ws (c : ascii) : bool :=
  let n := nat_of_ascii c in
  ((n =? 32) || (n =? 9) || (n =? 10) || (n =? 13))%nat.

Fixpoint skip_ws (s : string) : string :=
  match s with
  | String c r => if is_ws c then skip_ws r else s
  | EmptyString => EmptyString
  end.

Definition hex_digit (c : ascii) : option nat :=
  let n := nat_of_ascii c in
  if ((48 <=? n) && (n <=? 57))%nat then Some (n - 48)%nat
  else if ((97 <=? n) && (n <=? 102))%nat then Some (n - 87)%nat
  else if ((65 <=? n) && (n <=? 70))%nat then Some (n - 55)%nat
  else None.

(** The character named by the escape [\c]. *)
Definition unescape (c : ascii) : option ascii :=
  match c with
  | "034"%char => Some "034"%char
  | "\"%char => Some "\"%char
  | "/"%char => Some "/"%char
  | "b"%char => Some "008"%char
  | "f"%char => Some "012"%char
  | "n"%char => Some "010"%char
  | "r"%char => Some "013"%char
  | "t"%char => Some "009"%char
  | _ => None
  end.

Definition cons_to (c : ascii) (r : option (string * string))
  : option (string * string) :=
  match r with
  | Some (body, rest) => Some (String c body, rest)
  | None => None
  end.

(** The rest of a string literal after its opening quote: the characters it
    denotes and the text after the closing quote. *)
Fixpoint scan_string (s : string) : option (string * string) :=
  match s with
  | EmptyString => None
  | String c r =>
      if Ascii.eqb c dquote then Some (EmptyString, r)
      else if Ascii.eqb c "\"%char then
        match r with
        | String "u" (String "0" (String "0" (String h (String l r')))) =>
            match hex_digit h, hex_digit l with
            | Some a, Some b =>
                cons_to (ascii_of_nat (16 * a + b)) (scan_string r')
            | _, _ => None
            end
        | String e r' =>
            match unescape e with
            | Some x => cons_to x (scan_string r')
            | None => None
            end
        | EmptyString => None
        end
      else if (nat_of_ascii c <? 32)%nat then None
      else cons_to c (scan_string r)
  end.

Definition digit (c : ascii) : option Z :=
  let n := nat_of_ascii c in
  if ((48 <=? n) && (n <=? 57))%nat then Some (Z.of_nat (n - 48)) else None.

(** The digits at the head of [s], read after the digits worth [acc]. *)
Fixpoint scan_digits (acc : Z) (s : string) : Z * string :=
  match s with
  | String c r =>
      match digit c with
      | Some d => scan_digits (10 * acc + d) r
      | None => (acc, s)
      end
  | EmptyString => (acc, s)
  end.

(** An integer literal: no leading zero, no fraction, no exponent. *)
Definition scan_int (s : string) : option (Z * string) :=
  let '(neg, body) :=
    match s with
    | String "-" r => (true, r)
    | _ => (false, s)
    end in
  match body with
  | String c r =>
      match digit c with
      | Some d =>
          let '(n, rest) :=
            if (d =? 0)%Z then (0%Z, r) else scan_digits d r in
          match rest with
          | String "." _ | String "e" _ | String "E" _ => None
          | String c' _ =>
              match digit c' with
              | Some _ => None
              | None => Some (if neg then (- n)%Z else n, rest)
              end
          | EmptyString => Some (if neg then (- n)%Z else n, rest)
          end
      | None => None
      end
  | EmptyString => None
  end.

(** One value at the head of the text, the members of an object after
    its brace and the elements of an array after its bracket. *)
Fixpoint parse_value (fuel : nat) (s : string) {struct fuel}
  : option (value * string) :=
  match fuel with
  | O => None
  | S fuel' =>
      match skip_ws s with
      | String "{" r =>
          match skip_ws r with
          | String "}" r' => Some (VDict [], r')
          | _ => parse_members fuel' r []
          end
      | String "[" r =>
          match skip_ws r with
          | String "]" r' => Some (VList [], r')
          | _ => parse_elements fuel' r []
          end
      | String "034" r =>
          match scan_string r with
          | Some (body, rest) => Some (VStr body, rest)
          | None => None
          end
      | String "t" (String "r" (String "u" (String "e" r))) =>
          Some (VBool true, r)
      | String "f" (String "a" (String "l" (String "s" (String "e" r)))) =>
          Some (VBool false, r)
      | String "n" (String "u" (String "l" (String "l" r))) =>
          Some (VNone, r)
      | t =>
          match scan_int t with
          | Some (n, rest) => Some (VInt n, rest)
          | None => None
          end
      end
  end

with parse_members (fuel : nat) (s : string) (acc : list (string * value))
  {struct fuel} : option (value * string) :=
  match fuel with
  | O => None
  | S fuel' =>
      match skip_ws s with
      | String "034" r =>
          match scan_string r with
          | Some (key, r1) =>
              match skip_ws r1 with
              | String ":" r2 =>
                  match parse_value fuel' r2 with
                  | Some (v, r3) =>
                      let acc' := dict_set key v acc in
                      match skip_ws r3 with
                      | String "," r4 => parse_members fuel' r4 acc'
                      | String "}" r4 => Some (VDict acc', r4)
                      | _ => None
                      end
                  | None => None
                  end
              | _ => None
              end
          | None => None
          end
      | _ => None
      end
  end

with parse_elements (fuel : nat) (s : string) (acc : list value)
  {struct fuel} : option (value * string) :=
  match fuel with
  | O => None
  | S fuel' =>
      match parse_value fuel' s with
      | Some (v, r1) =>
          match skip_ws r1 with
          | String "," r2 => parse_elements fuel' r2 (acc ++ [v])
          | String "]" r2 => Some (VList (acc ++ [v]), r2)
          | _ => None
          end
      | None => None
      end
  end.

(** [json.loads(s)]: [None] for a text that is no JSON text. *)
Definition loads (s : string) : option value :=
  match parse_value (2 * String.length s + 2) s with
  | Some (v, rest) =>
      match skip_ws rest with
      | EmptyString => Some v
      | _ => None
      end
  | None => None
  end.

Definition hex_char (n : nat) : ascii :=
  if (n <? 10)%nat then ascii_of_nat (48 + n) else ascii_of_nat (87 + n).

(** The body of a string literal for the characters of [s]. *)
Fixpoint escape (s : string) : string :=
  match s with
  | EmptyString => EmptyString
  | String c r =>
      let n := nat_of_ascii c in
      if Ascii.eqb c dquote then String "\" (String dquote (escape r))
      else if Ascii.eqb c "\"%char then String "\" (String "\" (escape r))
      else if (n =? 10)%nat then String "\" (String "n" (escape r))
      else if (n =? 13)%nat then String "\" (String "r" (escape r))
      else if (n =? 9)%nat then String "\" (String "t" (escape r))
      else if ((n <? 32) || (127 <? n))%nat then
        String "\" (String "u" (String "0" (String "0"
          (String (hex_char (n / 16)) (String (hex_char (n mod 16))
             (escape r))))))
      else String c (escape r)
  end.

Definition quote (s : string) : string :=
  String dquote (escape s ++ String dquote EmptyString).

Fixpoint digits_of (fuel : nat) (n : Z) (acc : string) : string :=
  match fuel with
  | O => acc
  | S fuel' =>
      let acc' := String (ascii_of_nat (48 + Z.to_nat (n mod 10))) acc in
      if (n <? 10)%Z then acc' else digits_of fuel' (n / 10) acc'
  end.

Definition int_text (n : Z) : string :=
  if (n <? 0)%Z
  then String "-" (digits_of (S (Z.to_nat (Z.log2 (- n)))) (- n) EmptyString)
  else digits_of (S (Z.to_nat (Z.log2 n))) n EmptyString.

(** [json.dumps(v)] *)
Fixpoint dumps (v : value) : string :=
  match v with
  | VNone => "null"
  | VBool true => "true"
  | VBool false => "false"
  | VInt n => int_text n
  | VStr s => quote s
  | VList l =>
      "[" ++ (fix go (l : list value) : string :=
                match l with
                | [] => EmptyString
                | [x] => dumps x
                | x :: rest => dumps x ++ ", " ++ go rest
                end) l ++ "]"
  | VDict kv =>
      "{" ++ (fix go (kv : list (string * value)) : string :=
                match kv with
                | [] => EmptyString
                | [(k, x)] => quote k ++ ": " ++ dumps x
                | (k, x) :: rest => quote k ++ ": " ++ dumps x ++ ", " ++ go rest
                end) kv ++ "}"
  end.

End JsonText.


(** ** The vocabulary of the completion protocol

    The outcomes that the protocol speaks of, read off a run of the
    listener, and the kinds of inbound messages it tells apart. *)

Module Protocol.
Import Py Net WebSocket.

Inductive job_result : Type :=
| Done (payload : value)
| Failed
| TimedOut
| Unavailable.

(** [Done] and [Failed] are wake-ups by [on_message] (its two branches
    that set [done]: the first stores the payload, the second stores
    nothing), [Unavailable] is a wake-up by [on_error] or [on_close], and
    [TimedOut] is the wait running out. *)
Definition verdict_of (r : run) : job_result :=
  match woke r with
  | Expired => TimedOut
  | Signalled _ (OnMessage _) =>
      match returned r with
      | VNone => Failed
      | payload => Done payload
      end
  | Signalled _ _ => Unavailable
  end.

(** The [progress] of a payload, with the default of the handler. *)
Definition progress_of (payload : value) : value :=
  match get_default payload "progress" (VStr "") with
  | inr progress => progress
  | inl _ => VNone
  end.

(** The progress line that [on_message] logs for a payload. *)
Definition log_progress (payload : value) (st : listener) : listener :=
  if truthy (progress_of payload)
  then logger (LogProgress (progress_of payload)) st
  else st.

(** Everything of the listener but its log. *)
Definition silent (st : listener)
  : value * bool * bool * list closer * list value
    * list (value * string) :=
  (result_holder st, done st, ws_ref st, closes st, sent st, auth_posts st).

(** What [wait_for_result] shares with its callbacks, and the calls of
    [ws.close()]. *)
Definition shared (st : listener)
  : value * bool * bool * list closer :=
  (result_holder st, done st, ws_ref st, closes st).

Section Messages.

Variable json_loads : string -> option value.

(** The decoded [data] of a message whose [event] is
    [request.status.updated]. *)
Definition payload_of (message : string) : option value :=
  match json_loads message with
  | Some data =>
      match get data "event" with
      | inr event =>
          if eq_str event "request.status.updated" then
            match get_default data "data" (VStr "{}") with
            | inr raw =>
                match loads json_loads raw with
                | inr payload => Some payload
                | inl _ => None
                end
            | inl _ => None
            end
          else None
      | inl _ => None
      end
  | None => None
  end.

(** The decoded [data] of a [pusher:connection_established] message. *)
Definition handshake_of (message : string) : option value :=
  match json_loads message with
  | Some data =>
      match get data "event" with
      | inr event =>
          if eq_str event "pusher:connection_established" then
            match get_default data "data" (VStr "{}") with
            | inr raw =>
                match loads json_loads raw with
                | inr conn_data => Some conn_data
                | inl _ => None
                end
            | inl _ => None
            end
          else None
      | inl _ => None
      end
  | None => None
  end.

(** The payload carries the awaited job identifier. *)
Definition awaited (request_id payload : value) : bool :=
  match get payload "request_id" with
  | inr rid => eq rid request_id
  | inl _ => false
  end.

Definition status_is (payload : value) (s : string) : bool :=
  match get payload "status" with
  | inr status => eq_str status s
  | inl _ => false
  end.

(** A status of [done] or [error]. *)
Definition terminal (payload : value) : bool :=
  status_is payload "done" || status_is payload "error".

(** A message that is no status update, or a status update of another
    job. *)
Definition foreign (request_id : value) (message : string) : bool :=
  match payload_of message with
  | Some payload => negb (awaited request_id payload)
  | None => true
  end.

(** A message that is no terminal status update of the awaited job. *)
Definition quiet (request_id : value) (message : string) : bool :=
  match payload_of message with
  | Some payload => negb (awaited request_id payload && terminal payload)
  | None => true
  end.

(** A step of the socket thread that wakes nobody: the registration of
    the app, or a message that is no terminal status update of the
    awaited job. *)
Definition calm (request_id : value) (s : thread_step) : bool :=
  match s with
  | Register => true
  | OnMessage message => quiet request_id message
  | _ => false
  end.

(** The registration of the app, or a message that is no status update
    of the awaited job. *)
Definition ignored (request_id : value) (s : thread_step) : bool :=
  match s with
  | Register => true
  | OnMessage message => foreign request_id message
  | _ => false
  end.

(** Two status updates that are not terminal and differ at most in their
    [progress]. *)
Definition progress_variant (m1 m2 : string) : Prop :=
  exists kv1 kv2,
    payload_of m1 = Some (VDict kv1)
    /\ payload_of m2 = Some (VDict kv2)
    /\ dict_remove "progress" kv1 = dict_remove "progress" kv2
    /\ terminal (VDict kv1) = false.

(** Two steps taken at the same time that are the same step, or status
    updates that differ at most in their [progress]. *)
Definition step_variant (a b : Z * thread_step) : Prop :=
  fst a = fst b
  /\ (snd a = snd b
      \/ exists m1 m2,
           snd a = OnMessage m1 /\ snd b = OnMessage m2
           /\ progress_variant m1 m2).

(** The [data] and the [status] of a response to the status GET that has
    status code 200 and decodes. *)
Definition status_view (resp : http_outcome) : option (value * value) :=
  match resp with
  | HttpResponse status_code text =>
      if (status_code =? 200)%Z then
        match json_loads text with
        | Some body =>
            match get_default body "data" (VDict []) with
            | inr data =>
                match get data "status" with
                | inr status => Some (data, status)
                | inl _ => None
                end
            | inl _ => None
            end
        | None => None
        end
      else None
  | HttpRaises => None
  end.

(** A response to the status GET that reports [pending]. *)
Definition pending (resp : http_outcome) : Prop :=
  exists data, status_view resp = Some (data, VStr "pending").

(** A response to the submission that carries a request id. *)
Definition submits (resp : http_outcome) (request_id : value) : Prop :=
  exists text result data,
    resp = HttpResponse 200 text
    /\ json_loads text = Some result
    /\ get_default result "data" (VDict []) = inr data
    /\ get data "request_id" = inr request_id
    /\ truthy request_id = true.

(** A message that does not decode: the text is no JSON, or the [data]
    of a handshake or of a status update does not decode. *)
Definition undecodable (message : string) : Prop :=
  json_loads message = None
  \/ exists data event raw e,
       json_loads message = Some data
       /\ get data "event" = inr event
       /\ (eq_str event "pusher:connection_established"
            || eq_str event "request.status.updated") = true
       /\ get_default data "data" (VStr "{}") = inr raw
       /\ loads json_loads raw = inl e.

End Messages.

(** The step is taken before the wait of [timeout] seconds runs out. *)
Definition in_time (timeout : Z) (ts : Z * thread_step) : bool :=
  (fst ts <? secs timeout)%Z.

(** The listener after the steps of a script, taken in order. *)
Definition run_steps (stepf : thread_step -> listener -> listener)
    (script : list (Z * thread_step)) (st : listener) : listener :=
  fold_left (fun st ts => stepf (snd ts) st) script st.

(** A block that leaves a view of the listener as it was. *)
Definition keeps {V A : Type} (view : listener -> V)
    (m : Eff.M listener A) : Prop :=
  forall st, view (fst (m st)) = view st.

(** A block that does the same on two listeners that differ in their
    logs only. *)
Definition respects {A : Type} (m : Eff.M listener A) : Prop :=
  forall st1 st2,
    silent st1 = silent st2 ->
    silent (fst (m st1)) = silent (fst (m st2)) /\ snd (m st1) = snd (m st2).

(** The inputs that come down to nothing: [None], the empty string, and
    the strings of which stripping and the substitution leave nothing. *)
Definition reduces_to_empty (name : option string) : bool :=
  match name with
  | None => true
  | Some s => negb (PyStr.truthy
                (PyStr.re_sub_class ImageAlbum.FORBIDDEN (PyStr.strip s)))
  end.

End Protocol.

(** ** Example runs

    Texts, answers of the session and scripts of the socket thread for the
    concrete runs of the properties below. *)

Module Examples.
Import Py Net WebSocket Provider JsonText.

(** A frame of the channel: an event name and its [data], itself a JSON
    text. *)
Definition frame (event : string) (data : value) : string :=
  dumps (VDict [("event", VStr event); ("data", VStr (dumps data))]).

Definition handshake : string :=
  frame "pusher:connection_established"
    (VDict [("socket_id", VStr "1234.5678"); ("activity_timeout", VInt 30)]).

Definition status_update (request_id status : string)
    (more : list (string * value)) : string :=
  frame "request.status.updated"
    (VDict (("request_id", VStr request_id) :: ("status", VStr status)
            :: more)).

Definition url_r1 : value := VStr "https://cdn.deapi.ai/results/r-1.png".

Definition payload_done_r1 : value :=
  VDict [("request_id", VStr "r-1"); ("status", VStr "done");
         ("result_url", url_r1)].

Definition payload_error_r1 : value :=
  VDict [("request_id", VStr "r-1"); ("status", VStr "error")].

Definition done_r1 : string :=
  frame "request.status.updated" payload_done_r1.

Definition error_r1 : string :=
  frame "request.status.updated" payload_error_r1.

(** A [done] of another job. *)
Definition done_r2 : string :=
  status_update "r-2" "done"
    [("result_url", VStr "https://cdn.deapi.ai/results/r-2.png")].

(** A status update of the awaited job that is not terminal. *)
Definition processing_r1 (progress : Z) : string :=
  status_update "r-1" "processing" [("progress", VInt progress)].

(** A text that is no JSON, and a status update whose [data] is none. *)
Definition garbage : string := "connection reset".

Definition bad_data : string :=
  dumps (VDict [("event", VStr "request.status.updated");
                ("data", VStr "{oops")]).

Definition auth_granted (_ : string) (_ : value) (_ : string)
  : http_outcome :=
  HttpResponse 200 (dumps (VDict [("auth", VStr "depin-api-prod-key:5f2a")])).

Definition auth_refused (_ : string) (_ : value) (_ : string)
  : http_outcome :=
  HttpResponse 403 "Forbidden".

Definition submit_accepted (_ _ _ _ : string) : http_outcome :=
  HttpResponse 200
    (dumps (VDict [("data", VDict [("request_id", VStr "r-1")])])).

Definition status_reply (status : string) (more : list (string * value))
  : http_outcome :=
  HttpResponse 200
    (dumps (VDict [("data", VDict (("status", VStr status) :: more))])).

(** Every status request takes 150 ms; [pending] three times, then
    [done]. *)
Definition done_on_fourth (k : nat) : N * http_outcome :=
  if (k <? 3)%nat then (150%N, status_reply "pending" [("progress", VInt 40)])
  else (150%N, status_reply "done" [("result_url", url_r1)]).

Definition always_pending (_ : nat) : N * http_outcome :=
  (150%N, status_reply "pending" []).

Definition error_at_once (_ : nat) : N * http_outcome :=
  (150%N, status_reply "error" []).

Definition unavailable_at_once (_ : nat) : N * http_outcome :=
  (150%N, HttpResponse 503 "Service Unavailable").

(** The store of results cannot be reached. *)
Definition cdn_down (_ : value) : http_outcome := HttpRaises.

(** The store of results serves the image of [r-1] only. *)
Definition cdn (url : value) : http_outcome :=
  if eq url url_r1 then HttpResponse 200 "PNG r-1" else HttpResponse 404 "".

(** Images are stood for by their bytes. *)
Definition png_bytes (img : string) : option string := Some img.
Definition image_of_bytes (content : string) : option string := Some content.

Definition self : provider :=
  init (Some "token-1") (Some " client-7 ") DEFAULT_MODEL.

(** The socket thread registers its app, is greeted, sees the [done] of
    another job and a text that is no JSON, then the [done] of the awaited
    job, and is closed. *)
Definition before_done : list (Z * thread_step) :=
  [(0, Register); (400, OnMessage handshake); (900, OnMessage done_r2);
   (1300, OnMessage garbage)]%Z.

Definition script_done : list (Z * thread_step) :=
  (before_done ++ (2500, OnMessage done_r1) :: [(2600, OnClose)])%Z%list.



(** The thread registers its app only after the 300 s of the timeout,
    and is greeted then. *)
Definition script_late : list (Z * thread_step) :=
  [(300200, Register); (300600, OnMessage handshake)]%Z.

(** The thread is greeted and nothing else comes. *)
Definition script_greeted : list (Z * thread_step) :=
  ([(0, Register)] ++ (400, OnMessage handshake) :: [])%Z%list.

(** The same thread with two reports of progress that differ. *)
Definition script_progress (a b : Z) : list (Z * thread_step) :=
  [(0, Register); (400, OnMessage handshake);
   (1500, OnMessage (processing_r1 a)); (2100, OnMessage (processing_r1 b));
   (2500, OnMessage done_r1)]%Z.

End Examples.

(** ** base.py and registry.py *)

Module Base.
Import PyStr.

(** [BaseIllustrationProvider.is_configured(api_key)] for a class whose
    attribute [requires_api_key] is given. *)
Definition is_configured (requires_api_key : bool) (api_key : option string)
  : bool :=
  if negb requires_api_key then true
  else
    match api_key with
    | Some k => if truthy k then truthy (strip k) else false
    | None => false
    end.

End Base.

Module Registry.
Import Provider.

(** The provider classes. *)
Inductive provider_cls : Type :=
| DeAPIIllustrationProvider.

Definition provider_id (cls : provider_cls) : string :=
  match cls with DeAPIIllustrationProvider => "deapi" end.

Definition requires_api_key (cls : provider_cls) : bool :=
  match cls with DeAPIIllustrationProvider => true end.

Definition ILLUSTRATION_PROVIDERS : list (string * provider_cls) :=
  [(provider_id DeAPIIllustrationProvider, DeAPIIllustrationProvider)].

(** [d.get(k)] on a dict of classes. *)
Fixpoint dict_get (k : string) (d : list (string * provider_cls))
  : option provider_cls :=
  match d with
  | [] => None
  | (k', cls) :: rest => if String.eqb k k' then Some cls else dict_get k rest
  end.

(** The keyword arguments besides [api_key] that the constructor has a
    name for; all others end in its own [**kwargs] and are not used. *)
Record kwargs : Type := mkKwargs {
  kw_client_id : option string;
  kw_model : option string
}.

Definition no_kwargs : kwargs := mkKwargs None None.

(** [provider_cls(api_key=api_key, **kwargs)], once the session is
    there. *)
Definition construct (cls : provider_cls) (api_key : option string)
    (kw : kwargs) : provider :=
  match cls with
  | DeAPIIllustrationProvider =>
      init api_key (kw_client_id kw)
        (match kw_model kw with Some m => m | None => DEFAULT_MODEL end)
  end.

(** [get_illustration_provider(provider_id, api_key, **kwargs)];
    [session_made] tells whether the [get_http_session()] of the
    constructor returns: when it raises, so does the constructor. *)
Definition get_illustration_provider (session_made : bool)
    (provider_id : string) (api_key : option string) (kw : kwargs)
  : option provider :=
  match dict_get provider_id ILLUSTRATION_PROVIDERS with
  | None => None
  | Some cls =>
      if session_made then Some (construct cls api_key kw) else None
  end.

End Registry.

(** ** image_album.py: saving an illustration *)

Module Illustrations.
Import Py PyStr ImageAlbum.

(** [c.lower()] on one code point below 128. *)
Definition lower_char (c : ascii) : ascii :=
  let n := nat_of_ascii c in
  if ((65 <=? n) && (n <=? 90))%nat then ascii_of_nat (n + 32) else c.

(** [s.lower()] *)
Fixpoint lower (s : string) : string :=
  match s with
  | EmptyString => EmptyString
  | String c r => String (lower_char c) (lower r)
  end.

(** [bool(name)] for [name : str | None]. *)
Definition given (name : option string) : bool :=
  match name with
  | Some s => truthy s
  | None => false
  end.

(** What [_save_illustration] hands to [mkdir] and [img.save]: the folder
    under [ILLUSTRATIONS_DIR], the file name in it and the keyword
    arguments of [save]. *)
Record target : Type := mkTarget {
  folder : string;
  safe_filename : string;
  save_kwargs : list (string * Z)
}.

(** What [_save_illustration] can raise: an exception of the lines that
    work out the target, or one of [mkdir], or one of [img.save], which
    comes after the folder has been made. *)
Inductive error : Type :=
| Raised (e : exn)
| MkdirRaised
| SaveRaised.

Section Save.

(** [Path(s).stem] *)
Variable stem : string -> string.

(** [asset.get(originalFileName) or asset.get(id, illustration)] *)
Definition original_filename (asset : value) : exn + value :=
  match get asset "originalFileName" with
  | inl e => inl e
  | inr name =>
      if Py.truthy name then inr name
      else get_default asset "id" (VStr "illustration")
  end.

(** [Path(v).stem]: [Path] takes a [str] and raises [TypeError] on the
    other values that JSON gives. *)
Definition path_stem (v : value) : exn + string :=
  match v with
  | VStr s => inr (stem s)
  | _ => inl TypeError
  end.

(** The lines of [_save_illustration] that work out where to save and
    how: [safe_filename], [folder] and [save_kwargs]. *)
Definition illustration_target (person_name album : option string)
    (asset : value) : exn + target :=
  match original_filename asset with
  | inl e => inl e
  | inr original =>
      let ext := ".jpeg" in
      match path_stem original with
      | inl e => inl e
      | inr st =>
          let base_name := or_else st "illustration" in
          let safe_filename := _sanitize_filename (Some base_name) ++ ext in
          let folder :=
            if given person_name then _sanitize_filename person_name
            else or_else (_sanitize_filename album) "album" in
          let save_kwargs :=
            if existsb (String.eqb (lower ext)) [".jpg"; ".jpeg"]
            then [("quality", 95%Z)] else [] in
          inr (mkTarget folder safe_filename save_kwargs)
      end
  end.

(** A PIL image. *)
Variable image : Type.

(** [out_dir.mkdir(parents=True, exist_ok=True)] for a folder under
    [ILLUSTRATIONS_DIR] and [img.save(out_path, **save_kwargs)]: whether
    the call returns; it raises otherwise ([OSError] or [ValueError],
    as for a name that the file system refuses). *)
Variable mkdir : string -> bool.
Variable save : image -> target -> bool.

(** [_save_illustration(img, person_name=, album=, asset=)]: the target
    at which the image has been written, or what was raised. *)
Definition _save_illustration (img : image)
    (person_name album : option string) (asset : value)
  : error + target :=
  match illustration_target person_name album asset with
  | inl e => inl (Raised e)
  | inr t =>
      if mkdir (folder t) then
        if save img t then inr t else inl SaveRaised
      else inl MkdirRaised
  end.

End Save.

End Illustrations.

(** ** image_album.py: the Immich provider *)

Module Immich.
Import Py Net.
Local Open Scope Z_scope.

(** What the methods of [ImmichProvider] can raise. *)
Inductive error : Type :=
| Raised (e : exn)
| HTTPError (status_code : Z)
| RuntimeError (msg : string)
| KeyError
| IndexError.

(** [v[k]] for a string [k]: only a dict takes a string as subscript. *)
Definition subscript (v : value) (k : string) : error + value :=
  match v with
  | VDict kv =>
      match lookup k kv with
      | Some x => inr x
      | None => inl KeyError
      end
  | _ => inl (Raised TypeError)
  end.

(** The items that a [for] or [list.extend] takes from a value: the
    elements of a list, the keys of a dict, the characters of a string. *)
Definition iter (v : value) : error + list value :=
  match v with
  | VList l => inr l
  | VDict kv => inr (map (fun p => VStr (fst p)) kv)
  | VStr s =>
      inr (map (fun c => VStr (String c EmptyString)) (list_ascii_of_string s))
  | _ => inl (Raised TypeError)
  end.

(** [len(v)] as far as it matters here: whether it raises. *)
Definition len (v : value) : error + nat :=
  match iter v with
  | inl e => inl e
  | inr l => inr (length l)
  end.

(** [v[i]] for an index [i] below [len(v)]: no dict of JSON has an
    integer key. *)
Definition item (v : value) (i : nat) : error + value :=
  match v with
  | VList l =>
      match nth_error l i with
      | Some x => inr x
      | None => inl IndexError
      end
  | VStr s =>
      match nth_error (list_ascii_of_string s) i with
      | Some c => inr (VStr (String c EmptyString))
      | None => inl IndexError
      end
  | VDict _ => inl KeyError
  | _ => inl (Raised TypeError)
  end.

(** [random.choice(seq)] when the generator draws [draw]: [IndexError] on
    an empty sequence, else [seq[draw mod len(seq)]]. *)
Definition choice (draw : nat) (seq : value) : error + value :=
  match len seq with
  | inl e => inl e
  | inr O => inl IndexError
  | inr (S n) => item seq (draw mod S n)
  end.

(** [matching_albums = [a for a in albums if a[albumName] == album]] *)
Fixpoint matching (album : string) (albums : list value)
  : error + list value :=
  match albums with
  | [] => inr []
  | a :: rest =>
      match subscript a "albumName" with
      | inl e => inl e
      | inr name =>
          match matching album rest with
          | inl e => inl e
          | inr m => inr (if eq name (VStr album) then a :: m else m)
          end
      end
  end.

Section Provider.

(** A PIL image. *)
Variable image : Type.

(** [json.loads] on a text: [None] when it raises. *)
Variable json_loads : string -> option value.

(** The answer to the GET of [/api/albums]. *)
Variable albums_get : http_outcome.

(** The answer to the GET of [/api/search/person] for a name. *)
Variable person_get : string -> http_outcome.

(** The answer to the POST of [/api/search/random] for a person id. *)
Variable random_post : value -> http_outcome.

(** The answer to the POST of [/api/search/metadata] for an album id and
    a page number. *)
Variable metadata_post : value -> nat -> http_outcome.

(** What the random generator draws for [choice]. *)
Variable draw : nat.

(** [image_loader.from_url] on the preview URL of an asset id, with the
    given [resize]: [None] when it loads no image. *)
Variable from_url : value -> bool -> option image.

(** [r.raise_for_status()] and [r.json()] on the outcome of a request. *)
Definition json_of (r : http_outcome) : error + value :=
  match r with
  | HttpRaises => inl (Raised RequestException)
  | HttpResponse status_code text =>
      if (400 <=? status_code) && (status_code <? 600)
      then inl (HTTPError status_code)
      else
        match json_loads text with
        | Some v => inr v
        | None => inl (Raised JSONDecodeError)
        end
  end.

Definition raised {A} (r : exn + A) : error + A :=
  match r with
  | inl e => inl (Raised e)
  | inr a => inr a
  end.

(** [self.get_album_id(album)] *)
Definition get_album_id (album : string) : error + value :=
  match json_of albums_get with
  | inl e => inl e
  | inr albums =>
      match iter albums with
      | inl e => inl e
      | inr seq =>
          match matching album seq with
          | inl e => inl e
          | inr [] =>
              inl (RuntimeError ("Album '" ++ album ++ "' not found."))
          | inr (a :: _) => subscript a "id"
          end
      end
  end.

(** [self.get_person_id(person_name)] *)
Definition get_person_id (person_name : string) : error + value :=
  match json_of (person_get person_name) with
  | inl e => inl e
  | inr persons =>
      if negb (truthy persons)
      then inl (RuntimeError ("Person '" ++ person_name ++ "' not found."))
      else
        match item persons 0 with
        | inl e => inl e
        | inr first => subscript first "id"
        end
  end.

(** [self.get_assets_by_person(person_id)]; the log line takes
    [len(items)]. *)
Definition get_assets_by_person (person_id : value) : error + value :=
  match json_of (random_post person_id) with
  | inl e => inl e
  | inr items =>
      match len items with
      | inl e => inl e
      | inr _ => inr items
      end
  end.

(** The [while page_items:] of [get_assets_by_album], entered with
    [page] and [all_items]; [None] when [fuel] turns do not end it. *)
Fixpoint assets_pages (fuel : nat) (album_id : value) (page : nat)
    (all_items : list value) : option (error + list value) :=
  match fuel with
  | O => None
  | S fuel =>
      match json_of (metadata_post album_id page) with
      | inl e => Some (inl e)
      | inr assets_data =>
          match raised (get_default assets_data "assets" (VDict [])) with
          | inl e => Some (inl e)
          | inr assets =>
              match raised (get_default assets "items" (VList [])) with
              | inl e => Some (inl e)
              | inr page_items =>
                  match iter page_items with
                  | inl e => Some (inl e)
                  | inr items =>
                      if truthy page_items
                      then assets_pages fuel album_id (S page)
                             (all_items ++ items)%list
                      else Some (inr (all_items ++ items)%list)
                  end
              end
          end
      end
  end.

(** [self.get_assets_by_album(album_id)] *)
Definition get_assets_by_album (fuel : nat) (album_id : value)
  : option (error + list value) :=
  assets_pages fuel album_id 1 [].

(** The lines that the two [get_image_by_] methods share: from
    [choice(assets)] to the end. *)
Definition select (assets : value) (resize : bool)
  : error + (option image * option value) :=
  match choice draw assets with
  | inl e => inl e
  | inr selected_asset =>
      match subscript selected_asset "id" with
      | inl e => inl e
      | inr asset_id =>
          match from_url asset_id resize with
          | None => inr (None, None)
          | Some img => inr (Some img, Some selected_asset)
          end
      end
  end.

(** [self.get_image_by_album(album, dimensions, resize)] *)
Definition get_image_by_album (fuel : nat) (album : string) (resize : bool)
  : option (error + (option image * option value)) :=
  match get_album_id album with
  | inl e => Some (inr (None, None))
  | inr album_id =>
      match get_assets_by_album fuel album_id with
      | None => None
      | Some (inl e) => Some (inr (None, None))
      | Some (inr assets) =>
          if negb (truthy (VList assets)) then Some (inr (None, None))
          else Some (select (VList assets) resize)
      end
  end.

(** [self.get_image_by_person(person_name, dimensions, resize)] *)
Definition get_image_by_person (person_name : string) (resize : bool)
  : error + (option image * option value) :=
  match get_person_id person_name with
  | inl e => inr (None, None)
  | inr person_id =>
      match get_assets_by_person person_id with
      | inl e => inr (None, None)
      | inr assets => select assets resize
      end
  end.

End Provider.

End Immich.

(** ** image_album.py: the plugin *)

Module Plugin.
Import Py PyStr Provider Illustrations.
Local Open Scope Z_scope.

(** The settings of a plugin instance that [generate_image] reads: each
    is a string, or [None] when the key is absent. *)
Record settings : Type := mkSettings {
  albumProvider : option string;
  padImage : option string;
  backgroundOption : option string;
  url : option string;
  album : option string;
  personName : option string;
  convertToIllustration : option string;
  illustrationProvider : option string;
  backgroundColor : option string
}.

(** [v == s] for [v : str | None]. *)
Definition is_str (v : option string) (s : string) : bool :=
  match v with
  | Some t => String.eqb t s
  | None => false
  end.

(** [settings.get(key, default)] *)
Definition get_or (v : option string) (default : string) : string :=
  match v with
  | Some t => t
  | None => default
  end.

(** What [generate_image] can raise. *)
Inductive failure : Type :=
| RuntimeError (msg : string)
| FromProvider (e : Immich.error)
| FromSave (e : Illustrations.error)
| ValueError.

(** What a call of [generate_image] that returns has done: the image
    returned and the illustration saved, with its place. *)
Record generated (image : Type) : Type := mkGenerated {
  shown : image;
  saved : option (image * target)
}.

Arguments mkGenerated {image}.
Arguments shown {image}.
Arguments saved {image}.

Section GenerateImage.

(** A PIL image and a colour. *)
Variable image : Type.
Variable color : Type.

(** [device_config.get_config(orientation)], [get_resolution()] and
    [load_env_key(name)]. *)
Variable orientation : option string.
Variable resolution : Z * Z.
Variable load_env_key : string -> option string.

(** [ImmichProvider(url, key, self.image_loader).get_image_by_person(
    person_name, dimensions, resize=)] and [get_image_by_album]. *)
Variable get_image_by_person :
  string -> string -> string -> Z * Z -> bool
  -> Immich.error + (option image * option value).
Variable get_image_by_album :
  string -> string -> string -> Z * Z -> bool
  -> Immich.error + (option image * option value).

(** Whether the [get_http_session()] of the illustration provider
    returns. *)
Variable session_made : bool.

(** [illustration_provider.to_illustration(img, is_person=)] *)
Variable to_illustration : provider -> image -> bool -> option image.

(** [Path(s).stem], and whether [mkdir] and [img.save] return. *)
Variable stem : string -> string.
Variable mkdir : string -> bool.
Variable save : image -> target -> bool.

(** [pad_image_blur(img, dimensions)], [ImageOps.fit(img, dimensions,
    method=LANCZOS)], [ImageColor.getcolor(name, img.mode)], which raises
    [ValueError] on a name it does not know, and [ImageOps.pad(img,
    dimensions, color=, method=LANCZOS)]. *)
Variable pad_image_blur : image -> Z * Z -> image.
Variable fit : image -> Z * Z -> image.
Variable getcolor : string -> image -> option color.
Variable pad : image -> Z * Z -> color -> image.

(** The lines under [if img and convert_to_illustration:], for the image
    loaded: the image to go on with, [illustration_resized], and the
    illustration saved. *)
Definition illustrate (s : settings) (dimensions : Z * Z)
    (use_padding : bool) (img : image) (selected_asset : option value)
  : failure + (image * bool * option (image * target)) :=
  let illustration_provider_id := get_or (illustrationProvider s) "deapi" in
  let api_key := load_env_key "DEAPI_TOKEN" in
  match Registry.get_illustration_provider session_made
          illustration_provider_id api_key Registry.no_kwargs with
  | None => inr (img, false, None)
  | Some illustration_provider =>
      if Base.is_configured
           (Registry.requires_api_key Registry.DeAPIIllustrationProvider)
           api_key
      then
        match to_illustration illustration_provider img
                (given (personName s)) with
        | None => inr (img, false, None)
        | Some illustrated =>
            let img :=
              if use_padding then pad_image_blur illustrated dimensions
              else fit illustrated dimensions in
            if match selected_asset with
               | Some a => Py.truthy a
               | None => false
               end
            then
              match _save_illustration stem image mkdir save illustrated
                      (personName s) (album s)
                      (match selected_asset with
                       | Some a => a
                       | None => VNone
                       end) with
              | inl e => inl (FromSave e)
              | inr t => inr (img, true, Some (illustrated, t))
              end
            else inr (img, true, None)
        end
      else inr (img, false, None)
  end.

(** The lines after the [match]: the padding of an image that was not
    resized as an illustration. *)
Definition finish (s : settings) (dimensions : Z * Z) (use_padding : bool)
    (background_option : string) (img : image) (illustration_resized : bool)
  : failure + image :=
  if negb illustration_resized then
    if use_padding then
      if String.eqb background_option "blur"
      then inr (pad_image_blur img dimensions)
      else
        match getcolor (opt_or_else (backgroundColor s) "white") img with
        | None => inl ValueError
        | Some background_color => inr (pad img dimensions background_color)
        end
    else inr img
  else inr img.

(** [dimensions] after the check of the orientation. *)
Definition dimensions : Z * Z :=
  if is_str orientation "vertical"
  then (snd resolution, fst resolution) else resolution.

(** The call of [get_image_by_person] or of [get_image_by_album]. *)
Definition load (s : settings) (key : option string) (load_resize : bool)
  : Immich.error + (option image * option value) :=
  if given (personName s)
  then get_image_by_person (get_or (url s) "") (get_or key "")
         (get_or (personName s) "") dimensions load_resize
  else get_image_by_album (get_or (url s) "") (get_or key "")
         (get_or (album s) "") dimensions load_resize.

(** [self.generate_image(settings, device_config)] *)
Definition generate_image (s : settings) : failure + generated image :=
  let use_padding := is_str (padImage s) "true" in
  let background_option := get_or (backgroundOption s) "blur" in
  if is_str (albumProvider s) "Immich" then
    let key := load_env_key "IMMICH_KEY" in
    if negb (given key)
    then inl (RuntimeError "Immich API Key not configured.")
    else if negb (given (url s))
    then inl (RuntimeError "Immich URL is required.")
    else if negb (given (album s)) && negb (given (personName s))
    then inl (RuntimeError "Either album name or person name is required.")
    else
      let convert_to_illustration :=
        is_str (convertToIllustration s) "true" in
      let load_resize :=
        if convert_to_illustration then false else negb use_padding in
      match load s key load_resize with
      | inl e => inl (FromProvider e)
      | inr (None, _) =>
          inl (RuntimeError "Failed to load image, please check logs.")
      | inr (Some img, selected_asset) =>
          match
            (if convert_to_illustration
             then illustrate s dimensions use_padding img selected_asset
             else inr (img, false, None))
          with
          | inl e => inl e
          | inr (img, illustration_resized, saved) =>
              match finish s dimensions use_padding background_option img
                      illustration_resized with
              | inl e => inl e
              | inr img => inr (mkGenerated img saved)
              end
          end
      end
  else
    inl (RuntimeError
           ("Unsupported album provider: "
            ++ get_or (albumProvider s) "None")).

(** The settings and the key pass the checks that [generate_image] makes
    before it loads an image. *)
Definition accepted (s : settings) : bool :=
  is_str (albumProvider s) "Immich"
  && given (load_env_key "IMMICH_KEY")
  && given (url s)
  && (given (album s) || given (personName s)).

End GenerateImage.

End Plugin.

(** ** Observations on runs

    Predicates on what a run leaves behind, for the further properties
    below. *)

Module Observations.
Import Py Net WebSocket.

(** A [pusher:subscribe] frame for the private channel of a client. *)
Definition is_subscribe (client_id : string) (frame : value) : bool :=
  match frame with
  | VDict [("event", VStr event);
           ("data", VDict [("channel", VStr channel); ("auth", _)])] =>
      String.eqb event "pusher:subscribe"
      && String.eqb channel ("private-client." ++ client_id)
  | _ => false
  end.

(** An authentication exchange that was answered with status 200. *)
Definition granted (auth_post : string -> value -> string -> http_outcome)
    (api_token : string) (exchange : value * string) : bool :=
  match auth_post api_token (fst exchange) (snd exchange) with
  | HttpResponse status_code _ => (status_code =? 200)%Z
  | HttpRaises => false
  end.

(** What the listener has sent and posted. *)
Definition outbound (st : listener) : list value * list (value * string) :=
  (sent st, auth_posts st).

(** Every frame sent is a subscription to the private channel of the
    client, every exchange was for that channel, and there are no more
    frames than granted exchanges. *)
Definition subscribes_after_auth
    (auth_post : string -> value -> string -> http_outcome)
    (api_token client_id : string) (st : listener) : Prop :=
  Forall (fun frame => is_subscribe client_id frame = true) (sent st)
  /\ Forall (fun exchange => snd exchange = "private-client." ++ client_id)
       (auth_posts st)
  /\ (length (sent st)
      <= length (filter (granted auth_post api_token) (auth_posts st)))%nat.

(** The [items] of a page of the asset search: the value that
    [get_assets_by_album] reads from a response that it accepts. *)
Definition page_items (json_loads : string -> option value)
    (r : http_outcome) : option value :=
  match Immich.json_of json_loads r with
  | inr assets_data =>
      match get_default assets_data "assets" (VDict []) with
      | inr assets =>
          match get_default assets "items" (VList []) with
          | inr items => Some items
          | inl _ => None
          end
      | inl _ => None
      end
  | inl _ => None
  end.

(** An album entry with a name other than [album]. *)
Definition other_album (album : string) (a : value) : Prop :=
  exists name,
    Immich.subscript a "albumName" = inr name
    /\ eq name (VStr album) = false.

(** An album entry with a name. *)
Definition named_album (a : value) : Prop :=
  exists name, Immich.subscript a "albumName" = inr name.

End Observations.

(** ** Further example worlds

    Answers of the services and settings of the plugin for the runs of
    the further properties. *)

Module Worlds.
Import Py Net WebSocket Provider JsonText Examples.

(** The [done] of the awaited job is handled at the very end of the 300 s
    of the timeout. *)
Definition script_photo_finish : list (Z * thread_step) :=
  [(0, Register); (400, OnMessage handshake);
   (300000, OnMessage done_r1)]%Z.

(** A greeting without a socket id. *)
Definition handshake_no_socket : string :=
  frame "pusher:connection_established"
    (VDict [("activity_timeout", VInt 30)]).

(** The authentication endpoint cannot be reached. *)
Definition auth_raises (_ : string) (_ : value) (_ : string) : http_outcome :=
  HttpRaises.

(** The job is [done] at once, without a result URL; with a URL that the
    store does not serve. *)
Definition done_without_url (_ : nat) : N * http_outcome :=
  (150%N, status_reply "done" []).

Definition url_r2 : value := VStr "https://cdn.deapi.ai/results/r-2.png".

Definition done_elsewhere (_ : nat) : N * http_outcome :=
  (150%N, status_reply "done" [("result_url", url_r2)]).

(** The status endpoint answers 202; it raises. *)
Definition accepted_at_once (_ : nat) : N * http_outcome :=
  (150%N, HttpResponse 202 "Accepted").

Definition status_raises (_ : nat) : N * http_outcome :=
  (150%N, HttpRaises).

(** A status that the loop has no case for, then [done]. *)
Definition queued_then_done (k : nat) : N * http_outcome :=
  if (k <? 1)%nat then (150%N, status_reply "queued" [])
  else (150%N, status_reply "done" [("result_url", url_r1)]).


(** The provider as the plugin makes it: no client id. *)
Definition self_by_registry : provider :=
  init (Some "token-1") None DEFAULT_MODEL.

(** The part of a file name before its last dot, when that dot is
    neither the first nor the last character. *)
Fixpoint cut_suffix (s : string) : option string :=
  match s with
  | EmptyString => None
  | String c r =>
      match cut_suffix r with
      | Some t => Some (String c t)
      | None =>
          if Ascii.eqb c "."
          then match r with EmptyString => None | _ => Some EmptyString end
          else None
      end
  end.

Definition stem (s : string) : string :=
  match s with
  | EmptyString => EmptyString
  | String c r =>
      match cut_suffix r with
      | Some t => String c t
      | None => s
      end
  end.

(** Albums, a person and assets of an Immich server. *)
Definition album_entry (name id : string) : value :=
  VDict [("albumName", VStr name); ("id", VStr id)].

Definition albums : list value :=
  [album_entry "Holidays" "a1"; album_entry "Family" "a2";
   album_entry "Family" "a3"].

Definition albums_get : http_outcome :=
  HttpResponse 200 (dumps (VList albums)).

Definition albums_with_stray : list value :=
  [album_entry "Family" "a2"; VDict [("id", VStr "a9")]].

Definition albums_get_stray : http_outcome :=
  HttpResponse 200 (dumps (VList albums_with_stray)).

Definition asset (id name : string) : value :=
  VDict [("id", VStr id); ("originalFileName", VStr name)].

Definition page (items : list value) : http_outcome :=
  HttpResponse 200 (dumps (VDict [("assets", VDict [("items", VList items)])])).

Definition first_page : list value :=
  [asset "x1" "IMG_0041.HEIC"; asset "x2" "IMG_0042.HEIC"].

Definition second_page : list value := [asset "x3" "IMG_0043.jpg"].

(** Two pages with assets, then empty pages. *)
Definition metadata_post (_ : value) (page_number : nat) : http_outcome :=
  match page_number with
  | 1%nat => page first_page
  | 2%nat => page second_page
  | _ => page []
  end.

Definition no_assets (_ : value) (_ : nat) : http_outcome := page [].

Definition person_get (_ : string) : http_outcome :=
  HttpResponse 200
    (dumps (VList [VDict [("id", VStr "p1"); ("name", VStr "Ada")]])).

Definition random_post_none (_ : value) : http_outcome :=
  HttpResponse 200 (dumps (VList [])).

Definition random_post (_ : value) : http_outcome :=
  HttpResponse 200 (dumps (VList first_page)).

(** The loader gives the preview of [x2] only; an image is stood for by
    a description. *)
Definition from_url (asset_id : value) (resize : bool) : option string :=
  if eq asset_id (VStr "x2")
  then Some (if resize then "x2, resized" else "x2, full size")
  else None.

(** The plugin: the settings, the keys, the two loaders and the image
    operations. *)
Definition settings_person (pad_image : string) : Plugin.settings :=
  Plugin.mkSettings (Some "Immich") (Some pad_image) (Some "color")
    (Some "http://immich.local") None (Some "Ada") (Some "true") None
    (Some "black").

Definition load_env_key (name : string) : option string :=
  if String.eqb name "IMMICH_KEY" then Some "immich-key"
  else if String.eqb name "DEAPI_TOKEN" then Some " token-1 "
  else None.

Definition by_person (_ _ _ : string) (_ : Z * Z) (resize : bool)
  : Immich.error + (option string * option value) :=
  inr (from_url (VStr "x2") resize, Some (asset "x2" "IMG_0042.HEIC")).

Definition by_album (_ _ _ : string) (_ : Z * Z) (_ : bool)
  : Immich.error + (option string * option value) :=
  inr (None, None).

Definition no_illustration (_ : provider) (_ : string) (_ : bool)
  : option string := None.

Definition sketch (_ : provider) (img : string) (_ : bool) : option string :=
  Some ("sketch of " ++ img).

(** The file system takes every folder and every file. *)
Definition mkdir (_ : string) : bool := true.

Definition save (_ : string) (_ : Illustrations.target) : bool := true.

Definition pad_image_blur (img : string) (_ : Z * Z) : string :=
  img ++ ", padded with blur".

Definition fit (img : string) (_ : Z * Z) : string := img ++ ", fitted".

Definition getcolor (name : string) (_ : string) : option string := Some name.

Definition pad (img : string) (_ : Z * Z) (background : string) : string :=
  img ++ ", padded with " ++ background.

End Worlds.

(** * Properties *)

(** ** [_sanitize_filename] *)

Section Sanitize.
Import PyStr ImageAlbum Protocol.

Lemma re_sub_class_clean (cls : list ascii) (c : ascii) (s : string) :
  existsb (Ascii.eqb c) cls = true ->
  mem c (re_sub_class cls s) = false.
Proof.
  intros Hc. induction s as [|a r IH]; simpl; [reflexivity|].
  destruct (existsb (Ascii.eqb a) cls) eqn:Ha; [exact IH|].
  simpl. rewrite IH, orb_false_r.
  destruct (Ascii.eqb c a) eqn:Hca; [|reflexivity].
  apply Ascii.eqb_eq in Hca. subst a. congruence.
Qed.

Lemma or_else_unknown_truthy (s : string) :
  truthy (or_else s "unknown") = true.
Proof. destruct s; reflexivity. Qed.

Lemma or_else_unknown_clean (s : string) :
  (forall c, In c FORBIDDEN -> mem c s = false) ->
  forall c, In c FORBIDDEN -> mem c (or_else s "unknown") = false.
Proof.
  intros Hs c Hc. destruct s as [|a r].
  - simpl in Hc. cbv [or_else truthy].
    repeat (destruct Hc as [<-|Hc]; [reflexivity|]). contradiction.
  - exact (Hs c Hc).
Qed.

Lemma In_existsb_eqb (c : ascii) (cls : list ascii) :
  In c cls -> existsb (Ascii.eqb c) cls = true.
Proof.
  intros H. apply existsb_exists. exists c. split; [exact H|].
  apply Ascii.eqb_refl.
Qed.

(** C9: for every input, [None] included, [_sanitize_filename] returns a
    string that is not empty and holds none of the nine forbidden
    characters; an input that comes down to nothing ([None], the empty
    string, white space only, forbidden characters only) yields
    [unknown]. *)
Theorem sanitize_filename_safe (name : option string) :
  _sanitize_filename name <> ""
  /\ forallb (fun c => negb (mem c (_sanitize_filename name))) FORBIDDEN
     = true
  /\ (reduces_to_empty name = true -> _sanitize_filename name = "unknown").
Proof.
  unfold _sanitize_filename.
  set (s := re_sub_class FORBIDDEN (strip (opt_or_else name "unknown"))).
  split; [|split].
  - pose proof (or_else_unknown_truthy s) as H.
    destruct (or_else s "unknown"); [discriminate H|discriminate].
  - apply forallb_forall. intros c Hc.
    rewrite (or_else_unknown_clean s); [reflexivity| |exact Hc].
    intros c' Hc'. apply re_sub_class_clean, In_existsb_eqb, Hc'.
  - destruct name as [n|]; unfold reduces_to_empty.
    + intros Hn. subst s. unfold opt_or_else, or_else.
      destruct n as [|a r]; [reflexivity|].
      cbn [truthy]. apply negb_true_iff in Hn.
      destruct (re_sub_class FORBIDDEN (strip (String a r)));
        [reflexivity|discriminate Hn].
    + intros _. reflexivity.
Qed.

End Sanitize.


(** ** The listener *)

Section Frames.
Import Py Net Eff WebSocket Protocol.

Context {V : Type} (view : listener -> V).

Lemma keeps_ret {A} (a : A) : keeps view (ret a).
Proof. intros st. reflexivity. Qed.

Lemma keeps_raise {A} (e : exn) : keeps view (@raise listener A e).
Proof. intros st. reflexivity. Qed.

Lemma keeps_lift {A} (r : exn + A) : keeps view (lift r).
Proof. intros st. reflexivity. Qed.

Lemma keeps_bind {A B} (m : M listener A) (k : A -> M listener B) :
  keeps view m -> (forall a, keeps view (k a)) -> keeps view (bind m k).
Proof.
  intros Hm Hk st. unfold bind. specialize (Hm st).
  destruct (m st) as [st' [e|a]]; cbn [fst] in *; [exact Hm|].
  rewrite Hk. exact Hm.
Qed.

(** [x = expr] where [expr] may raise: the rest runs with the value. *)
Lemma keeps_bind_lift {A B} (r : exn + A) (k : A -> M listener B) :
  (forall a, r = inr a -> keeps view (k a)) -> keeps view (bind (lift r) k).
Proof.
  intros Hk st. unfold bind, lift. destruct r as [e|a]; [reflexivity|].
  exact (Hk a eq_refl st).
Qed.

Lemma keeps_when (c : bool) (body : M listener unit) :
  keeps view body -> keeps view (when c body).
Proof. intros H. destruct c; [exact H|apply keeps_ret]. Qed.

Lemma keeps_modify (f : listener -> listener) :
  (forall st, view (f st) = view st) -> keeps view (modify f).
Proof. intros H st. apply H. Qed.

Lemma respects_ret {A} (a : A) : respects (ret a).
Proof. intros st1 st2 H. split; [exact H|reflexivity]. Qed.

Lemma respects_raise {A} (e : exn) : respects (@raise listener A e).
Proof. intros st1 st2 H. split; [exact H|reflexivity]. Qed.

Lemma respects_lift {A} (r : exn + A) : respects (lift r).
Proof. intros st1 st2 H. split; [exact H|reflexivity]. Qed.

Lemma respects_bind {A B} (m : M listener A) (k : A -> M listener B) :
  respects m -> (forall a, respects (k a)) -> respects (bind m k).
Proof.
  intros Hm Hk st1 st2 H. unfold bind. destruct (Hm st1 st2 H) as [H1 H2].
  destruct (m st1) as [st1' [e1|a1]], (m st2) as [st2' [e2|a2]];
    cbn [fst snd] in *; try discriminate H2.
  - injection H2 as ->. split; [assumption|reflexivity].
  - injection H2 as ->. apply Hk, H1.
Qed.

Lemma respects_when (c : bool) (body : M listener unit) :
  respects body -> respects (when c body).
Proof. intros H. destruct c; [exact H|apply respects_ret]. Qed.

Lemma respects_modify (f : listener -> listener) :
  (forall st1 st2, silent st1 = silent st2 -> silent (f st1) = silent (f st2)) ->
  respects (modify f).
Proof. intros Hf st1 st2 H. split; [apply Hf, H|reflexivity]. Qed.

End Frames.

Section ListenerFacts.
Import Py Net Eff WebSocket Protocol.

Variable json_loads : string -> option value.
Variable auth_post : string -> value -> string -> http_outcome.
Variable request_id : value.
Variables api_token client_id : string.

Let on_msg := on_message json_loads auth_post request_id api_token client_id.
Let on_try :=
  on_message_try json_loads auth_post request_id api_token client_id.
Let subscribe :=
  _subscribe_private_channel json_loads auth_post api_token client_id.
Let stepf := step json_loads auth_post request_id api_token client_id.

Lemma shared_of_silent (a b : listener) :
  silent a = silent b -> shared a = shared b.
Proof. unfold silent, shared. intros H. injection H as -> -> -> -> _ _. reflexivity. Qed.

Lemma keeps_subscribe (socket_id : value) :
  keeps shared (subscribe socket_id).
Proof.
  unfold subscribe, _subscribe_private_channel.
  apply keeps_bind; [now apply keeps_modify|intros _].
  destruct (auth_post _ _ _) as [|code text]; [apply keeps_raise|].
  destruct (negb _); [now apply keeps_modify|].
  apply keeps_bind; [apply keeps_lift|intros auth_data].
  apply keeps_bind; [apply keeps_lift|intros auth].
  apply keeps_bind; [now apply keeps_modify|intros _; now apply keeps_modify].
Qed.

(** The [try] body on a status update is the status branch on its
    payload. *)
Lemma on_try_status_update (message : string) (payload : value)
    (st : listener) :
  payload_of json_loads message = Some payload ->
  on_try message st = on_status_update request_id payload st.
Proof.
  unfold payload_of, on_try, on_message_try, bind, lift, loads.
  destruct (json_loads message) as [data|]; [|discriminate].
  destruct (get data "event") as [e|event]; [discriminate|].
  destruct (eq_str event "request.status.updated") eqn:Hev; [|discriminate].
  destruct event as [| | |t| |]; try discriminate Hev.
  cbn [eq_str] in Hev. apply String.eqb_eq in Hev. subst t.
  cbn [eq_str String.eqb Ascii.eqb Bool.eqb].
  destruct (get_default data "data" (VStr "{}")) as [e|raw]; [discriminate|].
  fold (loads json_loads raw).
  destruct (loads json_loads raw) as [e|p]; [discriminate|].
  intros [= ->]. reflexivity.
Qed.

(** A status update that is not a terminal one of the awaited job changes
    nothing but the log. *)
Lemma status_update_mutes (payload : value) :
  awaited request_id payload && terminal payload = false ->
  keeps silent (on_status_update request_id payload).
Proof.
  unfold awaited, terminal, status_is, on_status_update. intros Hq.
  apply keeps_bind_lift. intros rid Hrid. rewrite Hrid in Hq.
  destruct (eq rid request_id); [|apply keeps_ret]. cbn [when andb] in *.
  apply keeps_bind_lift. intros status Hstatus. rewrite Hstatus in Hq.
  apply keeps_bind; [apply keeps_lift|intros progress].
  apply keeps_bind; [now apply keeps_when, keeps_modify|intros _].
  apply orb_false_iff in Hq. destruct Hq as [-> ->]. apply keeps_ret.
Qed.

(** [on_message] in terms of the [try] body. *)
Lemma silent_on_message (message : string) (st : listener) :
  silent (on_msg message st) = silent (fst (on_try message st)).
Proof.
  unfold on_msg, on_message. fold on_try.
  destruct (on_try message st) as [st' [e|[]]]; reflexivity.
Qed.

(** A message that is no terminal status update of the awaited job
    leaves the shared objects and the connection as they are. *)
Lemma quiet_on_message (message : string) (st : listener) :
  quiet json_loads request_id message = true ->
  shared (on_msg message st) = shared st.
Proof.
  intros Hq. rewrite (shared_of_silent _ _ (silent_on_message message st)).
  revert st. change (keeps shared (on_try message)).
  unfold quiet in Hq.
  destruct (payload_of json_loads message) as [payload|] eqn:Hp.
  - intros st. rewrite (on_try_status_update _ _ _ Hp).
    apply shared_of_silent, status_update_mutes.
    apply negb_true_iff, Hq.
  - clear Hq. unfold payload_of in Hp. unfold on_try, on_message_try.
    apply keeps_bind_lift. intros data Hdata.
    unfold loads in Hdata. destruct (json_loads message) as [data'|];
      [|discriminate Hdata].
    injection Hdata as ->.
    apply keeps_bind_lift. intros event Hevent. rewrite Hevent in Hp.
    destruct (eq_str event "pusher:connection_established").
    + apply keeps_bind; [apply keeps_lift|intros raw].
      apply keeps_bind; [apply keeps_lift|intros conn_data].
      apply keeps_bind; [apply keeps_lift|intros socket_id].
      apply keeps_when, keeps_subscribe.
    + destruct (eq_str event "request.status.updated"); [|apply keeps_ret].
      apply keeps_bind_lift. intros raw Hraw. rewrite Hraw in Hp.
      apply keeps_bind_lift. intros payload Hpayload.
      rewrite Hpayload in Hp. discriminate Hp.
Qed.

Lemma foreign_quiet (message : string) :
  foreign json_loads request_id message = true ->
  quiet json_loads request_id message = true.
Proof.
  unfold foreign, quiet. destruct (payload_of json_loads message); [|easy].
  intros H. apply negb_true_iff in H. rewrite H. reflexivity.
Qed.

Lemma ignored_calm (s : thread_step) :
  ignored json_loads request_id s = true ->
  calm json_loads request_id s = true.
Proof. destruct s; cbn; auto using foreign_quiet. Qed.

(** The handler on a status update of the awaited job with status
    [done]. *)
Lemma on_message_done (message : string) (payload : value) (st : listener) :
  payload_of json_loads message = Some payload ->
  awaited request_id payload = true ->
  status_is payload "done" = true ->
  on_msg message st
  = ws_close ByHandler (set_done (set_result payload (log_progress payload st))).
Proof.
  intros Hp Ha Hs. unfold on_msg, on_message. fold on_try.
  rewrite (on_try_status_update _ _ _ Hp).
  unfold awaited, status_is, log_progress, progress_of in *.
  unfold on_status_update, bind, lift, when, modify, ret.
  destruct payload as [| | | | |kv]; try discriminate Ha.
  destruct (get (VDict kv) "request_id") as [e|rid]; [discriminate|].
  rewrite Ha.
  destruct (get (VDict kv) "status") as [e|status]; [discriminate|].
  rewrite Hs. cbn [get_default].
  destruct (truthy _); reflexivity.
Qed.

(** The handler on a status update of the awaited job with status
    [error]. *)
Lemma on_message_error (message : string) (payload : value) (st : listener) :
  payload_of json_loads message = Some payload ->
  awaited request_id payload = true ->
  status_is payload "error" = true ->
  on_msg message st
  = ws_close ByHandler
      (set_done (logger (LogJobError payload) (log_progress payload st))).
Proof.
  intros Hp Ha Hs. unfold on_msg, on_message. fold on_try.
  rewrite (on_try_status_update _ _ _ Hp).
  unfold awaited, status_is, log_progress, progress_of in *.
  unfold on_status_update, bind, lift, when, modify, ret.
  destruct payload as [| | | | |kv]; try discriminate Ha.
  destruct (get (VDict kv) "request_id") as [e|rid]; [discriminate|].
  rewrite Ha.
  destruct (get (VDict kv) "status") as [e|status]; [discriminate|].
  destruct status as [| | |t| |]; try discriminate Hs.
  cbn [eq_str] in Hs. apply String.eqb_eq in Hs. subst t.
  cbn [eq_str String.eqb Ascii.eqb Bool.eqb get_default].
  destruct (truthy _); reflexivity.
Qed.

(** A calm step leaves the shared objects and the connection as they
    are, but for the registration of the app. *)
Lemma calm_step (s : thread_step) (st : listener) :
  calm json_loads request_id s = true ->
  result_holder (stepf s st) = result_holder st
  /\ done (stepf s st) = done st
  /\ closes (stepf s st) = closes st.
Proof.
  destruct s as [|message| |]; cbn [calm]; try discriminate.
  - intros _. repeat split.
  - intros Hq. pose proof (quiet_on_message message st Hq) as H.
    unfold shared in H. injection H as H1 H2 _ H4. repeat split; assumption.
Qed.

(** No message touches [ws_ref]. *)
Lemma ws_ref_on_message (message : string) (st : listener) :
  ws_ref (on_msg message st) = ws_ref st.
Proof.
  transitivity (ws_ref (fst (on_try message st))).
  { unfold on_msg, on_message. fold on_try.
    destruct (on_try message st) as [st' [e|[]]]; reflexivity. }
  revert st. change (keeps ws_ref (on_try message)).
  unfold on_try, on_message_try.
  apply keeps_bind; [apply keeps_lift|intros data].
  apply keeps_bind; [apply keeps_lift|intros event].
  destruct (eq_str event "pusher:connection_established").
  - apply keeps_bind; [apply keeps_lift|intros raw].
    apply keeps_bind; [apply keeps_lift|intros conn_data].
    apply keeps_bind; [apply keeps_lift|intros socket_id].
    apply keeps_when. intros st.
    exact (f_equal (fun x => snd (fst x)) (keeps_subscribe socket_id st)).
  - destruct (eq_str event "request.status.updated"); [|apply keeps_ret].
    apply keeps_bind; [apply keeps_lift|intros raw].
    apply keeps_bind; [apply keeps_lift|intros payload].
    unfold on_status_update.
    apply keeps_bind; [apply keeps_lift|intros rid].
    apply keeps_when.
    apply keeps_bind; [apply keeps_lift|intros status].
    apply keeps_bind; [apply keeps_lift|intros progress].
    apply keeps_bind; [now apply keeps_when, keeps_modify|intros _].
    destruct (eq_str status "done");
      [|destruct (eq_str status "error"); [|apply keeps_ret]];
      (apply keeps_bind; [now apply keeps_modify|intros _]);
      (apply keeps_bind; [now apply keeps_modify|intros _]);
      now apply keeps_modify.
Qed.

(** No step clears [ws_ref]. *)
Lemma ws_ref_step (s : thread_step) (st : listener) :
  ws_ref st = true -> ws_ref (stepf s st) = true.
Proof.
  intros Hw. destruct s as [|message|error|]; cbn; try assumption;
    [reflexivity|].
  fold on_msg. rewrite ws_ref_on_message. exact Hw.
Qed.

Let pumpf := pump json_loads auth_post request_id api_token client_id.
Let racef := race json_loads auth_post request_id api_token client_id.
Let left_overf :=
  left_over json_loads auth_post request_id api_token client_id.

Lemma pump_cons (timeout t : Z) (s : thread_step)
    (rest : list (Z * thread_step)) (st : listener) :
  pumpf timeout ((t, s) :: rest) st
  = if (secs timeout <=? t)%Z then (st, Expired)
    else if done (stepf s st) then (stepf s st, Signalled t s)
         else pumpf timeout rest (stepf s st).
Proof. reflexivity. Qed.

Lemma ws_ref_pump (timeout : Z) (script : list (Z * thread_step))
    (st : listener) :
  ws_ref st = true -> ws_ref (fst (pumpf timeout script st)) = true.
Proof.
  revert st. induction script as [|[t s] rest IH]; intros st Hw.
  - exact Hw.
  - rewrite pump_cons.
    destruct (secs timeout <=? t)%Z; [exact Hw|].
    pose proof (ws_ref_step s st Hw) as Hw'.
    destruct (done (stepf s st)); [exact Hw'|]. apply IH, Hw'.
Qed.

(** Calm steps taken in time are passed over: the wait goes on with the
    steps after them. *)
Lemma pump_calm_prefix (timeout : Z) (pre rest : list (Z * thread_step))
    (st : listener) :
  done st = false ->
  Forall (fun ts => in_time timeout ts
                    && calm json_loads request_id (snd ts) = true) pre ->
  pumpf timeout (pre ++ rest) st
  = pumpf timeout rest (run_steps stepf pre st)
  /\ result_holder (run_steps stepf pre st) = result_holder st
  /\ done (run_steps stepf pre st) = false
  /\ closes (run_steps stepf pre st) = closes st.
Proof.
  intros Hd Hpre. revert st Hd.
  induction Hpre as [|[t s] pre Hts _ IH]; intros st Hd.
  - cbn [app run_steps fold_left]. repeat split. exact Hd.
  - apply andb_true_iff in Hts. destruct Hts as [Ht Hc].
    unfold in_time in Ht. cbn [fst snd] in *.
    apply Z.ltb_lt in Ht.
    destruct (calm_step s st Hc) as (Hr & Hdn & Hcl).
    cbn [app]. rewrite pump_cons.
    cbn [run_steps fold_left snd].
    destruct (Z.leb_spec (secs timeout) t) as [Hle|_]; [lia|].
    rewrite Hdn, Hd.
    destruct (IH (stepf s st)) as (E1 & E2 & E3 & E4); [congruence|].
    unfold run_steps in *. rewrite E1, E2, E3, E4.
    repeat split; congruence.
Qed.

(** When every step is calm the wait runs out. *)
Lemma pump_calm_expires (timeout : Z) (script : list (Z * thread_step))
    (st : listener) :
  done st = false ->
  Forall (fun ts => calm json_loads request_id (snd ts) = true) script ->
  snd (pumpf timeout script st) = Expired
  /\ result_holder (fst (pumpf timeout script st)) = result_holder st
  /\ closes (fst (pumpf timeout script st)) = closes st.
Proof.
  intros Hd Hall. revert st Hd.
  induction Hall as [|[t s] rest Hc _ IH]; intros st Hd.
  - repeat split.
  - rewrite pump_cons. cbn [snd] in Hc.
    destruct (secs timeout <=? t)%Z; [repeat split|].
    destruct (calm_step s st Hc) as (Hr & Hdn & Hcl).
    rewrite Hdn, Hd.
    destruct (IH (stepf s st)) as (E1 & E2 & E3); [congruence|].
    rewrite E1, E2, E3. repeat split; assumption.
Qed.

Let waitf :=
  wait_for_result json_loads auth_post request_id api_token client_id.
Let settledf := settled json_loads auth_post request_id api_token client_id.

(** C4: in a script whose steps before a [done] status update of the
    awaited job (one that carries a result URL) are taken in time and are
    foreign messages (no status update, or the status update of another
    job), the listener resolves to [Done] with the payload of that update,
    whose [result_url] is exactly that URL, whatever the number and the
    order of the foreign messages and whatever comes after; and every
    foreign message leaves [result_holder], [done], [ws_ref] and the
    connection as they were. *)
Theorem done_event_resolves (timeout t : Z)
    (pre post : list (Z * thread_step)) (message : string)
    (payload url : value) :
  Forall (fun ts => in_time timeout ts
                    && ignored json_loads request_id (snd ts) = true) pre ->
  in_time timeout (t, OnMessage message) = true ->
  payload_of json_loads message = Some payload ->
  awaited request_id payload = true ->
  status_is payload "done" = true ->
  get payload "result_url" = inr url ->
  let r := waitf timeout (pre ++ (t, OnMessage message) :: post) in
  verdict_of r = Done payload
  /\ returned r = payload
  /\ get (returned r) "result_url" = inr url
  /\ returned_at r = t
  /\ forall other st,
       foreign json_loads request_id other = true ->
       shared (on_msg other st) = shared st.
Proof.
  intros Hpre Ht Hp Ha Hs Hurl r.
  assert (Hr : r = mkRun payload t (Signalled t (OnMessage message))
                 (on_msg message (run_steps stepf pre initial))).
  { subst r. unfold waitf, wait_for_result. fold pumpf.
    destruct (pump_calm_prefix timeout pre ((t, OnMessage message) :: post)
                initial eq_refl) as (E & _ & _ & _).
    { eapply Forall_impl; [|exact Hpre]. intros ts H.
      apply andb_true_iff in H. destruct H as [H1 H2].
      rewrite H1, (ignored_calm _ H2). reflexivity. }
    rewrite E, pump_cons. unfold in_time in Ht. cbn [fst] in Ht.
    apply Z.ltb_lt in Ht.
    destruct (Z.leb_spec (secs timeout) t) as [Hle|_]; [lia|].
    cbn [stepf step]. fold on_msg.
    rewrite (on_message_done _ _ _ Hp Ha Hs). reflexivity. }
  rewrite Hr. cbn [returned returned_at]. repeat split.
  - unfold verdict_of. cbn [woke returned].
    destruct payload; try reflexivity. discriminate Hurl.
  - exact Hurl.
  - intros other st Hf. apply quiet_on_message, foreign_quiet, Hf.
Qed.

(** C10: on a message that is no JSON text, or whose [data] does not
    decode, the [try] of [on_message] raises before it has touched
    anything and the handler catches what it raised: the handler returns
    with a debug line in the log and with [result_holder] and [done] as
    they were, so the wait goes on. *)
Theorem malformed_message_ignored (message : string) (st : listener) :
  undecodable json_loads message ->
  (exists e,
      on_try message st = (st, inl e)
      /\ on_msg message st = logger (LogParseError e) st)
  /\ result_holder (on_msg message st) = result_holder st
  /\ done (on_msg message st) = done st.
Proof.
  intros Hu.
  assert (H : exists e, on_try message st = (st, inl e)).
  { unfold on_try, on_message_try, bind, lift, loads.
    destruct Hu as [->|(data & event & raw & e & -> & -> & Hev & -> & Hraw)].
    - eexists. reflexivity.
    - unfold loads in Hraw.
      destruct (eq_str event "pusher:connection_established");
        [rewrite Hraw; eexists; reflexivity|].
      cbn [orb] in Hev. rewrite Hev, Hraw. eexists. reflexivity. }
  destruct H as [e He].
  assert (Hm : on_msg message st = logger (LogParseError e) st).
  { unfold on_msg, on_message. fold on_try. rewrite He. reflexivity. }
  split; [exists e; split; assumption|]. rewrite Hm. split; reflexivity.
Qed.

(** The [try] body on a handshake is the handshake branch on its
    data. *)
Lemma on_try_handshake (message : string) (conn_data : value)
    (st : listener) :
  handshake_of json_loads message = Some conn_data ->
  on_try message st
  = on_connection_established json_loads auth_post api_token client_id
      conn_data st.
Proof.
  unfold handshake_of, on_try, on_message_try, bind, lift, loads.
  destruct (json_loads message) as [data|]; [|discriminate].
  destruct (get data "event") as [e|event]; [discriminate|].
  destruct (eq_str event "pusher:connection_established"); [|discriminate].
  destruct (get_default data "data" (VStr "{}")) as [e|raw]; [discriminate|].
  fold (loads json_loads raw).
  destruct (loads json_loads raw) as [e|p]; [discriminate|].
  intros [= ->]. reflexivity.
Qed.

Lemma handshake_quiet (message : string) (conn_data : value) :
  handshake_of json_loads message = Some conn_data ->
  quiet json_loads request_id message = true.
Proof.
  unfold handshake_of, quiet, payload_of.
  destruct (json_loads message) as [data|]; [|reflexivity].
  destruct (get data "event") as [e|event]; [reflexivity|].
  destruct (eq_str event "pusher:connection_established") eqn:Hev;
    [|discriminate].
  destruct event as [| | |t| |]; try discriminate Hev.
  cbn [eq_str] in Hev. apply String.eqb_eq in Hev. subst t. reflexivity.
Qed.

(** The handler on a handshake whose authentication is refused. *)
Lemma on_message_auth_refused (message : string)
    (conn_data socket_id : value) (status_code : Z) (text : string)
    (st : listener) :
  handshake_of json_loads message = Some conn_data ->
  get conn_data "socket_id" = inr socket_id ->
  truthy socket_id = true ->
  auth_post api_token socket_id ("private-client." ++ client_id)
  = HttpResponse status_code text ->
  status_code <> 200%Z ->
  on_msg message st
  = logger (LogAuthFailed status_code text)
      (note_auth_post socket_id ("private-client." ++ client_id) st).
Proof.
  intros Hh Hs Ht Ha Hc. unfold on_msg, on_message. fold on_try.
  rewrite (on_try_handshake _ _ _ Hh).
  unfold on_connection_established, _subscribe_private_channel.
  unfold bind, lift, when, modify. rewrite Hs, Ht, Ha.
  apply Z.eqb_neq in Hc. rewrite Hc. reflexivity.
Qed.

Lemma silent_set_result (v : value) (st1 st2 : listener) :
  silent st1 = silent st2 ->
  silent (set_result v st1) = silent (set_result v st2).
Proof. unfold silent. cbn. intros [= _ -> -> -> -> ->]. reflexivity. Qed.

Lemma silent_set_done (st1 st2 : listener) :
  silent st1 = silent st2 -> silent (set_done st1) = silent (set_done st2).
Proof. unfold silent. cbn. intros [= -> _ -> -> -> ->]. reflexivity. Qed.

Lemma silent_set_ws_ref (st1 st2 : listener) :
  silent st1 = silent st2 ->
  silent (set_ws_ref st1) = silent (set_ws_ref st2).
Proof. unfold silent. cbn. intros [= -> -> _ -> -> ->]. reflexivity. Qed.

Lemma silent_ws_close (who : closer) (st1 st2 : listener) :
  silent st1 = silent st2 ->
  silent (ws_close who st1) = silent (ws_close who st2).
Proof. unfold silent. cbn. intros [= -> -> -> -> -> ->]. reflexivity. Qed.

Lemma silent_ws_send (frame : value) (st1 st2 : listener) :
  silent st1 = silent st2 ->
  silent (ws_send frame st1) = silent (ws_send frame st2).
Proof. unfold silent. cbn. intros [= -> -> -> -> -> ->]. reflexivity. Qed.

Lemma silent_note_auth_post (socket_id : value) (channel : string)
    (st1 st2 : listener) :
  silent st1 = silent st2 ->
  silent (note_auth_post socket_id channel st1)
  = silent (note_auth_post socket_id channel st2).
Proof. unfold silent. cbn. intros [= -> -> -> -> -> ->]. reflexivity. Qed.

Lemma silent_logger (l1 l2 : log_line) (st1 st2 : listener) :
  silent st1 = silent st2 ->
  silent (logger l1 st1) = silent (logger l2 st2).
Proof. unfold silent. cbn. intros H. exact H. Qed.

Create HintDb listener.

#[local] Hint Resolve silent_set_result silent_set_done silent_set_ws_ref
  silent_ws_close silent_ws_send silent_note_auth_post silent_logger
  : listener.

#[local] Hint Resolve respects_ret respects_raise respects_lift respects_when
  : listener.

Ltac respect_modify := apply respects_modify; intros; auto with listener.
Ltac respect_bind := apply respects_bind; [|intros ?].

Lemma respects_subscribe (socket_id : value) : respects (subscribe socket_id).
Proof.
  unfold subscribe, _subscribe_private_channel.
  respect_bind; [respect_modify|].
  destruct (auth_post _ _ _) as [|code text]; [auto with listener|].
  destruct (negb _); [respect_modify|].
  do 2 (respect_bind; [auto with listener|]).
  respect_bind; respect_modify.
Qed.

Lemma respects_on_status_update (payload : value) :
  respects (on_status_update request_id payload).
Proof.
  unfold on_status_update.
  respect_bind; [auto with listener|]. apply respects_when.
  do 2 (respect_bind; [auto with listener|]).
  respect_bind; [apply respects_when; respect_modify|].
  destruct (eq_str _ "done");
    [|destruct (eq_str _ "error"); [|auto with listener]];
    (respect_bind; [respect_modify|]);
    (respect_bind; respect_modify).
Qed.

Lemma respects_on_try (message : string) : respects (on_try message).
Proof.
  unfold on_try, on_message_try.
  do 2 (respect_bind; [auto with listener|]).
  destruct (eq_str _ "pusher:connection_established").
  - do 2 (respect_bind; [auto with listener|]).
    unfold on_connection_established.
    respect_bind; [auto with listener|].
    apply respects_when, respects_subscribe.
  - destruct (eq_str _ "request.status.updated"); [|auto with listener].
    do 2 (respect_bind; [auto with listener|]).
    apply respects_on_status_update.
Qed.

(** A step does the same on two listeners that differ in their logs
    only. *)
Lemma silent_step (s : thread_step) (st1 st2 : listener) :
  silent st1 = silent st2 -> silent (stepf s st1) = silent (stepf s st2).
Proof.
  intros H. destruct s as [|message|error|]; cbn [stepf step].
  - auto with listener.
  - unfold on_message. fold on_try.
    destruct (respects_on_try message st1 st2 H) as [H1 H2].
    destruct (on_try message st1) as [st1' [e1|[]]],
             (on_try message st2) as [st2' [e2|[]]];
      cbn [fst snd] in *; try discriminate H2; auto with listener.
  - unfold on_error. auto with listener.
  - unfold on_close. auto with listener.
Qed.

Lemma done_of_silent (st1 st2 : listener) :
  silent st1 = silent st2 -> done st1 = done st2.
Proof. unfold silent. intros [= _ H _ _ _ _]. exact H. Qed.

Lemma result_of_silent (st1 st2 : listener) :
  silent st1 = silent st2 -> result_holder st1 = result_holder st2.
Proof. unfold silent. intros [= H _ _ _ _ _]. exact H. Qed.

Lemma lookup_dict_remove (k k' : string) (kv : list (string * value)) :
  String.eqb k k' = false ->
  lookup k (dict_remove k' kv) = lookup k kv.
Proof.
  intros Hk. induction kv as [|[k0 v0] rest IH]; [reflexivity|].
  cbn [dict_remove lookup].
  destruct (String.eqb k' k0) eqn:E.
  - apply String.eqb_eq in E. subst k0. rewrite Hk. exact IH.
  - cbn [lookup]. rewrite IH. reflexivity.
Qed.

Lemma terminal_dict_remove (kv1 kv2 : list (string * value)) :
  dict_remove "progress" kv1 = dict_remove "progress" kv2 ->
  terminal (VDict kv1) = terminal (VDict kv2).
Proof.
  intros H. unfold terminal, status_is, get, get_default.
  rewrite <- (lookup_dict_remove "status" "progress" kv1) by reflexivity.
  rewrite <- (lookup_dict_remove "status" "progress" kv2) by reflexivity.
  rewrite H. reflexivity.
Qed.

(** A status update that is not terminal changes nothing but the log. *)
Lemma intermediate_mutes (message : string) (payload : value)
    (st : listener) :
  payload_of json_loads message = Some payload ->
  terminal payload = false ->
  silent (on_msg message st) = silent st.
Proof.
  intros Hp Ht. rewrite silent_on_message, (on_try_status_update _ _ _ Hp).
  apply status_update_mutes. rewrite Ht. apply andb_false_r.
Qed.

(** Two scripts that differ in the progress of status updates that are
    not terminal drive the listener alike. *)
Lemma pump_variants (timeout : Z) (script1 script2 : list (Z * thread_step))
    (st1 st2 : listener) :
  Forall2 (step_variant json_loads) script1 script2 ->
  silent st1 = silent st2 ->
  done st1 = false ->
  silent (fst (pumpf timeout script1 st1))
  = silent (fst (pumpf timeout script2 st2))
  /\ snd (pumpf timeout script1 st1) = snd (pumpf timeout script2 st2).
Proof.
  intros Hv. revert st1 st2.
  induction Hv as [|[t1 a] [t2 b] r1 r2 [Ht Hab] _ IH]; intros st1 st2 Hs Hd.
  - split; [exact Hs|reflexivity].
  - cbn [fst snd] in Ht, Hab. subst t2. rewrite !pump_cons.
    destruct (secs timeout <=? t1)%Z; [split; [exact Hs|reflexivity]|].
    destruct Hab as [<-|(m1 & m2 & -> & -> & kv1 & kv2 & Hp1 & Hp2 & Hkv & Ht1)].
    + pose proof (silent_step a st1 st2 Hs) as Hs'.
      rewrite <- (done_of_silent _ _ Hs').
      destruct (done (stepf a st1)) eqn:Hd';
        [split; [exact Hs'|reflexivity]|].
      apply IH; assumption.
    + cbn [stepf step]. fold on_msg.
      assert (Ht2 : terminal (VDict kv2) = false)
        by (rewrite <- (terminal_dict_remove _ _ Hkv); exact Ht1).
      pose proof (intermediate_mutes m1 _ st1 Hp1 Ht1) as E1.
      pose proof (intermediate_mutes m2 _ st2 Hp2 Ht2) as E2.
      rewrite (done_of_silent _ _ E1), (done_of_silent _ _ E2).
      rewrite <- (done_of_silent _ _ Hs), Hd.
      apply IH; [congruence|].
      rewrite (done_of_silent _ _ E1). exact Hd.
Qed.

Lemma variant_step (a b : Z * thread_step) (st1 st2 : listener) :
  step_variant json_loads a b ->
  silent st1 = silent st2 ->
  silent (stepf (snd a) st1) = silent (stepf (snd b) st2).
Proof.
  intros [_ [->|(m1 & m2 & -> & -> & kv1 & kv2 & Hp1 & Hp2 & Hkv & Ht1)]] Hs.
  - apply silent_step, Hs.
  - cbn [stepf step]. fold on_msg.
    assert (Ht2 : terminal (VDict kv2) = false)
      by (rewrite <- (terminal_dict_remove _ _ Hkv); exact Ht1).
    rewrite (intermediate_mutes m1 _ st1 Hp1 Ht1),
      (intermediate_mutes m2 _ st2 Hp2 Ht2).
    exact Hs.
Qed.

Lemma left_over_variants (timeout : Z)
    (script1 script2 : list (Z * thread_step)) (st1 st2 : listener) :
  Forall2 (step_variant json_loads) script1 script2 ->
  silent st1 = silent st2 ->
  Forall2 (step_variant json_loads) (left_overf timeout script1 st1)
    (left_overf timeout script2 st2).
Proof.
  intros Hv. revert st1 st2.
  induction Hv as [|[t1 a] [t2 b] r1 r2 Hab Hrest IH]; intros st1 st2 Hs;
    [apply Forall2_nil|].
  pose proof (variant_step _ _ st1 st2 Hab Hs) as Hs'. cbn [snd] in Hs'.
  pose proof Hab as [Ht _]. cbn [fst] in Ht. subst t2.
  unfold left_overf. cbn [left_over]. fold left_overf. fold stepf.
  destruct (secs timeout <=? t1)%Z; [apply Forall2_cons; assumption|].
  rewrite <- (done_of_silent _ _ Hs').
  destruct (done (stepf a st1)); [exact Hrest|apply IH, Hs'].
Qed.

Lemma race_variants (timeout : Z)
    (script1 script2 : list (Z * thread_step)) (st1 st2 : listener) :
  Forall2 (step_variant json_loads) script1 script2 ->
  silent st1 = silent st2 ->
  silent (racef timeout script1 st1) = silent (racef timeout script2 st2).
Proof.
  intros Hv. revert st1 st2.
  induction Hv as [|[t1 a] [t2 b] r1 r2 Hab Hrest IH]; intros st1 st2 Hs;
    [exact Hs|].
  pose proof (variant_step _ _ st1 st2 Hab Hs) as Hs'. cbn [snd] in Hs'.
  pose proof Hab as [Ht _]. cbn [fst] in Ht. subst t2.
  unfold racef. cbn [race]. fold racef. fold stepf.
  destruct (t1 =? secs timeout)%Z; [apply IH, Hs'|exact Hs].
Qed.

(** C8: two scripts that differ only in the [progress] of status updates
    that are not terminal give the same outcome: the same verdict, the
    same returned payload and so the same result URL, at the same time,
    and the same listener but for the lines of its log. *)
Theorem progress_is_informational (timeout : Z)
    (script1 script2 : list (Z * thread_step)) :
  Forall2 (step_variant json_loads) script1 script2 ->
  let r1 := waitf timeout script1 in
  let r2 := waitf timeout script2 in
  verdict_of r1 = verdict_of r2
  /\ returned r1 = returned r2
  /\ get (returned r1) "result_url" = get (returned r2) "result_url"
  /\ returned_at r1 = returned_at r2
  /\ silent (final r1) = silent (final r2).
Proof.
  intros Hv r1 r2.
  destruct (pump_variants timeout script1 script2 initial initial Hv
              eq_refl eq_refl) as [Hs Hw].
  assert (H : returned r1 = returned r2 /\ woke r1 = woke r2
              /\ returned_at r1 = returned_at r2
              /\ silent (final r1) = silent (final r2)).
  { pose proof (left_over_variants timeout script1 script2 initial initial
                  Hv eq_refl) as Hl.
    subst r1 r2. unfold waitf, wait_for_result.
    fold pumpf racef left_overf.
    destruct (pumpf timeout script1 initial) as [a w1],
             (pumpf timeout script2 initial) as [b w2].
    cbn [fst snd] in Hs, Hw. subst w2.
    destruct w1 as [t s|]; cbn [returned woke returned_at final].
    - repeat split; [apply result_of_silent|]; exact Hs.
    - repeat split.
      pose proof (race_variants timeout _ _ a b Hl Hs) as Hrace.
      assert (Hr : ws_ref (racef timeout (left_overf timeout script1 initial) a)
                   = ws_ref (racef timeout (left_overf timeout script2 initial)
                               b))
        by (unfold silent in Hrace; injection Hrace; auto).
      rewrite <- Hr. destruct (ws_ref _); [|exact Hrace].
      apply silent_ws_close, Hrace. }
  destruct H as (Hret & Hwoke & Hat & Hfin).
  unfold verdict_of. rewrite Hret, Hwoke, Hat. repeat split. exact Hfin.
Qed.


(** Corrected C2: when the authentication exchange of the handshake
    answers with a status other than 200, the handler only notes the
    exchange and logs the refusal: no frame is sent, [done] stays unset and
    the connection stays open.  Among steps that wake nobody the listener
    then waits out the whole timeout and returns no result, which reads as
    [TimedOut] and not as a failure of the job. *)
Theorem auth_refusal_waits_for_deadline (timeout t : Z)
    (pre post : list (Z * thread_step)) (message : string)
    (conn_data socket_id : value) (status_code : Z) (text : string) :
  Forall (fun ts => calm json_loads request_id (snd ts) = true) pre ->
  Forall (fun ts => calm json_loads request_id (snd ts) = true) post ->
  handshake_of json_loads message = Some conn_data ->
  get conn_data "socket_id" = inr socket_id ->
  truthy socket_id = true ->
  auth_post api_token socket_id ("private-client." ++ client_id)
  = HttpResponse status_code text ->
  status_code <> 200%Z ->
  (forall st,
      on_msg message st
      = logger (LogAuthFailed status_code text)
          (note_auth_post socket_id ("private-client." ++ client_id) st))
  /\ let r := waitf timeout (pre ++ (t, OnMessage message) :: post) in
     woke r = Expired
     /\ returned r = VNone
     /\ returned_at r = secs timeout
     /\ verdict_of r = TimedOut.
Proof.
  intros Hpre Hpost Hh Hs Ht Ha Hc. split.
  - intros st. eapply on_message_auth_refused; eassumption.
  - intros r.
    assert (Hall : Forall (fun ts => calm json_loads request_id (snd ts) = true)
                     (pre ++ (t, OnMessage message) :: post)).
    { apply Forall_app. split; [exact Hpre|]. constructor; [|exact Hpost].
      cbn [snd calm]. eapply handshake_quiet, Hh. }
    destruct (pump_calm_expires timeout _ initial eq_refl Hall) as (Hw & _ & _).
    subst r. unfold verdict_of, waitf, wait_for_result. fold pumpf.
    destruct (pumpf timeout _ initial) as [st w]. cbn [snd] in Hw. subst w.
    repeat split.
Qed.

(** A message is calm, or it is a status update of the awaited job with
    status [done] or [error]. *)
Lemma message_cases (message : string) :
  quiet json_loads request_id message = true
  \/ exists payload,
       payload_of json_loads message = Some payload
       /\ awaited request_id payload = true
       /\ (status_is payload "done" = true
           \/ status_is payload "error" = true).
Proof.
  unfold quiet. destruct (payload_of json_loads message) as [p|];
    [|left; reflexivity].
  destruct (awaited request_id p && terminal p) eqn:E; [|left; reflexivity].
  right. exists p. apply andb_true_iff in E. destruct E as [Ha Ht].
  unfold terminal in Ht. apply orb_true_iff in Ht. auto.
Qed.

(** [result_holder] holds nothing as long as [done] is unset. *)
Lemma step_no_result (s : thread_step) (st : listener) :
  (done st = false -> result_holder st = VNone) ->
  done (stepf s st) = false -> result_holder (stepf s st) = VNone.
Proof.
  intros Hinv. destruct s as [|message|error|]; cbn [stepf step].
  - exact Hinv.
  - fold on_msg. destruct (message_cases message) as [Hq|(p & Hp & Ha & [Hs|Hs])].
    + pose proof (quiet_on_message message st Hq) as H. unfold shared in H.
      injection H as -> -> _ _. exact Hinv.
    + rewrite (on_message_done _ _ _ Hp Ha Hs). discriminate.
    + rewrite (on_message_error _ _ _ Hp Ha Hs). discriminate.
  - discriminate.
  - discriminate.
Qed.

(** A wake-up that is not the work of a message comes with no result. *)
Lemma pump_no_result (timeout : Z) (script : list (Z * thread_step))
    (st : listener) (t : Z) (s : thread_step) :
  done st = false ->
  result_holder st = VNone ->
  snd (pumpf timeout script st) = Signalled t s ->
  (forall message, s <> OnMessage message) ->
  result_holder (fst (pumpf timeout script st)) = VNone.
Proof.
  revert st. induction script as [|[t0 s0] rest IH]; intros st Hd Hr Hw Hs.
  - discriminate Hw.
  - rewrite pump_cons in *.
    destruct (secs timeout <=? t0)%Z; [discriminate Hw|].
    destruct (done (stepf s0 st)) eqn:Hd'.
    + cbn [fst snd] in *. injection Hw as -> ->.
      destruct s as [|message|error|]; cbn [stepf step]; try exact Hr.
      * exfalso. exact (Hs message eq_refl).
    + apply IH; try assumption.
      apply step_no_result; [intros _; exact Hr|exact Hd'].
Qed.

(** Every verdict but [Done] comes with [None] for the caller. *)
Lemma verdict_returns_none (timeout : Z) (script : list (Z * thread_step)) :
  (forall payload, verdict_of (waitf timeout script) <> Done payload) ->
  returned (waitf timeout script) = VNone.
Proof.
  unfold verdict_of, waitf, wait_for_result. fold pumpf.
  pose proof (pump_no_result timeout script initial) as Hp.
  destruct (pumpf timeout script initial) as [st [t s|]];
    cbn [woke returned fst snd] in *; [|reflexivity].
  intros Hv. destruct s as [|message|error|];
    try (apply (Hp t _ eq_refl eq_refl eq_refl); discriminate).
  destruct (result_holder st) eqn:E; try reflexivity;
    exfalso; eapply Hv; reflexivity.
Qed.

Lemma wait_expired (timeout : Z) (script : list (Z * thread_step)) :
  snd (pumpf timeout script initial) = Expired ->
  waitf timeout script
  = mkRun VNone (secs timeout) Expired
      (let st := racef timeout (left_overf timeout script initial)
                   (fst (pumpf timeout script initial)) in
       if ws_ref st then ws_close ByOwner st else st).
Proof.
  unfold waitf, wait_for_result. fold pumpf racef left_overf.
  destruct (pumpf timeout script initial) as [st [t s|]];
    cbn [fst snd]; [discriminate|reflexivity].
Qed.

Lemma woke_pump (timeout : Z) (script : list (Z * thread_step)) :
  woke (waitf timeout script) = snd (pumpf timeout script initial).
Proof.
  unfold waitf, wait_for_result. fold pumpf.
  destruct (pumpf timeout script initial) as [st [t s|]]; reflexivity.
Qed.

(** A step of the thread closes the connection through a handler or not
    at all. *)
Lemma step_closes (s : thread_step) (st : listener) :
  closes (stepf s st) = closes st
  \/ closes (stepf s st) = ByHandler :: closes st.
Proof.
  destruct s as [|message|error|]; cbn [stepf step]; try (left; reflexivity).
  fold on_msg.
  destruct (message_cases message) as [Hq|(payload & Hp & Ha & [Hs|Hs])].
  - left. pose proof (quiet_on_message message st Hq) as H.
    unfold shared in H. injection H as _ _ _ H. exact H.
  - right. rewrite (on_message_done _ _ st Hp Ha Hs). unfold log_progress.
    destruct (truthy _); reflexivity.
  - right. rewrite (on_message_error _ _ st Hp Ha Hs). unfold log_progress.
    destruct (truthy _); reflexivity.
Qed.

Lemma step_no_owner (s : thread_step) (st : listener) :
  ~ In ByOwner (closes st) -> ~ In ByOwner (closes (stepf s st)).
Proof.
  intros H. destruct (step_closes s st) as [-> | ->]; [exact H|].
  intros [Hc|Hc]; [discriminate Hc|exact (H Hc)].
Qed.

Lemma pump_no_owner (timeout : Z) (script : list (Z * thread_step))
    (st : listener) :
  ~ In ByOwner (closes st) ->
  ~ In ByOwner (closes (fst (pumpf timeout script st))).
Proof.
  revert st. induction script as [|[t s] rest IH]; intros st H; [exact H|].
  rewrite pump_cons. destruct (secs timeout <=? t)%Z; [exact H|].
  pose proof (step_no_owner s st H) as H'.
  destruct (done (stepf s st)); [exact H'|apply IH, H'].
Qed.

Lemma race_no_owner (timeout : Z) (script : list (Z * thread_step))
    (st : listener) :
  ~ In ByOwner (closes st) ->
  ~ In ByOwner (closes (racef timeout script st)).
Proof.
  revert st. induction script as [|[t s] rest IH]; intros st H; [exact H|].
  unfold racef. cbn [race]. fold racef. fold stepf.
  destruct (t =? secs timeout)%Z; [|exact H].
  apply IH, step_no_owner, H.
Qed.

Lemma ws_ref_race (timeout : Z) (script : list (Z * thread_step))
    (st : listener) :
  ws_ref st = true -> ws_ref (racef timeout script st) = true.
Proof.
  revert st. induction script as [|[t s] rest IH]; intros st H; [exact H|].
  unfold racef. cbn [race]. fold racef. fold stepf.
  destruct (t =? secs timeout)%Z; [|exact H].
  apply IH, ws_ref_step, H.
Qed.

Lemma steps_no_owner (script : list (Z * thread_step)) (st : listener) :
  ~ In ByOwner (closes st) ->
  ~ In ByOwner (closes (run_steps stepf script st)).
Proof.
  revert st. induction script as [|[t s] rest IH]; intros st H; [exact H|].
  cbn [run_steps fold_left snd]. apply IH, step_no_owner, H.
Qed.

Lemma ws_ref_steps (script : list (Z * thread_step)) (st : listener) :
  ws_ref st = true -> ws_ref (run_steps stepf script st) = true.
Proof.
  revert st. induction script as [|[t s] rest IH]; intros st H; [exact H|].
  cbn [run_steps fold_left snd]. apply IH, ws_ref_step, H.
Qed.

(** Corrected C6: when the wait runs out with [done] still unset, the
    listener returns no result at the end of the timeout, which reads as
    [TimedOut].  The caller then closes the connection if and only if the
    socket thread has registered it in [ws_ref] by the time the caller
    reads [ws_ref], and that close is the last call on the connection
    that [wait_for_result] sees: so it is with a thread that registers
    before the end of the timeout or at it.  With a thread that registers
    later, [wait_for_result] returns without having done anything, and
    the connection that the thread then opens is not closed by the
    caller. *)
Theorem deadline_closes_registered_connection (timeout : Z)
    (script : list (Z * thread_step)) :
  woke (waitf timeout script) = Expired ->
  let r := waitf timeout script in
  returned r = VNone
  /\ returned_at r = secs timeout
  /\ verdict_of r = TimedOut
  /\ (ws_ref (final r) = true -> hd_error (closes (final r)) = Some ByOwner)
  /\ (ws_ref (final r) = false -> ~ In ByOwner (closes (final r)))
  /\ (forall t0 rest,
        script = (t0, Register) :: rest ->
        (t0 <= secs timeout)%Z ->
        hd_error (closes (final r)) = Some ByOwner)
  /\ (forall t0 rest,
        script = (t0, Register) :: rest ->
        (secs timeout < t0)%Z ->
        final r = initial
        /\ ws_ref (settledf timeout script) = true
        /\ ~ In ByOwner (closes (settledf timeout script))).
Proof.
  intros Hw r. rewrite woke_pump in Hw.
  pose proof (wait_expired timeout script Hw) as Hr. fold r in Hr.
  set (st := racef timeout (left_overf timeout script initial)
               (fst (pumpf timeout script initial))) in Hr.
  assert (Hno : ~ In ByOwner (closes st)).
  { apply race_no_owner, pump_no_owner. intros []. }
  assert (Hfinal : final r = if ws_ref st then ws_close ByOwner st else st)
    by (rewrite Hr; reflexivity).
  assert (Hopen : ws_ref st = true ->
                  hd_error (closes (final r)) = Some ByOwner).
  { intros E. rewrite Hfinal, E. reflexivity. }
  assert (Href : ws_ref (final r) = ws_ref st).
  { rewrite Hfinal. destruct (ws_ref st) eqn:E; exact E. }
  split; [rewrite Hr; reflexivity|].
  split; [rewrite Hr; reflexivity|].
  split; [unfold verdict_of; rewrite Hr; reflexivity|].
  split; [intros E; apply Hopen; rewrite <- Href; exact E|].
  split.
  { intros E. rewrite Href in E. rewrite Hfinal, E. exact Hno. }
  split.
  - intros t0 rest Hs Ht0. apply Hopen. subst st. subst script.
    destruct (Z.eq_dec t0 (secs timeout)) as [->|Hne].
    + rewrite pump_cons. unfold left_overf. cbn [left_over].
      rewrite Z.leb_refl. cbn [fst]. unfold racef. cbn [race].
      rewrite Z.eqb_refl. fold racef. apply ws_ref_race. reflexivity.
    + apply ws_ref_race. rewrite pump_cons.
      destruct (Z.leb_spec (secs timeout) t0) as [Hle|_]; [lia|].
      cbn [stepf step set_ws_ref done initial].
      apply ws_ref_pump. reflexivity.
  - intros t0 rest Hs Ht0.
    assert (Hst : st = initial).
    { subst st. subst script. rewrite pump_cons.
      unfold left_overf. cbn [left_over].
      destruct (Z.leb_spec (secs timeout) t0) as [_|Hlt]; [|lia].
      cbn [fst]. unfold racef. cbn [race].
      destruct (Z.eqb_spec t0 (secs timeout)) as [He|_]; [lia|reflexivity]. }
    assert (Hfin : final r = initial).
    { rewrite Hfinal, Hst. reflexivity. }
    assert (Hset : settledf timeout script
                   = run_steps stepf rest (stepf Register initial)).
    { unfold settledf, settled. fold waitf. fold r. rewrite Hfin.
      unfold later_steps. fold pumpf. rewrite Hw. subst script.
      cbn [left_over after_race].
      destruct (Z.leb_spec (secs timeout) t0) as [_|Hlt]; [|lia].
      cbn [after_race].
      destruct (Z.eqb_spec t0 (secs timeout)) as [He|_]; [lia|].
      reflexivity. }
    split; [exact Hfin|]. rewrite Hset. split.
    + apply ws_ref_steps. reflexivity.
    + apply steps_no_owner. cbn [stepf step set_ws_ref closes initial].
      intros [].
Qed.

End ListenerFacts.

(** ** The polling and the orchestration *)

Section ProviderFacts.
Import Py Net Eff WebSocket Provider Protocol.
Local Open Scope Z_scope.

Variable image : Type.
Variable json_loads : string -> option value.
Variable png_save : image -> option string.
Variable image_open : string -> option image.
Variable submit_post : string -> string -> string -> string -> http_outcome.
Variable auth_post : string -> value -> string -> http_outcome.
Variable script : list (Z * thread_step).
Variable url_get : value -> http_outcome.
Variable status_get : nat -> N * http_outcome.

Let pollf := poll_loop image json_loads image_open url_get status_get.
Let turn := poll_turn image json_loads image_open url_get.
Let poll_for_result :=
  _poll_for_result image json_loads image_open url_get status_get.

(** One turn of the loop of [_poll_for_result]. *)
Lemma poll_loop_step (now : Z) (st : polling) :
  pollf now st
  = if now <? secs MAX_WAIT_TIME then
      match turn (snd (status_get (status_gets st))) st with
      | (st1, inl e) =>
          mkPolled (inl e)
            (now + Z.of_N (fst (status_get (status_gets st)))) st1
      | (st1, inr (Some r)) =>
          mkPolled (inr r)
            (now + Z.of_N (fst (status_get (status_gets st)))) st1
      | (st1, inr None) =>
          pollf (now + Z.of_N (fst (status_get (status_gets st)))
                 + secs POLL_INTERVAL) (note_sleep st1)
      end
    else mkPolled (inr None) now (poll_logger LogPollTimedOut st).
Proof.
  unfold pollf. rewrite poll_loop_unfold_eq. unfold poll_loop_unfold.
  destruct (Z_lt_dec now (secs MAX_WAIT_TIME)) as [Hlt|Hge];
    destruct (Z.ltb_spec now (secs MAX_WAIT_TIME)) as [Hlt'|Hge'];
    try lia; [|reflexivity].
  cbn [poll_loop_unfold_clause_1]. unfold turn.
  destruct (status_get (status_gets st)) as [latency resp].
  cbn [poll_loop_unfold_clause_1_clause_2 fst snd].
  destruct (poll_turn image json_loads image_open url_get resp st)
    as [st1 [e|[r|]]]; reflexivity.
Qed.

Lemma status_view_inv (resp : http_outcome) (data status : value) :
  status_view json_loads resp = Some (data, status) ->
  exists text body,
    resp = HttpResponse 200 text
    /\ json_loads text = Some body
    /\ get_default body "data" (VDict []) = inr data
    /\ get data "status" = inr status.
Proof.
  unfold status_view. destruct resp as [|code text]; [discriminate|].
  destruct (Z.eqb_spec code 200) as [->|]; [|discriminate].
  destruct (json_loads text) as [body|] eqn:Hb; [|discriminate].
  destruct (get_default body "data" (VDict [])) as [e|d] eqn:Hd;
    [discriminate|].
  destruct (get d "status") as [e|s] eqn:Hs; [discriminate|].
  intros [= -> ->]. exists text, body. repeat split; assumption.
Qed.

Ltac open_turn H :=
  apply status_view_inv in H;
  destruct H as (?text & ?body & -> & ?Hbody & ?Hdata & ?Hstatus);
  unfold turn, poll_turn, bind, lift, modify, ret, raise, Provider.loads,
    WebSocket.loads;
  cbn [Z.eqb Pos.eqb negb];
  rewrite ?Hbody, ?Hdata, ?Hstatus.

(** A turn on a status that is neither [done] nor [error] falls through
    to the sleep. *)
Lemma turn_waiting (resp : http_outcome) (data status : value)
    (st : polling) :
  status_view json_loads resp = Some (data, status) ->
  eq_str status "done" = false ->
  eq_str status "error" = false ->
  turn resp st = (note_status_get st, inr None).
Proof. intros H Hd He. open_turn H. rewrite Hd, He. reflexivity. Qed.

(** A turn on the status [error] returns [None]. *)
Lemma turn_error (resp : http_outcome) (data : value) (st : polling) :
  status_view json_loads resp = Some (data, VStr "error") ->
  turn resp st
  = (poll_logger (LogJobFailed data) (note_status_get st), inr (Some None)).
Proof. intros H. open_turn H. reflexivity. Qed.

(** A turn on the status [done] whose result URL is served returns the
    image. *)
Lemma turn_done (resp : http_outcome) (data url : value) (content : string)
    (img : image) (st : polling) :
  status_view json_loads resp = Some (data, VStr "done") ->
  get data "result_url" = inr url ->
  truthy url = true ->
  url_get url = HttpResponse 200 content ->
  image_open content = Some img ->
  turn resp st
  = (note_poll_fetch url (note_status_get st), inr (Some (Some img))).
Proof.
  intros H Hu Ht Hg Hi. open_turn H. cbn [eq_str String.eqb Ascii.eqb Bool.eqb].
  rewrite Hu, Ht. cbn [negb]. rewrite Hg. cbn [Z.eqb Pos.eqb negb].
  unfold open_image. rewrite Hi. reflexivity.
Qed.

(** A turn on a response whose status code is not 200 returns [None]. *)
Lemma turn_refused (status_code : Z) (text : string) (st : polling) :
  status_code <> 200 ->
  turn (HttpResponse status_code text) st
  = (poll_logger (LogStatusError status_code text) (note_status_get st),
     inr (Some None)).
Proof.
  intros Hc. unfold turn, poll_turn, bind, modify, ret.
  apply Z.eqb_neq in Hc. rewrite Hc. reflexivity.
Qed.

Lemma pending_waiting (resp : http_outcome) (st : polling) :
  pending json_loads resp -> turn resp st = (note_status_get st, inr None).
Proof. intros [data H]. eapply turn_waiting; [exact H| |]; reflexivity. Qed.

(** With nothing but [pending] the loop ends by the clock. *)
Lemma poll_pending_times_out (n : nat) (now : Z) (st : polling) :
  (forall k, pending json_loads (snd (status_get k))) ->
  (Z.to_nat (secs MAX_WAIT_TIME - now) <= n)%nat ->
  poll_result (pollf now st) = inr None
  /\ hd_error (poll_log (poll_did (pollf now st))) = Some LogPollTimedOut
  /\ secs MAX_WAIT_TIME <= poll_elapsed (pollf now st)
  /\ poll_fetched (poll_did (pollf now st)) = poll_fetched st
  /\ (status_gets (poll_did (pollf now st)) + sleeps st
      = sleeps (poll_did (pollf now st)) + status_gets st)%nat.
Proof.
  intros Hp. revert now st. induction n as [|n IH]; intros now st Hn;
    rewrite poll_loop_step;
    destruct (Z.ltb_spec now (secs MAX_WAIT_TIME)) as [Hlt|Hge];
    try lia;
    try (cbn [poll_result poll_did poll_elapsed poll_logger poll_log
              poll_fetched status_gets sleeps hd_error];
         repeat split; lia).
  rewrite (pending_waiting _ st (Hp (status_gets st))).
  pose proof (N2Z.is_nonneg (fst (status_get (status_gets st)))) as Hl.
  assert (Hi : 0 < secs POLL_INTERVAL) by reflexivity.
  destruct (IH (now + Z.of_N (fst (status_get (status_gets st)))
                + secs POLL_INTERVAL) (note_sleep (note_status_get st)))
    as (H1 & H2 & H3 & H4 & H5); [lia|].
  repeat split; try assumption.
  cbn [note_sleep note_status_get status_gets sleeps] in H5. lia.
Qed.

(** C5: with [pending] on three turns and [done] with a result URL on the
    fourth, the polling returns the image fetched from the URL of the
    fourth turn after four status requests and three sleeps of the fixed
    interval; on [error] it returns [None] in that turn, with the failure
    of the job logged, no sleep and no further request; and with nothing
    but [pending] it returns [None] once the clock has passed
    [MAX_WAIT_TIME], with the timeout logged. *)
Theorem polling_protocol (request_id : value) :
  (forall r0 r1 r2 r3 data url content img,
      pending json_loads r0 -> pending json_loads r1 ->
      pending json_loads r2 ->
      snd (status_get 0) = r0 -> snd (status_get 1) = r1 ->
      snd (status_get 2) = r2 -> snd (status_get 3) = r3 ->
      status_view json_loads r3 = Some (data, VStr "done") ->
      get data "result_url" = inr url ->
      truthy url = true ->
      url_get url = HttpResponse 200 content ->
      image_open content = Some img ->
      Z.of_N (fst (status_get 0)) + Z.of_N (fst (status_get 1))
      + Z.of_N (fst (status_get 2)) + 3 * secs POLL_INTERVAL
      < secs MAX_WAIT_TIME ->
      poll_for_result request_id
      = mkPolled (inr (Some img))
          (Z.of_N (fst (status_get 0)) + secs POLL_INTERVAL
           + Z.of_N (fst (status_get 1)) + secs POLL_INTERVAL
           + Z.of_N (fst (status_get 2)) + secs POLL_INTERVAL
           + Z.of_N (fst (status_get 3)))
          (mkPolling 4 3 [url] [LogPolling request_id]))
  /\ (forall now st data,
         now < secs MAX_WAIT_TIME ->
         status_view json_loads (snd (status_get (status_gets st)))
         = Some (data, VStr "error") ->
         pollf now st
         = mkPolled (inr None)
             (now + Z.of_N (fst (status_get (status_gets st))))
             (poll_logger (LogJobFailed data) (note_status_get st)))
  /\ ((forall k, pending json_loads (snd (status_get k))) ->
      poll_result (poll_for_result request_id) = inr None
      /\ hd_error (poll_log (poll_did (poll_for_result request_id)))
         = Some LogPollTimedOut
      /\ secs MAX_WAIT_TIME <= poll_elapsed (poll_for_result request_id)
      /\ poll_fetched (poll_did (poll_for_result request_id)) = []
      /\ status_gets (poll_did (poll_for_result request_id))
         = sleeps (poll_did (poll_for_result request_id))).
Proof.
  split; [|split].
  - intros r0 r1 r2 r3 data url content img P0 P1 P2 E0 E1 E2 E3 Hv Hu Ht Hg Hi
      Hclock.
    pose proof (N2Z.is_nonneg (fst (status_get 0))) as L0.
    pose proof (N2Z.is_nonneg (fst (status_get 1))) as L1.
    pose proof (N2Z.is_nonneg (fst (status_get 2))) as L2.
    assert (Hi2 : 0 < secs POLL_INTERVAL) by reflexivity.
    unfold poll_for_result, _poll_for_result. fold pollf.
    rewrite poll_loop_step.
    destruct (Z.ltb_spec 0 (secs MAX_WAIT_TIME)) as [_|Hge]; [|lia].
    cbn [poll_start status_gets]. rewrite E0, (pending_waiting _ _ P0).
    rewrite poll_loop_step.
    destruct (Z.ltb_spec (0 + Z.of_N (fst (status_get 0))
                          + secs POLL_INTERVAL) (secs MAX_WAIT_TIME))
      as [_|Hge]; [|lia].
    cbn [note_sleep note_status_get status_gets poll_start].
    rewrite E1, (pending_waiting _ _ P1).
    rewrite poll_loop_step.
    destruct (Z.ltb_spec (0 + Z.of_N (fst (status_get 0))
                          + secs POLL_INTERVAL
                          + Z.of_N (fst (status_get 1))
                          + secs POLL_INTERVAL) (secs MAX_WAIT_TIME))
      as [_|Hge]; [|lia].
    cbn [note_sleep note_status_get status_gets poll_start].
    rewrite E2, (pending_waiting _ _ P2).
    rewrite poll_loop_step.
    destruct (Z.ltb_spec (0 + Z.of_N (fst (status_get 0))
                          + secs POLL_INTERVAL
                          + Z.of_N (fst (status_get 1))
                          + secs POLL_INTERVAL
                          + Z.of_N (fst (status_get 2))
                          + secs POLL_INTERVAL) (secs MAX_WAIT_TIME))
      as [_|Hge]; [|lia].
    cbn [note_sleep note_status_get status_gets poll_start].
    rewrite E3, (turn_done _ _ _ _ _ _ Hv Hu Ht Hg Hi). reflexivity.
  - intros now st data Hnow Hv. rewrite poll_loop_step.
    destruct (Z.ltb_spec now (secs MAX_WAIT_TIME)) as [_|Hge]; [|lia].
    rewrite (turn_error _ _ _ Hv). reflexivity.
  - intros Hp.
    destruct (poll_pending_times_out
                (Z.to_nat (secs MAX_WAIT_TIME - 0)) 0
                (poll_start request_id) Hp (Nat.le_refl _))
      as (H1 & H2 & H3 & H4 & H5).
    unfold poll_for_result, _poll_for_result. fold pollf.
    repeat split; try assumption.
    cbn [poll_start status_gets sleeps] in H5. lia.
Qed.

(** C7: a response to the status request whose status code is outside
    200..299 ends the polling in that turn: [_poll_for_result] returns
    [None] with the refusal logged, without a sleep and without another
    request, and [to_illustration] gets that [None]. *)
Theorem non_2xx_status_is_fatal (now : Z) (st : polling) (status_code : Z)
    (text : string) (request_id : value) (tr : trace image) :
  now < secs MAX_WAIT_TIME ->
  snd (status_get (status_gets st)) = HttpResponse status_code text ->
  status_code < 200 \/ 299 < status_code ->
  pollf now st
  = mkPolled (inr None)
      (now + Z.of_N (fst (status_get (status_gets st))))
      (poll_logger (LogStatusError status_code text) (note_status_get st))
  /\ snd (poll image json_loads image_open url_get status_get request_id tr)
     = poll_result (poll_for_result request_id).
Proof.
  intros Hnow Hr Hc. split; [|reflexivity]. rewrite poll_loop_step.
  destruct (Z.ltb_spec now (secs MAX_WAIT_TIME)) as [_|Hge]; [|lia].
  rewrite Hr, turn_refused by lia. reflexivity.
Qed.

Let wait (self : provider) (request_id : value) : run :=
  wait_for_result json_loads auth_post request_id (api_key self)
    (client_id self) MAX_WAIT_TIME script.
Let illustrate :=
  to_illustration image json_loads png_save image_open submit_post auth_post
    script url_get status_get.
Let resolvef :=
  resolve image json_loads image_open auth_post script url_get status_get.

(** The image that [to_illustration] returns for what the polling came
    to: an exception of the polling ends in the [except]. *)
Let polled_image (p : polled image) : option image :=
  match poll_result p with
  | inr out_img => out_img
  | inl _ => None
  end.

(** A submitted job is resolved with its request id. *)
Lemma to_illustration_submitted (self : provider) (img : image)
    (prompt : option string) (is_person : bool) (png : string)
    (request_id : value) :
  PyStr.truthy (api_key self) = true ->
  png_save img = Some png ->
  submits json_loads
    (submit_post (api_key self)
       (PyStr.opt_or_else prompt (Prompts.get_illustration_prompt is_person))
       (model self) png) request_id ->
  illustrate self img prompt is_person
  = finish (resolvef self request_id no_trace).
Proof.
  intros Hkey Hpng (text & result & data & Hresp & Hres & Hdata & Hrid & Ht).
  unfold illustrate, to_illustration. rewrite Hkey. cbn [negb].
  unfold to_illustration_try, bind, lift. rewrite Hpng, Hresp.
  unfold await, bind, lift, Provider.loads, WebSocket.loads.
  cbn [Z.eqb Pos.eqb negb]. rewrite Hres, Hdata, Hrid, Ht. reflexivity.
Qed.

Lemma verdict_done (r : run) (payload : value) :
  verdict_of r = Done payload -> returned r = payload.
Proof.
  unfold verdict_of. destruct (woke r) as [t [|m|e|]|]; try discriminate.
  destruct (returned r); try discriminate; intros [= <-]; reflexivity.
Qed.

Lemma truthy_of_field (payload url : value) (k : string) :
  get payload k = inr url -> truthy url = true -> truthy payload = true.
Proof.
  destruct payload as [| | | | |kv]; try discriminate.
  destruct kv; [|reflexivity]. cbn. intros [= <-]. discriminate.
Qed.


(** With a result whose URL is served the image is the one fetched, and
    there is no polling. *)
Lemma resolve_delivered (self : provider) (request_id : value)
    (tr : trace image) (payload url : value) (content : string) (im : image) :
  PyStr.truthy (client_id self) = true ->
  returned (wait self request_id) = payload ->
  get payload "result_url" = inr url ->
  truthy url = true ->
  url_get url = HttpResponse 200 content ->
  image_open content = Some im ->
  finish (resolvef self request_id tr)
  = mkOutcome (Some im)
      (Provider.logger LogGenerated
         (note_fetch url
            (note_ws (wait self request_id)
               (Provider.logger (LogWaitingWebSocket request_id) tr)))).
Proof.
  intros Hc Hr Hu Ht Hg Hi.
  pose proof (truthy_of_field _ _ _ Hu Ht) as Hp.
  unfold resolvef, resolve, websocket_path. fold (wait self request_id).
  unfold bind, modify, lift, ret, when. rewrite Hc, Hr, Hp, Hu, Ht, Hg.
  cbn [Z.eqb Pos.eqb]. unfold open_image. rewrite Hi. reflexivity.
Qed.

(** With a result that has no URL, or whose URL is not served with
    status 200, the polling runs. *)
Lemma resolve_undelivered (self : provider) (request_id : value)
    (tr : trace image) (payload url : value) :
  PyStr.truthy (client_id self) = true ->
  returned (wait self request_id) = payload ->
  get payload "result_url" = inr url ->
  truthy url = false
  \/ (exists status_code content,
         url_get url = HttpResponse status_code content
         /\ status_code <> 200) ->
  let o := finish (resolvef self request_id tr) in
  poll_run (did o) = Some (poll_for_result request_id)
  /\ illustration o = polled_image (poll_for_result request_id).
Proof.
  intros Hc Hr Hu Hcase.
  unfold resolvef, resolve, websocket_path. fold (wait self request_id).
  unfold bind, modify, lift, ret, when, poll. rewrite Hc, Hr.
  fold poll_for_result. unfold polled_image.
  destruct Hcase as [Hf|(code & content & Hg & Hcode)].
  - destruct (truthy payload) eqn:Hp; rewrite ?Hu, ?Hf, ?Hp;
      destruct (poll_result (poll_for_result request_id)) as [e|[im|]];
      cbn; repeat split.
  - destruct (truthy url) eqn:Ht.
    + rewrite (truthy_of_field _ _ _ Hu Ht), Hu, Ht, Hg.
      apply Z.eqb_neq in Hcode. rewrite Hcode.
      destruct (poll_result (poll_for_result request_id)) as [e|[im|]];
        cbn; repeat split.
    + destruct (truthy payload) eqn:Hp; rewrite ?Hu, ?Ht, ?Hp;
        destruct (poll_result (poll_for_result request_id)) as [e|[im|]];
        cbn; repeat split.
Qed.


End ProviderFacts.

(** ** Concrete runs *)

Section Runs.
Import Py Net WebSocket Provider Protocol JsonText Examples.
Local Open Scope Z_scope.

Let rid : value := VStr "r-1".

Let illustrate_with auth script status :=
  to_illustration string loads png_bytes image_of_bytes submit_accepted auth
    script cdn status self "photo" None true.

Ltac by_running := vm_compute; reflexivity.

Ltac all_steps :=
  repeat (apply Forall_cons; [by_running|]); apply Forall_nil.

Lemma job_is_submitted :
  submits loads
    (submit_accepted (api_key self)
       (PyStr.opt_or_else None (Prompts.get_illustration_prompt true))
       (model self) "photo") rid.
Proof.
  exists (dumps (VDict [("data", VDict [("request_id", rid)])])),
    (VDict [("data", VDict [("request_id", rid)])]),
    (VDict [("request_id", rid)]).
  repeat split; by_running.
Qed.

(** The frames of the examples decode to what they were built from, and
    the two malformed texts do not. *)
Example frames_decode :
  payload_of loads done_r1 = Some payload_done_r1
  /\ payload_of loads error_r1 = Some payload_error_r1
  /\ handshake_of loads handshake
     = Some (VDict [("socket_id", VStr "1234.5678");
                    ("activity_timeout", VInt 30)])
  /\ loads garbage = None
  /\ payload_of loads bad_data = None.
Proof. repeat split; by_running. Qed.

(** The theorem of C9 on a name with forbidden characters and on names
    that come down to nothing. *)
Lemma sanitize_filename_safe_witness :
  ImageAlbum._sanitize_filename (Some " a/b:c ") <> ""
  /\ ImageAlbum._sanitize_filename (Some " ?*| ") = "unknown"
  /\ ImageAlbum._sanitize_filename None = "unknown".
Proof.
  split; [exact (proj1 (sanitize_filename_safe (Some " a/b:c ")))|].
  split.
  - exact (proj2 (proj2 (sanitize_filename_safe (Some " ?*| "))) eq_refl).
  - exact (proj2 (proj2 (sanitize_filename_safe None)) eq_refl).
Defined.

(** The theorem of C4 on [script_done]. *)
Lemma done_event_resolves_witness :
  verdict_of (wait_for_result loads auth_granted rid "token-1" "client-7"
                300 script_done)
  = Done payload_done_r1
  /\ get (returned (wait_for_result loads auth_granted rid "token-1"
                      "client-7" 300 script_done)) "result_url"
     = inr url_r1.
Proof.
  destruct (done_event_resolves loads auth_granted rid "token-1" "client-7"
              300 2500 before_done [(2600, OnClose)] done_r1
              payload_done_r1 url_r1) as (H1 & _ & H3 & _);
    [all_steps|by_running..|].
  split; [exact H1|exact H3].
Defined.

(** The theorem of corrected C6 on [script_greeted] with the
    authentication refused, and on a thread that registers after the
    timeout. *)
Lemma deadline_closes_registered_connection_witness :
  returned (wait_for_result loads auth_refused rid "token-1" "client-7"
              300 script_greeted) = VNone
  /\ hd_error (closes (final (wait_for_result loads auth_refused rid
                                "token-1" "client-7" 300 script_greeted)))
     = Some ByOwner
  /\ final (wait_for_result loads auth_granted rid "token-1" "client-7" 300
              script_late) = initial
  /\ ws_ref (settled loads auth_granted rid "token-1" "client-7" 300
               script_late) = true.
Proof.
  destruct (deadline_closes_registered_connection loads auth_refused rid
              "token-1" "client-7" 300 script_greeted)
    as (H1 & _ & _ & _ & _ & H6 & _); [by_running|].
  destruct (deadline_closes_registered_connection loads auth_granted rid
              "token-1" "client-7" 300 script_late)
    as (_ & _ & _ & _ & _ & _ & H7); [by_running|].
  destruct (H7 300200 [(300600, OnMessage handshake)] eq_refl)
    as (Hfin & Href & _); [reflexivity|].
  split; [exact H1|].
  split; [apply (H6 0 [(400, OnMessage handshake)] eq_refl); discriminate|].
  split; [exact Hfin|exact Href].
Defined.

(** C6 as stated fails: the socket thread registers its app 200 ms after
    the timeout has run out.  [wait_for_result] finds [ws_ref] empty and
    returns without a call of [close]; the thread then opens the
    connection, is greeted and subscribes, and nobody closes it. *)
Lemma late_connection_is_left_open :
  woke (wait_for_result loads auth_granted rid "token-1" "client-7" 300
          script_late) = Expired
  /\ returned (wait_for_result loads auth_granted rid "token-1" "client-7"
                 300 script_late) = VNone
  /\ closes (final (wait_for_result loads auth_granted rid "token-1"
                      "client-7" 300 script_late)) = []
  /\ ws_ref (settled loads auth_granted rid "token-1" "client-7" 300
               script_late) = true
  /\ length (sent (settled loads auth_granted rid "token-1" "client-7" 300
                     script_late)) = 1%nat
  /\ closes (settled loads auth_granted rid "token-1" "client-7" 300
               script_late) = [].
Proof. repeat split; by_running. Qed.

(** The theorem of C10 on a text that is no JSON and on a status update
    whose [data] is no JSON. *)
Lemma malformed_message_ignored_witness :
  done (on_message loads auth_granted rid "token-1" "client-7" garbage
          initial) = false
  /\ result_holder (on_message loads auth_granted rid "token-1" "client-7"
                      bad_data initial) = VNone.
Proof.
  split.
  - apply (malformed_message_ignored loads auth_granted rid "token-1"
             "client-7" garbage initial).
    left. by_running.
  - apply (malformed_message_ignored loads auth_granted rid "token-1"
             "client-7" bad_data initial).
    right.
    exists (VDict [("event", VStr "request.status.updated");
                   ("data", VStr "{oops")]),
      (VStr "request.status.updated"), (VStr "{oops"), JSONDecodeError.
    repeat split; by_running.
Defined.

(** The theorem of C8 on two scripts with different reports of
    progress. *)
Lemma progress_is_informational_witness :
  verdict_of (wait_for_result loads auth_granted rid "token-1" "client-7"
                300 (script_progress 35 70))
  = verdict_of (wait_for_result loads auth_granted rid "token-1" "client-7"
                  300 (script_progress 40 90)).
Proof.
  apply (progress_is_informational loads auth_granted rid "token-1"
           "client-7" 300 (script_progress 35 70) (script_progress 40 90)).
  assert (Hv : forall a b,
             payload_of loads (processing_r1 a)
             = Some (VDict [("request_id", rid);
                            ("status", VStr "processing");
                            ("progress", VInt a)]) ->
             payload_of loads (processing_r1 b)
             = Some (VDict [("request_id", rid);
                            ("status", VStr "processing");
                            ("progress", VInt b)]) ->
             progress_variant loads (processing_r1 a) (processing_r1 b)).
  { intros a b Ha Hb.
    exists [("request_id", rid); ("status", VStr "processing");
            ("progress", VInt a)],
      [("request_id", rid); ("status", VStr "processing");
       ("progress", VInt b)].
    split; [exact Ha|split; [exact Hb|split; reflexivity]]. }
  unfold script_progress.
  do 2 (apply Forall2_cons; [split; [reflexivity|left; reflexivity]|]).
  apply Forall2_cons;
    [split; cbn [fst snd]; [reflexivity|right];
     exists (processing_r1 35), (processing_r1 40);
     split; [reflexivity|split; [reflexivity|apply Hv; by_running]]|].
  apply Forall2_cons;
    [split; cbn [fst snd]; [reflexivity|right];
     exists (processing_r1 70), (processing_r1 90);
     split; [reflexivity|split; [reflexivity|apply Hv; by_running]]|].
  apply Forall2_cons; [split; [reflexivity|left; reflexivity]|].
  apply Forall2_nil.
Defined.

(** The theorem of corrected C2 on [script_greeted] with the
    authentication refused. *)
Lemma auth_refusal_waits_for_deadline_witness :
  woke (wait_for_result loads auth_refused rid "token-1" "client-7" 300
          script_greeted) = Expired
  /\ returned_at (wait_for_result loads auth_refused rid "token-1"
                    "client-7" 300 script_greeted) = 300000.
Proof.
  destruct (auth_refusal_waits_for_deadline loads auth_refused rid "token-1"
              "client-7" 300 400 [(0, Register)] [] handshake
              (VDict [("socket_id", VStr "1234.5678");
                      ("activity_timeout", VInt 30)])
              (VStr "1234.5678") 403 "Forbidden")
    as (_ & H1 & _ & H3 & _);
    [all_steps|apply Forall_nil|by_running..|discriminate|].
  split; [exact H1|exact H3].
Defined.

(** C2 as stated fails: the thread is greeted 400 ms after the wait
    began and the authentication is refused with status 403; the handler
    only logs the refusal, [done] stays unset, and [wait_for_result]
    comes back when the 300 s of the timeout are over, not within the
    authentication exchange. *)
Lemma auth_refusal_is_not_reported_at_once :
  done (on_message loads auth_refused rid "token-1" "client-7" handshake
          (set_ws_ref initial)) = false
  /\ WebSocket.log (on_message loads auth_refused rid "token-1" "client-7"
                      handshake (set_ws_ref initial))
     = [LogAuthFailed 403 "Forbidden"]
  /\ woke (wait_for_result loads auth_refused rid "token-1" "client-7" 300
             script_greeted) = Expired
  /\ returned_at (wait_for_result loads auth_refused rid "token-1"
                    "client-7" 300 script_greeted) = 300000.
Proof. repeat split; by_running. Qed.

(** The theorem of C5 on [done_on_fourth], [error_at_once] and
    [always_pending]. *)
Lemma polling_protocol_witness :
  _poll_for_result string loads image_of_bytes cdn done_on_fourth rid
  = mkPolled (inr (Some "PNG r-1")) 6600
      (mkPolling 4 3 [url_r1] [LogPolling rid])
  /\ poll_loop string loads image_of_bytes cdn error_at_once 0
       (poll_start rid)
     = mkPolled (inr None) 150
         (mkPolling 1 0 []
            [LogJobFailed (VDict [("status", VStr "error")]);
             LogPolling rid])
  /\ poll_result
       (_poll_for_result string loads image_of_bytes cdn always_pending rid)
     = inr None.
Proof.
  split; [|split].
  - refine (proj1 (polling_protocol string loads image_of_bytes cdn
                     done_on_fourth rid)
              _ _ _ _ (VDict [("status", VStr "done"); ("result_url", url_r1)])
              url_r1 "PNG r-1" "PNG r-1"
              _ _ _ eq_refl eq_refl eq_refl eq_refl _ _ _ _ _ _);
      try by_running;
      exists (VDict [("status", VStr "pending"); ("progress", VInt 40)]);
      by_running.
  - refine (proj1 (proj2 (polling_protocol string loads image_of_bytes cdn
                            error_at_once rid))
              0 (poll_start rid) (VDict [("status", VStr "error")]) _ _);
      by_running.
  - refine (proj1 (proj2 (proj2 (polling_protocol string loads
                                   image_of_bytes cdn always_pending rid))
                     _)).
    intros k. exists (VDict [("status", VStr "pending")]). by_running.
Defined.

(** The theorem of C7 on a first status request answered with 503. *)
Lemma non_2xx_status_is_fatal_witness :
  poll_loop string loads image_of_bytes cdn unavailable_at_once 0
    (poll_start rid)
  = mkPolled (inr None) 150
      (mkPolling 1 0 []
         [LogStatusError 503 "Service Unavailable"; LogPolling rid]).
Proof.
  refine (proj1 (non_2xx_status_is_fatal string loads image_of_bytes cdn
                   unavailable_at_once 0 (poll_start rid) 503
                   "Service Unavailable" rid no_trace _ _ _)).
  - reflexivity.
  - reflexivity.
  - right. reflexivity.
Defined.

(** C1 as stated fails: the thread is greeted, the authentication is
    refused and nothing else comes, so the listener resolves to
    [TimedOut], a terminal result; [to_illustration] then calls
    [_poll_for_result], which makes four status requests and returns the
    image. *)
Lemma polling_after_listener_timed_out :
  verdict_of (wait_for_result loads auth_refused rid (api_key self)
                (client_id self) MAX_WAIT_TIME script_greeted)
  = TimedOut
  /\ ws_run (did (illustrate_with auth_refused script_greeted
                    done_on_fourth))
     = Some (wait_for_result loads auth_refused rid (api_key self)
               (client_id self) MAX_WAIT_TIME script_greeted)
  /\ poll_run (did (illustrate_with auth_refused script_greeted
                      done_on_fourth))
     = Some (mkPolled (inr (Some "PNG r-1")) 6600
               (mkPolling 4 3 [url_r1] [LogPolling rid]))
  /\ illustration (illustrate_with auth_refused script_greeted
                      done_on_fourth)
     = Some "PNG r-1".
Proof. repeat split; by_running. Qed.



End Runs.

(** * Further properties of the listener *)

Section ListenerMore.
Import Py Net Eff WebSocket Protocol Observations.

Variable json_loads : string -> option value.
Variable auth_post : string -> value -> string -> http_outcome.
Variable request_id : value.
Variables api_token client_id : string.

Let on_msg := on_message json_loads auth_post request_id api_token client_id.
Let stepf := step json_loads auth_post request_id api_token client_id.
Let pumpf := pump json_loads auth_post request_id api_token client_id.
Let racef := race json_loads auth_post request_id api_token client_id.
Let left_overf :=
  left_over json_loads auth_post request_id api_token client_id.
Let waitf :=
  wait_for_result json_loads auth_post request_id api_token client_id.

(** What a step does to a listener that still waits with nothing stored
    and nothing closed: it leaves it so, or it is the [done] of the awaited
    job and stores its payload, or it wakes the caller with nothing
    stored; only a message closes the connection. *)
Lemma waiting_step (s : thread_step) (st : listener) :
  result_holder st = VNone ->
  closes st = [] ->
  (done (stepf s st) = done st
   /\ result_holder (stepf s st) = VNone /\ closes (stepf s st) = [])
  \/ (exists message payload,
        s = OnMessage message
        /\ payload_of json_loads message = Some payload
        /\ awaited request_id payload = true
        /\ status_is payload "done" = true
        /\ done (stepf s st) = true
        /\ result_holder (stepf s st) = payload
        /\ closes (stepf s st) = [ByHandler])
  \/ (exists message,
        s = OnMessage message
        /\ done (stepf s st) = true
        /\ result_holder (stepf s st) = VNone
        /\ closes (stepf s st) = [ByHandler])
  \/ ((forall message, s <> OnMessage message)
      /\ done (stepf s st) = true
      /\ result_holder (stepf s st) = VNone /\ closes (stepf s st) = []).
Proof.
  intros Hr Hc. destruct s as [|message|error|]; cbn [stepf step].
  - left. repeat split; assumption.
  - destruct (message_cases json_loads request_id message)
      as [Hq|(p & Hp & Ha & [Hs|Hs])].
    + left.
      pose proof (quiet_on_message json_loads auth_post request_id api_token
                    client_id message st Hq) as H.
      unfold shared in H. injection H as H1 H2 _ H4.
      repeat split; congruence.
    + right. left. exists message, p.
      rewrite (on_message_done json_loads auth_post request_id api_token
                 client_id _ _ st Hp Ha Hs).
      unfold log_progress. destruct (truthy _); cbn; rewrite Hc;
        repeat split; assumption.
    + right. right. left. exists message.
      rewrite (on_message_error json_loads auth_post request_id api_token
                 client_id _ _ st Hp Ha Hs).
      unfold log_progress. destruct (truthy _); cbn; rewrite Hc, Hr;
        repeat split.
  - right. right. right. cbn. repeat split; try assumption. discriminate.
  - right. right. right. cbn. repeat split; try assumption. discriminate.
Qed.

(** How a wait that starts with nothing stored and nothing closed
    ends. *)
Lemma pump_outcome (timeout : Z) (script : list (Z * thread_step))
    (st : listener) :
  done st = false ->
  result_holder st = VNone ->
  closes st = [] ->
  match snd (pumpf timeout script st) with
  | Expired =>
      done (fst (pumpf timeout script st)) = false
      /\ result_holder (fst (pumpf timeout script st)) = VNone
      /\ closes (fst (pumpf timeout script st)) = []
  | Signalled t (OnMessage message) =>
      In (t, OnMessage message) script
      /\ (t < secs timeout)%Z
      /\ closes (fst (pumpf timeout script st)) = [ByHandler]
      /\ (result_holder (fst (pumpf timeout script st)) = VNone
          \/ (payload_of json_loads message
               = Some (result_holder (fst (pumpf timeout script st)))
              /\ awaited request_id
                   (result_holder (fst (pumpf timeout script st))) = true
              /\ status_is (result_holder (fst (pumpf timeout script st)))
                   "done" = true))
  | Signalled t s =>
      In (t, s) script
      /\ (t < secs timeout)%Z
      /\ result_holder (fst (pumpf timeout script st)) = VNone
      /\ closes (fst (pumpf timeout script st)) = []
  end.
Proof.
  revert st. induction script as [|[t s] rest IH]; intros st Hd Hr Hc.
  - cbn. repeat split; assumption.
  - unfold pumpf. rewrite pump_cons. fold pumpf. fold stepf.
    destruct (Z.leb_spec (secs timeout) t) as [Hle|Hlt];
      [cbn; repeat split; assumption|].
    destruct (waiting_step s st Hr Hc)
      as [(H1 & H2 & H3)
         |[(m & p & -> & Hp & Ha & Hs & H1 & H2 & H3)
          |[(m & -> & H1 & H2 & H3)|(Hs & H1 & H2 & H3)]]];
      rewrite H1.
    + rewrite Hd. specialize (IH (stepf s st)).
      rewrite H1 in IH. specialize (IH Hd H2 H3).
      destruct (snd (pumpf timeout rest (stepf s st))) as [t' [|m'|e'|]|];
        try (destruct IH as (Hin & IH); split; [right; exact Hin|exact IH]);
        exact IH.
    + cbn [fst snd]. split; [left; reflexivity|]. split; [exact Hlt|].
      split; [exact H3|]. right. rewrite H2. repeat split; assumption.
    + cbn [fst snd]. split; [left; reflexivity|]. split; [exact Hlt|].
      split; [exact H3|]. left. exact H2.
    + cbn [fst snd]. destruct s as [|m|e|];
        try (exfalso; exact (Hs m eq_refl));
        (split; [left; reflexivity|]); repeat split; assumption.
Qed.

(** What [wait_for_result] returns is [None], or the payload of a [done]
    of the awaited job, and then the run reads as [Done]. *)
Lemma returned_cases (timeout : Z) (script : list (Z * thread_step)) :
  (returned (waitf timeout script) = VNone
   /\ forall payload, verdict_of (waitf timeout script) <> Done payload)
  \/ (verdict_of (waitf timeout script) = Done (returned (waitf timeout script))
      /\ awaited request_id (returned (waitf timeout script)) = true
      /\ status_is (returned (waitf timeout script)) "done" = true).
Proof.
  unfold verdict_of, waitf, wait_for_result. fold pumpf.
  pose proof (pump_outcome timeout script initial eq_refl eq_refl eq_refl)
    as H.
  destruct (pumpf timeout script initial) as [st [t s|]];
    cbn [fst snd returned woke] in *; [|left; split; [reflexivity|discriminate]].
  destruct s as [|message|error|];
    try (destruct H as (_ & _ & H & _); left; split; [exact H|discriminate]).
  destruct H as (_ & _ & _ & [H|(_ & Ha & Hs)]).
  - left. rewrite H. split; [reflexivity|discriminate].
  - right. split; [|split; assumption].
    destruct (result_holder st); try reflexivity.
    discriminate Hs.
Qed.

(** X1: whatever the socket thread does, a result that
    [wait_for_result] returns is the payload of a status update that the
    thread received before the timeout, that carries the awaited request
    id and whose status is [done]: never the payload of another job, of an
    [error] or of a report of progress. *)
Theorem returned_payload_is_awaited_done (timeout : Z)
    (script : list (Z * thread_step)) :
  returned (waitf timeout script) <> VNone ->
  exists t message,
    In (t, OnMessage message) script
    /\ (t < secs timeout)%Z
    /\ woke (waitf timeout script) = Signalled t (OnMessage message)
    /\ payload_of json_loads message = Some (returned (waitf timeout script))
    /\ awaited request_id (returned (waitf timeout script)) = true
    /\ status_is (returned (waitf timeout script)) "done" = true.
Proof.
  unfold waitf, wait_for_result. fold pumpf.
  pose proof (pump_outcome timeout script initial eq_refl eq_refl eq_refl)
    as H.
  destruct (pumpf timeout script initial) as [st [t s|]];
    cbn [fst snd returned woke] in *; [|intros Hn; exfalso; exact (Hn eq_refl)].
  intros Hn. destruct s as [|message|error|];
    try (destruct H as (_ & _ & H & _); contradiction).
  destruct H as (Hin & Ht & _ & [H|(Hp & Ha & Hs)]); [contradiction|].
  exists t, message. repeat split; assumption.
Qed.




(** X3: a socket error or a close of the socket that comes before the
    timeout, after steps that wake nobody, ends the wait at that moment:
    [wait_for_result] returns [None], which reads as [Unavailable], and
    nobody calls [close] on the connection. *)
Theorem socket_failure_ends_wait (timeout t : Z)
    (pre post : list (Z * thread_step)) (s : thread_step) :
  Forall (fun ts => in_time timeout ts
                    && calm json_loads request_id (snd ts) = true) pre ->
  in_time timeout (t, s) = true ->
  (exists error, s = OnError error) \/ s = OnClose ->
  let r := waitf timeout (pre ++ (t, s) :: post) in
  returned r = VNone
  /\ returned_at r = t
  /\ woke r = Signalled t s
  /\ verdict_of r = Unavailable
  /\ closes (final r) = [].
Proof.
  intros Hpre Ht Hs r.
  destruct (pump_calm_prefix json_loads auth_post request_id api_token
              client_id timeout pre ((t, s) :: post) initial eq_refl Hpre)
    as (E & Hres & _ & Hcl).
  unfold in_time in Ht. cbn [fst] in Ht. apply Z.ltb_lt in Ht.
  assert (Hr : r = mkRun VNone t (Signalled t s)
                 (stepf s (run_steps stepf pre initial))).
  { subst r. unfold waitf, wait_for_result. rewrite E, pump_cons.
    destruct (Z.leb_spec (secs timeout) t) as [Hle|_]; [lia|].
    fold stepf. destruct Hs as [[error ->]| ->]; cbn; unfold stepf;
      rewrite Hres; reflexivity. }
  rewrite Hr. unfold verdict_of. cbn [returned returned_at woke final].
  destruct Hs as [[error ->]| ->]; cbn; unfold stepf; rewrite Hcl;
    repeat split.
Qed.

Let on_try :=
  on_message_try json_loads auth_post request_id api_token client_id.
Let subscribe :=
  _subscribe_private_channel json_loads auth_post api_token client_id.
Let channel := "private-client." ++ client_id.

(** What [_subscribe_private_channel] leaves behind: the exchange, and a
    frame when the exchange was granted and its answer decodes. *)
Lemma subscribe_outbound (socket_id : value) (st : listener) :
  outbound (fst (subscribe socket_id st))
  = (sent st, (socket_id, channel) :: auth_posts st)
  \/ (exists auth,
        granted auth_post api_token (socket_id, channel) = true
        /\ outbound (fst (subscribe socket_id st))
           = (VDict [("event", VStr "pusher:subscribe");
                     ("data", VDict [("channel", VStr channel);
                                     ("auth", auth)])] :: sent st,
              (socket_id, channel) :: auth_posts st)).
Proof.
  unfold subscribe, _subscribe_private_channel, granted, bind, modify, lift,
    raise. fold channel. cbn [fst snd].
  destruct (auth_post api_token socket_id channel) as [|code text];
    [left; reflexivity|].
  destruct (Z.eqb_spec code 200) as [->|Hne]; cbn [negb];
    [|left; reflexivity].
  destruct (loads json_loads (VStr text)) as [e|auth_data];
    [left; reflexivity|].
  destruct (get_default auth_data "auth" (VStr "")) as [e|auth];
    [left; reflexivity|].
  right. exists auth. split; reflexivity.
Qed.

(** A status update sends and posts nothing. *)
Lemma status_update_keeps_outbound (payload : value) :
  keeps outbound (on_status_update request_id payload).
Proof.
  unfold on_status_update.
  apply keeps_bind; [apply keeps_lift|intros rid].
  apply keeps_when.
  apply keeps_bind; [apply keeps_lift|intros status].
  apply keeps_bind; [apply keeps_lift|intros progress].
  apply keeps_bind; [now apply keeps_when, keeps_modify|intros _].
  destruct (eq_str status "done");
    [|destruct (eq_str status "error"); [|apply keeps_ret]];
    (apply keeps_bind; [now apply keeps_modify|intros _]);
    (apply keeps_bind; [now apply keeps_modify|intros _]);
    now apply keeps_modify.
Qed.

(** A message sends and posts nothing, or it is a handshake and does what
    [_subscribe_private_channel] does. *)
Lemma on_message_outbound (message : string) (st : listener) :
  outbound (on_msg message st) = outbound st
  \/ exists socket_id,
       outbound (on_msg message st)
       = outbound (fst (subscribe socket_id st)).
Proof.
  assert (Hm : outbound (on_msg message st)
               = outbound (fst (on_try message st))).
  { unfold on_msg, on_message. fold on_try.
    destruct (on_try message st) as [st' [e|[]]]; reflexivity. }
  rewrite Hm. clear Hm.
  destruct (handshake_of json_loads message) as [conn_data|] eqn:Hh.
  - unfold on_try.
    rewrite (on_try_handshake json_loads auth_post request_id api_token
               client_id _ _ st Hh).
    unfold on_connection_established, bind, lift, when.
    destruct (get conn_data "socket_id") as [e|socket_id];
      [left; reflexivity|].
    destruct (truthy socket_id); [|left; reflexivity].
    right. exists socket_id. reflexivity.
  - left. revert st. change (keeps outbound (on_try message)).
    unfold handshake_of in Hh. unfold on_try, on_message_try.
    apply keeps_bind_lift. intros data Hdata.
    unfold loads in Hdata. destruct (json_loads message) as [data'|];
      [|discriminate Hdata].
    injection Hdata as ->.
    apply keeps_bind_lift. intros event Hevent. rewrite Hevent in Hh.
    destruct (eq_str event "pusher:connection_established").
    + apply keeps_bind_lift. intros raw Hraw. rewrite Hraw in Hh.
      apply keeps_bind_lift. intros conn_data Hconn.
      rewrite Hconn in Hh. discriminate Hh.
    + destruct (eq_str event "request.status.updated"); [|apply keeps_ret].
      apply keeps_bind; [apply keeps_lift|intros raw].
      apply keeps_bind; [apply keeps_lift|intros payload].
      apply status_update_keeps_outbound.
Qed.

Lemma step_outbound (s : thread_step) (st : listener) :
  outbound (stepf s st) = outbound st
  \/ exists socket_id,
       outbound (stepf s st) = outbound (fst (subscribe socket_id st)).
Proof.
  destruct s as [|message|error|]; cbn [stepf step];
    [left; reflexivity|apply on_message_outbound|left; reflexivity
    |left; reflexivity].
Qed.

Lemma step_subscribes_after_auth (s : thread_step) (st : listener) :
  subscribes_after_auth auth_post api_token client_id st ->
  subscribes_after_auth auth_post api_token client_id (stepf s st).
Proof.
  intros (Hf & Hx & Hn). unfold subscribes_after_auth.
  destruct (step_outbound s st) as [E|[socket_id E]].
  - unfold outbound in E. injection E as -> ->. repeat split; assumption.
  - destruct (subscribe_outbound socket_id st) as [E'|(auth & Hg & E')];
      rewrite E' in E; unfold outbound in E; injection E as -> ->.
    + repeat split; [exact Hf|constructor; [reflexivity|exact Hx]|].
      cbn [filter]. destruct (granted _ _ _); cbn [length]; lia.
    + repeat split.
      * constructor; [|exact Hf]. cbn [is_subscribe]. fold channel.
        rewrite !String.eqb_refl. reflexivity.
      * constructor; [reflexivity|exact Hx].
      * cbn [filter]. rewrite Hg. cbn [length]. lia.
Qed.

Lemma pump_subscribes_after_auth (timeout : Z)
    (script : list (Z * thread_step)) (st : listener) :
  subscribes_after_auth auth_post api_token client_id st ->
  subscribes_after_auth auth_post api_token client_id
    (fst (pumpf timeout script st)).
Proof.
  revert st. induction script as [|[t s] rest IH]; intros st H.
  - exact H.
  - unfold pumpf. rewrite pump_cons. fold pumpf stepf.
    destruct (secs timeout <=? t)%Z; [exact H|].
    pose proof (step_subscribes_after_auth s st H) as H'.
    destruct (done (stepf s st)); [exact H'|]. apply IH, H'.
Qed.

Lemma race_subscribes_after_auth (timeout : Z)
    (script : list (Z * thread_step)) (st : listener) :
  subscribes_after_auth auth_post api_token client_id st ->
  subscribes_after_auth auth_post api_token client_id
    (racef timeout script st).
Proof.
  revert st. induction script as [|[t s] rest IH]; intros st H; [exact H|].
  unfold racef. cbn [race]. fold racef. fold stepf.
  destruct (t =? secs timeout)%Z; [|exact H].
  apply IH, step_subscribes_after_auth, H.
Qed.

(** X5: whatever the socket thread does, the listener sends nothing but
    subscriptions to the private channel of its client, it authenticates
    for that channel only, and it has sent no more subscriptions than it
    had authentication exchanges answered with status 200: a subscription
    always follows a granted authentication. *)
Theorem subscription_follows_granted_auth (timeout : Z)
    (script : list (Z * thread_step)) :
  subscribes_after_auth auth_post api_token client_id
    (final (waitf timeout script)).
Proof.
  unfold waitf, wait_for_result. fold pumpf.
  assert (H0 : subscribes_after_auth auth_post api_token client_id initial).
  { repeat split; constructor. }
  pose proof (pump_subscribes_after_auth timeout script initial H0) as H.
  fold racef left_overf.
  destruct (pumpf timeout script initial) as [st [t s|]]; cbn [fst final] in *;
    [exact H|].
  pose proof (race_subscribes_after_auth timeout
                (left_overf timeout script initial) st H) as H'.
  destruct (ws_ref _); exact H'.
Qed.

(** X6: a handshake whose data has no [socket_id], or an empty one, is
    dropped: the handler starts no authentication exchange and leaves the
    listener exactly as it was. *)
Theorem handshake_without_socket_id_is_dropped (message : string)
    (conn_data socket_id : value) (st : listener) :
  handshake_of json_loads message = Some conn_data ->
  get conn_data "socket_id" = inr socket_id ->
  truthy socket_id = false ->
  on_msg message st = st.
Proof.
  intros Hh Hs Ht. unfold on_msg, on_message.
  rewrite (on_try_handshake json_loads auth_post request_id api_token
             client_id _ _ st Hh).
  unfold on_connection_established, bind, lift, when, ret.
  rewrite Hs, Ht. reflexivity.
Qed.

(** X7: when the authentication exchange of a handshake raises, or is
    answered with status 200 and a body that is no JSON text, the handler
    catches the exception: the exchange is noted and the exception
    logged, nothing is sent, and [result_holder], [done] and the
    connection stay as they were. *)
Theorem auth_exception_is_swallowed (message : string)
    (conn_data socket_id : value) (st : listener) :
  handshake_of json_loads message = Some conn_data ->
  get conn_data "socket_id" = inr socket_id ->
  truthy socket_id = true ->
  auth_post api_token socket_id channel = HttpRaises
  \/ (exists text,
        auth_post api_token socket_id channel = HttpResponse 200 text
        /\ json_loads text = None) ->
  exists e,
    on_msg message st
    = logger (LogParseError e) (note_auth_post socket_id channel st).
Proof.
  intros Hh Hs Ht Ha. unfold on_msg, on_message.
  rewrite (on_try_handshake json_loads auth_post request_id api_token
             client_id _ _ st Hh).
  unfold on_connection_established, _subscribe_private_channel.
  unfold bind, lift, when, modify, raise, loads. fold channel.
  rewrite Hs, Ht.
  destruct Ha as [->|(text & -> & Hl)].
  - exists RequestException. reflexivity.
  - cbn [Z.eqb Pos.eqb negb]. rewrite Hl. exists JSONDecodeError. reflexivity.
Qed.


End ListenerMore.

(** * Further properties of the polling and of the orchestration *)

Section ProviderMore.
Import Py Net Eff WebSocket Provider Protocol.
Local Open Scope Z_scope.

Variable image : Type.
Variable json_loads : string -> option value.
Variable png_save : image -> option string.
Variable image_open : string -> option image.
Variable submit_post : string -> string -> string -> string -> http_outcome.
Variable auth_post : string -> value -> string -> http_outcome.
Variable script : list (Z * thread_step).
Variable url_get : value -> http_outcome.
Variable status_get : nat -> N * http_outcome.

Let pollf := poll_loop image json_loads image_open url_get status_get.
Let turn := poll_turn image json_loads image_open url_get.
Let poll_for_result :=
  _poll_for_result image json_loads image_open url_get status_get.
Let wait (self : provider) (request_id : value) : run :=
  wait_for_result json_loads auth_post request_id (api_key self)
    (client_id self) MAX_WAIT_TIME script.
Let illustrate :=
  to_illustration image json_loads png_save image_open submit_post auth_post
    script url_get status_get.
Let resolvef :=
  resolve image json_loads image_open auth_post script url_get status_get.
Let step_of := poll_loop_step image json_loads image_open url_get status_get.

(** What a turn of the loop counts: one status request, no sleep, and at
    most one fetch, none in a turn that falls through to the sleep. *)
Lemma turn_counts (resp : http_outcome) (st : polling) :
  status_gets (fst (turn resp st)) = S (status_gets st)
  /\ sleeps (fst (turn resp st)) = sleeps st
  /\ (snd (turn resp st) = inr None ->
      poll_fetched (fst (turn resp st)) = poll_fetched st)
  /\ (length (poll_fetched (fst (turn resp st)))
      <= S (length (poll_fetched st)))%nat.
Proof.
  unfold turn, poll_turn, bind, lift, modify, ret, raise.
  cbn [fst snd].
  destruct resp as [|code text]; [cbn; repeat split; lia|].
  destruct (negb (code =? 200)); [cbn; repeat split; try lia; discriminate|].
  destruct (Provider.loads json_loads (VStr text)) as [e|body];
    [cbn; repeat split; lia|].
  destruct (get_default body "data" (VDict [])) as [e|data];
    [cbn; repeat split; lia|].
  destruct (get data "status") as [e|status]; [cbn; repeat split; lia|].
  destruct (eq_str status "done").
  - destruct (get data "result_url") as [e|url]; [cbn; repeat split; lia|].
    destruct (negb (truthy url));
      [cbn; repeat split; try lia; discriminate|].
    destruct (url_get url) as [|icode content];
      [cbn; repeat split; try lia; discriminate|].
    destruct (negb (icode =? 200));
      [cbn; repeat split; try lia; discriminate|].
    destruct (open_image image image_open content) as [e|img];
      cbn; repeat split; try lia; discriminate.
  - destruct (eq_str status "error");
      cbn; repeat split; try lia; discriminate.
Qed.

(** The counters of the loop entered at [now]. *)
Lemma poll_loop_counts (n : nat) (now : Z) (st : polling) :
  (Z.to_nat (secs MAX_WAIT_TIME - now) <= n)%nat ->
  (now < secs MAX_WAIT_TIME ->
   (S (status_gets st) <= status_gets (poll_did (pollf now st)))%nat
   /\ secs POLL_INTERVAL
      * (Z.of_nat (status_gets (poll_did (pollf now st)))
         - Z.of_nat (status_gets st) - 1)
      < secs MAX_WAIT_TIME - now)
  /\ (secs MAX_WAIT_TIME <= now ->
      status_gets (poll_did (pollf now st)) = status_gets st)
  /\ (sleeps (poll_did (pollf now st)) + status_gets st
      <= status_gets (poll_did (pollf now st)) + sleeps st)%nat
  /\ (length (poll_fetched (poll_did (pollf now st)))
      <= S (length (poll_fetched st)))%nat.
Proof.
  revert now st. induction n as [|n IH]; intros now st Hn;
    unfold pollf; rewrite step_of; fold pollf; fold turn;
    destruct (Z.ltb_spec now (secs MAX_WAIT_TIME)) as [Hlt|Hge];
    try lia;
    try (cbn [poll_did poll_logger status_gets sleeps poll_fetched];
         repeat split; lia).
  pose proof (turn_counts (snd (status_get (status_gets st))) st)
    as (Hg & Hs & Hf & Hl).
  pose proof (N2Z.is_nonneg (fst (status_get (status_gets st)))) as Hlat.
  assert (Hi : 0 < secs POLL_INTERVAL) by reflexivity.
  destruct (turn (snd (status_get (status_gets st))) st)
    as [st1 [e|[r|]]]; cbn [fst snd poll_did] in *;
    try (repeat split; lia).
  specialize (Hf eq_refl).
  destruct (IH (now + Z.of_N (fst (status_get (status_gets st)))
                + secs POLL_INTERVAL) (note_sleep st1))
    as (H1 & H2 & H3 & H4); [lia|].
  cbn [note_sleep status_gets sleeps poll_fetched] in *.
  rewrite Hg, Hs, Hf in *.
  repeat split; lia.
Qed.

(** X8: whatever the service answers, [_poll_for_result] makes at least
    one and at most 150 status requests (one every [POLL_INTERVAL]
    seconds within [MAX_WAIT_TIME]), sleeps at most once per request, and
    fetches at most one result URL. *)
Theorem polling_is_bounded (request_id : value) :
  (1 <= status_gets (poll_did (poll_for_result request_id)) <= 150)%nat
  /\ (sleeps (poll_did (poll_for_result request_id))
      <= status_gets (poll_did (poll_for_result request_id)))%nat
  /\ (length (poll_fetched (poll_did (poll_for_result request_id))) <= 1)%nat.
Proof.
  destruct (poll_loop_counts (Z.to_nat (secs MAX_WAIT_TIME - 0)) 0
              (poll_start request_id) (Nat.le_refl _))
    as (H1 & _ & H3 & H4).
  destruct H1 as [H1a H1b]; [reflexivity|].
  unfold poll_for_result, _poll_for_result. fold pollf.
  cbn [poll_start status_gets sleeps poll_fetched length] in *.
  unfold secs, POLL_INTERVAL, MAX_WAIT_TIME in H1b.
  repeat split; lia.
Qed.

(** X9: when the status is [done] and the response has no [result_url],
    or an empty one, the polling returns [None] in that turn and fetches
    nothing. *)
Theorem done_without_url_ends_polling (now : Z) (st : polling)
    (data url : value) :
  now < secs MAX_WAIT_TIME ->
  status_view json_loads (snd (status_get (status_gets st)))
  = Some (data, VStr "done") ->
  get data "result_url" = inr url ->
  truthy url = false ->
  pollf now st
  = mkPolled (inr None) (now + Z.of_N (fst (status_get (status_gets st))))
      (poll_logger LogDoneNoUrl (note_status_get st)).
Proof.
  intros Hnow Hv Hu Ht. unfold pollf. rewrite step_of.
  destruct (Z.ltb_spec now (secs MAX_WAIT_TIME)) as [_|Hge]; [|lia].
  apply status_view_inv in Hv.
  destruct Hv as (text & body & -> & Hbody & Hdata & Hstatus).
  unfold poll_turn, bind, lift, modify, ret, Provider.loads, WebSocket.loads.
  cbn [Z.eqb Pos.eqb negb]. rewrite Hbody, Hdata, Hstatus.
  cbn [eq_str String.eqb Ascii.eqb Bool.eqb]. rewrite Hu, Ht. reflexivity.
Qed.

(** X10: when the status is [done] and the result URL is not served with
    status 200, the polling returns [None] in that turn: the URL was
    fetched once, and neither the fetch nor the status request is
    repeated. *)
Theorem refused_download_ends_polling (now : Z) (st : polling)
    (data url : value) (status_code : Z) (content : string) :
  now < secs MAX_WAIT_TIME ->
  status_view json_loads (snd (status_get (status_gets st)))
  = Some (data, VStr "done") ->
  get data "result_url" = inr url ->
  truthy url = true ->
  url_get url = HttpResponse status_code content ->
  status_code <> 200 ->
  pollf now st
  = mkPolled (inr None) (now + Z.of_N (fst (status_get (status_gets st))))
      (poll_logger (LogFetchFailed status_code)
         (note_poll_fetch url (note_status_get st))).
Proof.
  intros Hnow Hv Hu Ht Hg Hc. unfold pollf. rewrite step_of.
  destruct (Z.ltb_spec now (secs MAX_WAIT_TIME)) as [_|Hge]; [|lia].
  apply status_view_inv in Hv.
  destruct Hv as (text & body & -> & Hbody & Hdata & Hstatus).
  unfold poll_turn, bind, lift, modify, ret, Provider.loads, WebSocket.loads.
  cbn [Z.eqb Pos.eqb negb]. rewrite Hbody, Hdata, Hstatus.
  cbn [eq_str String.eqb Ascii.eqb Bool.eqb]. rewrite Hu, Ht. cbn [negb].
  rewrite Hg. apply Z.eqb_neq in Hc. rewrite Hc. reflexivity.
Qed.

(** X11: every status code other than 200 ends the polling, the other
    codes of the 2xx range included: a status response with 201, 202 or
    204 is treated like a refusal. *)
Theorem only_200_continues_polling (now : Z) (st : polling)
    (status_code : Z) (text : string) :
  now < secs MAX_WAIT_TIME ->
  snd (status_get (status_gets st)) = HttpResponse status_code text ->
  status_code <> 200 ->
  pollf now st
  = mkPolled (inr None) (now + Z.of_N (fst (status_get (status_gets st))))
      (poll_logger (LogStatusError status_code text) (note_status_get st)).
Proof.
  intros Hnow Hr Hc. unfold pollf. rewrite step_of.
  destruct (Z.ltb_spec now (secs MAX_WAIT_TIME)) as [_|Hge]; [|lia].
  rewrite Hr.
  rewrite (turn_refused image json_loads image_open url_get _ _ _ Hc).
  reflexivity.
Qed.

(** X12: a status response whose [status] is neither [done] nor [error]
    (another word, a number, [null], or no [status] at all) is handled
    like [pending]: the loop sleeps [POLL_INTERVAL] seconds and asks
    again, while the clock allows. *)
Theorem unknown_status_is_retried (now : Z) (st : polling)
    (data status : value) :
  now < secs MAX_WAIT_TIME ->
  status_view json_loads (snd (status_get (status_gets st)))
  = Some (data, status) ->
  eq_str status "done" = false ->
  eq_str status "error" = false ->
  pollf now st
  = pollf (now + Z.of_N (fst (status_get (status_gets st)))
           + secs POLL_INTERVAL)
      (note_sleep (note_status_get st)).
Proof.
  intros Hnow Hv Hd He. unfold pollf. rewrite step_of.
  destruct (Z.ltb_spec now (secs MAX_WAIT_TIME)) as [_|Hge]; [|lia].
  rewrite (turn_waiting image json_loads image_open url_get _ _ _ _ Hv Hd He).
  reflexivity.
Qed.

(** The image that [to_illustration] returns for what the polling came
    to. *)
Let image_of (p : polled image) : option image :=
  match poll_result p with
  | inr out_img => out_img
  | inl _ => None
  end.


(** X14: a provider without a client id (none given, or one that is empty
    or blank, which [__init__] strips to the empty string) goes straight
    to the polling for a submitted job: there is no wait on the socket,
    and what [to_illustration] returns is what [_poll_for_result]
    returned. *)
Theorem without_client_id_polls_directly (self : provider) (img : image)
    (prompt : option string) (is_person : bool) (png : string)
    (request_id : value) :
  PyStr.truthy (api_key self) = true ->
  PyStr.truthy (client_id self) = false ->
  png_save img = Some png ->
  submits json_loads
    (submit_post (api_key self)
       (PyStr.opt_or_else prompt (Prompts.get_illustration_prompt is_person))
       (model self) png) request_id ->
  ws_run (did (illustrate self img prompt is_person)) = None
  /\ ws_fetched (did (illustrate self img prompt is_person)) = []
  /\ poll_run (did (illustrate self img prompt is_person))
     = Some (poll_for_result request_id)
  /\ illustration (illustrate self img prompt is_person)
     = image_of (poll_for_result request_id).
Proof.
  intros Hkey Hcid Hpng Hsub. unfold illustrate.
  rewrite (to_illustration_submitted image json_loads png_save image_open
             submit_post auth_post script url_get status_get
             self img prompt is_person png request_id Hkey Hpng Hsub).
  unfold resolve, bind, ret, when, poll, modify. rewrite Hcid.
  fold poll_for_result. unfold image_of.
  destruct (poll_result (poll_for_result request_id)) as [e|[im|]];
    cbn; repeat split.
Qed.

(** A turn returns an image only for a [done] status whose result URL is
    served with status 200 and opens as an image. *)
Lemma turn_image (resp : http_outcome) (st : polling) (im : image) :
  snd (turn resp st) = inr (Some (Some im)) ->
  exists data status url content,
    status_view json_loads resp = Some (data, status)
    /\ eq_str status "done" = true
    /\ get data "result_url" = inr url
    /\ truthy url = true
    /\ url_get url = HttpResponse 200 content
    /\ image_open content = Some im
    /\ fst (turn resp st) = note_poll_fetch url (note_status_get st).
Proof.
  unfold turn, poll_turn, bind, lift, modify, ret, raise, status_view.
  cbn [fst snd].
  destruct resp as [|status_code text]; [discriminate|].
  destruct (Z.eqb_spec status_code 200) as [->|Hc]; cbn [negb fst snd];
    [|discriminate].
  unfold Provider.loads, WebSocket.loads.
  destruct (json_loads text) as [body|]; [|discriminate].
  destruct (get_default body "data" (VDict [])) as [e|data]; [discriminate|].
  destruct (get data "status") as [e|status]; [discriminate|].
  destruct (eq_str status "done") eqn:Hd.
  - destruct (get data "result_url") as [e|url] eqn:Hu; [discriminate|].
    destruct (truthy url) eqn:Ht; cbn [negb fst snd]; [|discriminate].
    destruct (url_get url) as [|icode content] eqn:Hg; [discriminate|].
    destruct (Z.eqb_spec icode 200) as [->|Hn]; cbn [negb fst snd];
      [|discriminate].
    unfold open_image.
    destruct (image_open content) as [im'|] eqn:Hi; [|discriminate].
    cbn [fst snd]. intros [= <-].
    exists data, status, url, content.
    repeat split; try assumption; reflexivity.
  - destruct (eq_str status "error"); discriminate.
Qed.

Lemma poll_loop_image (n : nat) (now : Z) (st : polling) (im : image) :
  (Z.to_nat (secs MAX_WAIT_TIME - now) <= n)%nat ->
  poll_result (pollf now st) = inr (Some im) ->
  exists data status url content,
    status_view json_loads
      (snd (status_get (Nat.pred (status_gets (poll_did (pollf now st))))))
    = Some (data, status)
    /\ eq_str status "done" = true
    /\ get data "result_url" = inr url
    /\ truthy url = true
    /\ url_get url = HttpResponse 200 content
    /\ image_open content = Some im
    /\ poll_fetched (poll_did (pollf now st)) = url :: poll_fetched st.
Proof.
  revert now st. induction n as [|n IH]; intros now st Hn;
    unfold pollf; rewrite step_of; fold pollf; fold turn;
    destruct (Z.ltb_spec now (secs MAX_WAIT_TIME)) as [Hlt|Hge];
    try lia; try discriminate.
  pose proof (turn_counts (snd (status_get (status_gets st))) st)
    as (Hg & Hs & Hf & Hl).
  pose proof (turn_image (snd (status_get (status_gets st))) st) as Him.
  pose proof (N2Z.is_nonneg (fst (status_get (status_gets st)))) as Hlat.
  assert (Hi : 0 < secs POLL_INTERVAL) by reflexivity.
  destruct (turn (snd (status_get (status_gets st))) st)
    as [st1 [e|[r|]]]; cbn [fst snd poll_did poll_result] in *;
    try discriminate.
  - intros [= ->].
    destruct (Him im eq_refl)
      as (data & status & url & content & Hv & Hd & Hu & Ht & Hget & Hop
          & ->).
    cbn [note_poll_fetch note_status_get status_gets poll_fetched Nat.pred].
    exists data, status, url, content. repeat split; assumption.
  - intros Hres. specialize (Hf eq_refl).
    destruct (IH (now + Z.of_N (fst (status_get (status_gets st)))
                  + secs POLL_INTERVAL) (note_sleep st1))
      as (data & status & url & content & Hv & Hd & Hu & Ht & Hget & Hop
          & Hfetched); [lia|exact Hres|].
    cbn [note_sleep poll_fetched] in Hfetched. rewrite Hf in Hfetched.
    exists data, status, url, content. repeat split; assumption.
Qed.

(** X15: [_poll_for_result] returns an image only when its last status
    response said [done] and named a result URL that was then served with
    status 200 and opened as that image; that URL is the only one it
    fetched. *)
Theorem polled_image_comes_from_done_status (request_id : value)
    (im : image) :
  poll_result (poll_for_result request_id) = inr (Some im) ->
  exists data status url content,
    status_view json_loads
      (snd (status_get
              (Nat.pred (status_gets (poll_did (poll_for_result request_id))))))
    = Some (data, status)
    /\ eq_str status "done" = true
    /\ get data "result_url" = inr url
    /\ truthy url = true
    /\ url_get url = HttpResponse 200 content
    /\ image_open content = Some im
    /\ poll_fetched (poll_did (poll_for_result request_id)) = [url].
Proof.
  intros H.
  exact (poll_loop_image _ 0 (poll_start request_id) im (Nat.le_refl _) H).
Qed.

(** An image that [resolve] yields was fetched after the wait on the
    socket, or returned by the polling. *)
Lemma resolve_image (self : provider) (request_id : value)
    (tr : trace image) (im : image) :
  illustration (finish (resolvef self request_id tr)) = Some im ->
  (exists url content,
      url_get url = HttpResponse 200 content
      /\ image_open content = Some im
      /\ get (returned (wait self request_id)) "result_url" = inr url
      /\ ws_fetched (did (finish (resolvef self request_id tr)))
         = url :: ws_fetched tr
      /\ poll_run (did (finish (resolvef self request_id tr))) = poll_run tr)
  \/ (poll_run (did (finish (resolvef self request_id tr)))
      = Some (poll_for_result request_id)
      /\ poll_result (poll_for_result request_id) = inr (Some im)).
Proof.
  unfold resolvef, resolve, websocket_path. fold (wait self request_id).
  unfold bind, modify, lift, ret, when, poll, raise. fold poll_for_result.
  destruct (PyStr.truthy (client_id self)).
  - destruct (truthy (returned (wait self request_id))) eqn:Hp.
    + destruct (get (returned (wait self request_id)) "result_url")
        as [e|url] eqn:Hu; [discriminate|].
      destruct (truthy url) eqn:Ht.
      * destruct (url_get url) as [|code content] eqn:Hg; [discriminate|].
        destruct (Z.eqb_spec code 200) as [->|Hc].
        -- unfold open_image.
           destruct (image_open content) as [im'|] eqn:Hi; [|discriminate].
           cbn. intros [= <-]. left. exists url, content.
           repeat split; assumption.
        -- destruct (poll_result (poll_for_result request_id))
             as [e|[im'|]] eqn:Hr; cbn; try discriminate.
           intros [= <-]. right. split; reflexivity.
      * destruct (poll_result (poll_for_result request_id))
          as [e|[im'|]] eqn:Hr; cbn; try discriminate.
        intros [= <-]. right. split; reflexivity.
    + rewrite Hp.
      destruct (poll_result (poll_for_result request_id))
        as [e|[im'|]] eqn:Hr; cbn; try discriminate.
      intros [= <-]. right. split; reflexivity.
  - destruct (poll_result (poll_for_result request_id))
      as [e|[im'|]] eqn:Hr; cbn; try discriminate.
    intros [= <-]. right. split; reflexivity.
Qed.

(** X16: every image that [to_illustration] returns was downloaded: it
    is what a result URL, served with status 200, opened as.  The URL is
    the one fetched after the wait on the socket, and then there was no
    polling, or it is the one URL that the polling fetched. *)
Theorem returned_image_was_downloaded (self : provider) (img : image)
    (prompt : option string) (is_person : bool) (im : image) :
  illustration (illustrate self img prompt is_person) = Some im ->
  exists url content,
    url_get url = HttpResponse 200 content
    /\ image_open content = Some im
    /\ ((ws_fetched (did (illustrate self img prompt is_person)) = [url]
         /\ poll_run (did (illustrate self img prompt is_person)) = None)
        \/ (exists p,
               poll_run (did (illustrate self img prompt is_person)) = Some p
               /\ poll_result p = inr (Some im)
               /\ poll_fetched (poll_did p) = [url])).
Proof.
  unfold illustrate, to_illustration.
  destruct (PyStr.truthy (api_key self)); cbn [negb]; [|discriminate].
  unfold to_illustration_try, bind, lift.
  destruct (png_save img) as [png|]; [|discriminate].
  unfold await.
  destruct (submit_post _ _ _ png) as [|status_code text]; [discriminate|].
  destruct (Z.eqb_spec status_code 200) as [->|Hc]; cbn [negb];
    [|discriminate].
  unfold bind, lift, modify, ret, Provider.loads, WebSocket.loads.
  destruct (json_loads text) as [result|]; [|discriminate].
  destruct (get_default result "data" (VDict [])) as [e|data];
    [discriminate|].
  destruct (get data "request_id") as [e|request_id]; [discriminate|].
  destruct (truthy request_id); cbn [negb]; [|discriminate].
  intros H.
  destruct (resolve_image self request_id no_trace im H)
    as [(url & content & Hg & Hi & _ & Hf & Hp)|[Hp Hr]].
  - exists url, content. split; [exact Hg|]. split; [exact Hi|].
    left. split; assumption.
  - destruct (poll_loop_image _ 0 (poll_start request_id) im
                (Nat.le_refl _) Hr)
      as (d & st & url & content & _ & _ & _ & _ & Hg & Hi & Hf).
    exists url, content. split; [exact Hg|]. split; [exact Hi|].
    right. exists (poll_for_result request_id). repeat split; assumption.
Qed.

(** An exception of the polling ends [resolve], whichever way the
    polling was reached. *)
Lemma resolve_poll_raised (self : provider) (request_id : value)
    (p : polled image) (e : exn) :
  poll_run (did (finish (resolvef self request_id no_trace))) = Some p ->
  poll_result p = inl e ->
  illustration (finish (resolvef self request_id no_trace)) = None
  /\ poll_calls (did (finish (resolvef self request_id no_trace))) = 1%nat
  /\ exists rest,
       log (did (finish (resolvef self request_id no_trace)))
       = LogConversionFailed e :: rest.
Proof.
  unfold resolvef, resolve, websocket_path. fold (wait self request_id).
  unfold bind, modify, lift, ret, when, poll, raise. fold poll_for_result.
  destruct (poll_result (poll_for_result request_id)) as [e0|[im|]] eqn:Hr;
    (destruct (PyStr.truthy (client_id self));
     [destruct (truthy (returned (wait self request_id))) eqn:Hp;
      [destruct (get (returned (wait self request_id)) "result_url")
         as [e1|url];
       [|destruct (truthy url);
         [destruct (url_get url) as [|code content];
          [|destruct (code =? 200);
            [unfold open_image; destruct (image_open content)|]]|]]|]|]);
    cbn; try rewrite Hp; cbn; try discriminate;
    intros [= <-] He; rewrite Hr in He; try discriminate He;
    injection He as <-; repeat split; eexists; reflexivity.
Qed.

(** X17: an exception raised while polling (a status request or a
    download that raises, a status body that is no JSON object or has no
    [status], an image that does not open) does not escape
    [to_illustration], whichever way the polling was reached: the call
    returns [None] and logs the failure, and the polling is not called a
    second time. *)
Theorem polling_exception_is_caught (self : provider) (img : image)
    (prompt : option string) (is_person : bool) (p : polled image)
    (e : exn) :
  poll_run (did (illustrate self img prompt is_person)) = Some p ->
  poll_result p = inl e ->
  illustration (illustrate self img prompt is_person) = None
  /\ poll_calls (did (illustrate self img prompt is_person)) = 1%nat
  /\ exists rest,
       log (did (illustrate self img prompt is_person))
       = LogConversionFailed e :: rest.
Proof.
  unfold illustrate, to_illustration.
  destruct (PyStr.truthy (api_key self)); cbn [negb]; [|discriminate].
  unfold to_illustration_try, bind, lift.
  destruct (png_save img) as [png|]; [|discriminate].
  unfold await.
  destruct (submit_post _ _ _ png) as [|status_code text]; [discriminate|].
  destruct (Z.eqb_spec status_code 200) as [->|Hc]; cbn [negb];
    [|discriminate].
  unfold bind, lift, modify, ret, Provider.loads, WebSocket.loads.
  destruct (json_loads text) as [result|]; [|discriminate].
  destruct (get_default result "data" (VDict [])) as [e0|data];
    [discriminate|].
  destruct (get data "request_id") as [e0|request_id]; [discriminate|].
  destruct (truthy request_id); cbn [negb]; [|discriminate].
  apply resolve_poll_raised.
Qed.

(** Without a client id nothing is done on the socket. *)
Lemma no_client_id_no_socket (self : provider) (img : image)
    (prompt : option string) (is_person : bool) :
  PyStr.truthy (client_id self) = false ->
  ws_run (did (illustrate self img prompt is_person)) = None
  /\ ws_fetched (did (illustrate self img prompt is_person)) = [].
Proof.
  intros Hcid. unfold illustrate, to_illustration.
  destruct (PyStr.truthy (api_key self)); cbn [negb]; [|repeat split].
  unfold to_illustration_try, bind, lift.
  destruct (png_save img) as [png|]; [|repeat split].
  unfold await.
  destruct (submit_post _ _ _ png) as [|status_code text]; [repeat split|].
  destruct (Z.eqb_spec status_code 200) as [->|Hc]; cbn [negb];
    [|repeat split].
  unfold bind, lift, modify, ret, Provider.loads, WebSocket.loads.
  destruct (json_loads text) as [result|]; [|repeat split].
  destruct (get_default result "data" (VDict [])) as [e|data];
    [repeat split|].
  destruct (get data "request_id") as [e|request_id]; [repeat split|].
  destruct (truthy request_id); cbn [negb]; [|repeat split].
  unfold resolve, bind, ret, when, poll, modify. rewrite Hcid.
  destruct (poll_result _) as [e|[im|]]; cbn; repeat split.
Qed.

(** X18: [get_illustration_provider] gives a provider only for the id
    [deapi]; called with an API key and no further keyword argument, as
    [generate_image] calls it, the provider has no client id, so its
    [to_illustration] never waits on the WebSocket and fetches nothing
    on its behalf. *)
Theorem registry_provider_never_uses_socket (session_made : bool)
    (provider_id : string) (key : option string) (self : provider)
    (img : image) (prompt : option string) (is_person : bool) :
  Registry.get_illustration_provider session_made provider_id key
    Registry.no_kwargs = Some self ->
  provider_id = "deapi"
  /\ client_id self = ""
  /\ ws_run (did (illustrate self img prompt is_person)) = None
  /\ ws_fetched (did (illustrate self img prompt is_person)) = [].
Proof.
  unfold Registry.get_illustration_provider. cbn [Registry.dict_get
    Registry.ILLUSTRATION_PROVIDERS Registry.provider_id].
  destruct (String.eqb_spec provider_id "deapi") as [->|Hne];
    [|discriminate].
  destruct session_made; [|discriminate]. intros [= <-].
  split; [reflexivity|]. split; [reflexivity|].
  apply no_client_id_no_socket. reflexivity.
Qed.

(** X19: [is_configured] of the deAPI class and the key check of
    [to_illustration] agree: for every [api_key], [is_configured(api_key)]
    is [True] exactly when the key that [__init__] keeps, stripped of its
    white space, is not empty, whatever the other arguments of the
    constructor. *)
Theorem is_configured_matches_key_check (key cid : option string)
    (model : string) :
  Base.is_configured
    (Registry.requires_api_key Registry.DeAPIIllustrationProvider) key
  = PyStr.truthy (api_key (init key cid model)).
Proof.
  unfold Base.is_configured, init. cbn [Registry.requires_api_key negb api_key].
  destruct key as [k|]; [|reflexivity].
  unfold PyStr.opt_or_else, PyStr.or_else.
  destruct (PyStr.truthy k) eqn:Hk; reflexivity.
Qed.

Ltac conjuncts :=
  repeat match goal with |- _ /\ _ => split end;
  try reflexivity; try assumption.

Lemma status_is_dict (payload : value) (status : string) :
  status_is payload status = true ->
  truthy payload = true
  /\ exists url, get payload "result_url" = inr url.
Proof.
  unfold status_is. destruct payload as [| | | | |kv]; try discriminate.
  destruct kv as [|p kv]; [discriminate|].
  intros _. split; [reflexivity|]. eexists. reflexivity.
Qed.

(** What [resolve] does for a provider with a client id: it polls, once,
    when the wait gave nothing or a result without a URL or one whose
    download is refused, and it does not poll when the download of the
    result raises or is served. *)
Lemma resolve_polls (self : provider) (request_id : value)
    (tr : trace image) :
  PyStr.truthy (client_id self) = true ->
  let r := wait self request_id in
  let o := finish (resolvef self request_id tr) in
  (poll_calls (did o) = S (poll_calls tr)
   /\ poll_run (did o) = Some (poll_for_result request_id)
   /\ illustration o = image_of (poll_for_result request_id)
   /\ (truthy (returned r) = false
       \/ exists url,
            get (returned r) "result_url" = inr url
            /\ (truthy url = false
                \/ exists status_code content,
                     url_get url = HttpResponse status_code content
                     /\ status_code <> 200)))
  \/ (poll_calls (did o) = poll_calls tr
      /\ poll_run (did o) = poll_run tr
      /\ truthy (returned r) = true
      /\ ((exists e, get (returned r) "result_url" = inl e)
          \/ exists url,
               get (returned r) "result_url" = inr url
               /\ truthy url = true
               /\ ((url_get url = HttpRaises /\ illustration o = None)
                   \/ exists content,
                        url_get url = HttpResponse 200 content
                        /\ illustration o = image_open content))).
Proof.
  intros Hc r o. subst r o.
  unfold resolvef, resolve, websocket_path. fold (wait self request_id).
  unfold bind, modify, lift, ret, when, poll, raise. fold poll_for_result.
  rewrite Hc. unfold image_of.
  destruct (truthy (returned (wait self request_id))) eqn:Hp.
  - destruct (get (returned (wait self request_id)) "result_url")
      as [e|url] eqn:Hu.
    + right. cbn. conjuncts. left. exists e. reflexivity.
    + destruct (truthy url) eqn:Ht.
      * destruct (url_get url) as [|code content] eqn:Hg.
        -- right. cbn. conjuncts. right. exists url. conjuncts.
           left. split; [assumption|reflexivity].
        -- destruct (Z.eqb_spec code 200) as [->|Hne].
           ++ right. unfold open_image.
              destruct (image_open content) as [im|] eqn:Hi; cbn;
                conjuncts; right; exists url; conjuncts; right;
                exists content; (split; [assumption|symmetry; exact Hi]).
           ++ left.
              destruct (poll_result (poll_for_result request_id))
                as [e|[im|]]; cbn; conjuncts; right; exists url;
                conjuncts; right; exists code, content;
                (split; [assumption|exact Hne]).
      * left.
        destruct (poll_result (poll_for_result request_id)) as [e|[im|]];
          cbn; conjuncts; right; exists url; conjuncts; left; assumption.
  - left. rewrite Hp.
    destruct (poll_result (poll_for_result request_id)) as [e|[im|]];
      cbn; conjuncts; left; reflexivity.
Qed.

(** Corrected C1: for a submitted job of a provider with a client id,
    [_poll_for_result] is called at most once.  It is left out exactly
    when the listener resolves to [Done] with a result URL and the
    download of that URL raises or is served with status 200: served and
    opened, the image fetched is what [to_illustration] returns; when the
    download raises, or its content does not open as an image, the
    [except] of [to_illustration] returns [None] and nothing is polled.
    After [Failed], [TimedOut] or [Unavailable], and after a [Done] whose
    result URL is empty or is not served with status 200, the polling is
    called, once, and what it returns is what [to_illustration]
    returns. *)
Theorem polling_runs_unless_image_delivered (self : provider) (img : image)
    (prompt : option string) (is_person : bool) (png : string)
    (request_id : value) :
  PyStr.truthy (api_key self) = true ->
  png_save img = Some png ->
  submits json_loads
    (submit_post (api_key self)
       (PyStr.opt_or_else prompt (Prompts.get_illustration_prompt is_person))
       (model self) png) request_id ->
  PyStr.truthy (client_id self) = true ->
  let r := wait self request_id in
  let o := illustrate self img prompt is_person in
  (poll_calls (did o) <= 1)%nat
  /\ (poll_calls (did o) = 1%nat ->
      poll_run (did o) = Some (poll_for_result request_id)
      /\ illustration o = image_of (poll_for_result request_id))
  /\ (poll_calls (did o) = 0%nat <->
      exists payload url,
        verdict_of r = Done payload
        /\ get payload "result_url" = inr url
        /\ truthy url = true
        /\ (url_get url = HttpRaises
            \/ exists content, url_get url = HttpResponse 200 content))
  /\ (forall payload url content im,
        verdict_of r = Done payload ->
        get payload "result_url" = inr url ->
        truthy url = true ->
        url_get url = HttpResponse 200 content ->
        image_open content = Some im ->
        poll_calls (did o) = 0%nat
        /\ poll_run (did o) = None
        /\ illustration o = Some im)
  /\ (forall payload url,
        verdict_of r = Done payload ->
        get payload "result_url" = inr url ->
        truthy url = true ->
        url_get url = HttpRaises
        \/ (exists content,
               url_get url = HttpResponse 200 content
               /\ image_open content = None) ->
        poll_calls (did o) = 0%nat
        /\ poll_run (did o) = None
        /\ illustration o = None)
  /\ (verdict_of r = Failed \/ verdict_of r = TimedOut
      \/ verdict_of r = Unavailable ->
      poll_calls (did o) = 1%nat)
  /\ (forall payload url,
        verdict_of r = Done payload ->
        get payload "result_url" = inr url ->
        truthy url = false
        \/ (exists status_code content,
               url_get url = HttpResponse status_code content
               /\ status_code <> 200) ->
        poll_calls (did o) = 1%nat).
Proof.
  intros Hkey Hpng Hsub Hc r o. subst o. unfold illustrate.
  rewrite (to_illustration_submitted image json_loads png_save image_open
             submit_post auth_post script url_get status_get
             self img prompt is_person png request_id Hkey Hpng Hsub).
  fold resolvef.
  pose proof (resolve_polls self request_id no_trace Hc) as Hres.
  cbn zeta in Hres. fold r in Hres. cbn [no_trace poll_calls poll_run] in Hres.
  pose proof (returned_cases json_loads auth_post request_id (api_key self)
                (client_id self) MAX_WAIT_TIME script) as Hret.
  fold (wait self request_id) in Hret. fold r in Hret.
  set (o := finish (resolvef self request_id no_trace)) in *.
  assert (Hdone : forall payload, verdict_of r = Done payload ->
                                  returned r = payload).
  { intros payload Hv. destruct Hret as [[_ Hn]|(Hd & _)].
    - exfalso. exact (Hn payload Hv).
    - rewrite Hd in Hv. injection Hv as <-. reflexivity. }
  destruct Hres
    as [(Hcalls & Hrun & Hill & Hwhy)
       |(Hcalls & Hrun & Hp & [(e & Hu)|(url & Hu & Ht & Hget)])].
  - (* the polling is called *)
    split; [rewrite Hcalls; apply le_n|].
    split; [intros _; split; assumption|].
    split.
    { split; [rewrite Hcalls; discriminate|].
      intros (payload & url & Hv & Hu & Ht & Hget). exfalso.
      rewrite <- (Hdone payload Hv) in Hu.
      destruct Hwhy as [Hf|(url' & Hu' & [Hf|(code & content & Hg & Hne)])].
      - rewrite (truthy_of_field _ _ _ Hu Ht) in Hf. discriminate Hf.
      - rewrite Hu in Hu'. injection Hu' as <-. congruence.
      - rewrite Hu in Hu'. injection Hu' as <-.
        destruct Hget as [Hr|(content' & Hr)]; rewrite Hr in Hg;
          [discriminate Hg|]. injection Hg as E _. exact (Hne (eq_sym E)). }
    split.
    { intros payload url content im Hv Hu Ht Hg Hi. exfalso.
      rewrite <- (Hdone payload Hv) in Hu.
      destruct Hwhy as [Hf|(url' & Hu' & [Hf|(code & content' & Hg' & Hne)])].
      - rewrite (truthy_of_field _ _ _ Hu Ht) in Hf. discriminate Hf.
      - rewrite Hu in Hu'. injection Hu' as <-. congruence.
      - rewrite Hu in Hu'. injection Hu' as <-. rewrite Hg in Hg'.
        injection Hg' as E _. exact (Hne (eq_sym E)). }
    split.
    { intros payload url Hv Hu Ht Hget. exfalso.
      rewrite <- (Hdone payload Hv) in Hu.
      destruct Hwhy as [Hf|(url' & Hu' & [Hf|(code & content' & Hg' & Hne)])].
      - rewrite (truthy_of_field _ _ _ Hu Ht) in Hf. discriminate Hf.
      - rewrite Hu in Hu'. injection Hu' as <-. congruence.
      - rewrite Hu in Hu'. injection Hu' as <-.
        destruct Hget as [Hr|(content & Hr & _)]; rewrite Hr in Hg';
          [discriminate Hg'|]. injection Hg' as E _. exact (Hne (eq_sym E)). }
    split; [intros _; exact Hcalls|intros payload url _ _ _; exact Hcalls].
  - (* a result that is no dict: no run of the listener returns one *)
    exfalso. destruct Hret as [[Hn _]|(_ & _ & Hs)].
    + rewrite Hn in Hp. discriminate Hp.
    + destruct (status_is_dict _ _ Hs) as (_ & url & Hu'). congruence.
  - (* the download raises or is served: no polling *)
    assert (Hv : verdict_of r = Done (returned r)).
    { destruct Hret as [[Hn _]|(Hd & _)]; [|exact Hd].
      rewrite Hn in Hp. discriminate Hp. }
    split; [rewrite Hcalls; apply Nat.le_0_1|].
    split; [rewrite Hcalls; discriminate|].
    split.
    { split; [intros _|intros _; exact Hcalls].
      exists (returned r), url. split; [exact Hv|].
      split; [exact Hu|]. split; [exact Ht|].
      destruct Hget as [[Hg _]|(content & Hg & _)];
        [left; exact Hg|right; exists content; exact Hg]. }
    split.
    { intros payload url' content im Hv' Hu' Ht' Hg' Hi.
      rewrite <- (Hdone payload Hv') in Hu'. rewrite Hu in Hu'.
      injection Hu' as <-.
      split; [exact Hcalls|]. split; [exact Hrun|].
      destruct Hget as [[Hg _]|(content' & Hg & Hill)];
        [congruence|]. rewrite Hg in Hg'. injection Hg' as <-.
      rewrite Hill. exact Hi. }
    split.
    { intros payload url' Hv' Hu' Ht' Hget'.
      rewrite <- (Hdone payload Hv') in Hu'. rewrite Hu in Hu'.
      injection Hu' as <-.
      split; [exact Hcalls|]. split; [exact Hrun|].
      destruct Hget as [[Hg Hill]|(content' & Hg & Hill)]; [exact Hill|].
      destruct Hget' as [Hr|(content & Hr & Hi)]; [congruence|].
      rewrite Hg in Hr. injection Hr as <-. rewrite Hill. exact Hi. }
    split.
    { intros Hno. exfalso. rewrite Hv in Hno.
      destruct Hno as [Hno|[Hno|Hno]]; discriminate Hno. }
    intros payload url' Hv' Hu' Hcase. exfalso.
    rewrite <- (Hdone payload Hv') in Hu'. rewrite Hu in Hu'.
    injection Hu' as <-.
    destruct Hcase as [Hf|(code & content & Hg & Hne)]; [congruence|].
    destruct Hget as [[Hr _]|(content' & Hr & _)]; rewrite Hr in Hg;
      [discriminate Hg|]. injection Hg as E _. exact (Hne (eq_sym E)).
Qed.

End ProviderMore.


(** ** Saving an illustration *)

Section AlbumMore.
Import Py PyStr ImageAlbum Illustrations.

Lemma re_sub_class_keeps (cls : list ascii) (s : string) :
  (forall c, In c cls -> mem c s = false) -> re_sub_class cls s = s.
Proof.
  induction s as [|a r IH]; intros H; simpl; [reflexivity|].
  destruct (existsb (Ascii.eqb a) cls) eqn:Ha.
  - apply existsb_exists in Ha. destruct Ha as (c & Hc & Hac).
    apply Ascii.eqb_eq in Hac. subst c. specialize (H a Hc).
    simpl in H. rewrite Ascii.eqb_refl in H. discriminate H.
  - f_equal. apply IH. intros c Hc. specialize (H c Hc). simpl in H.
    apply orb_false_iff in H. apply H.
Qed.

Lemma mem_append (c : ascii) (a b : string) :
  mem c (a ++ b) = mem c a || mem c b.
Proof.
  induction a as [|d r IH]; simpl; [reflexivity|].
  rewrite IH, orb_assoc. reflexivity.
Qed.

Lemma sanitize_clean (name : option string) (c : ascii) :
  In c FORBIDDEN -> mem c (_sanitize_filename name) = false.
Proof.
  intros Hc. unfold _sanitize_filename.
  apply or_else_unknown_clean; [|exact Hc].
  intros c' Hc'. apply re_sub_class_clean, In_existsb_eqb, Hc'.
Qed.

Lemma sanitize_truthy (name : option string) :
  truthy (_sanitize_filename name) = true.
Proof. unfold _sanitize_filename. apply or_else_unknown_truthy. Qed.

(** X20: a name that is not empty, has no white space at either end and
    holds none of the forbidden characters passes [_sanitize_filename]
    unchanged; the names [.] and [..] are among them. *)
Theorem clean_name_is_kept (name : string) :
  name <> "" ->
  strip name = name ->
  forallb (fun c => negb (mem c name)) FORBIDDEN = true ->
  _sanitize_filename (Some name) = name.
Proof.
  intros Hne Hs Hf. unfold _sanitize_filename, opt_or_else, or_else.
  destruct name as [|a r]; [contradiction|]. cbn [truthy].
  rewrite Hs, re_sub_class_keeps; [reflexivity|].
  intros c Hc. rewrite forallb_forall in Hf.
  apply negb_true_iff, Hf, Hc.
Qed.

Section Saved.

Variable stem : string -> string.

Lemma saved_folder (person_name album : option string) (asset : value)
    (t : target) :
  illustration_target stem person_name album asset = inr t ->
  folder t
  = _sanitize_filename (if given person_name then person_name else album).
Proof.
  unfold illustration_target.
  destruct (original_filename asset) as [e|original]; [discriminate|].
  destruct (path_stem stem original) as [e|st]; [discriminate|].
  intros [= <-]. cbn [folder].
  destruct (given person_name); [reflexivity|].
  unfold or_else at 1. rewrite sanitize_truthy. reflexivity.
Qed.

(** X21: the folder of a saved illustration is the sanitized person name
    when a person name is given, and the sanitized album otherwise; the
    default [album] of the source is never taken, since
    [_sanitize_filename] returns no empty string: with neither a person
    nor an album the folder is [unknown]. *)
Theorem illustration_folder_is_person_or_album
    (person_name album : option string) (asset : value) (t : target) :
  illustration_target stem person_name album asset = inr t ->
  folder t
  = _sanitize_filename (if given person_name then person_name else album)
  /\ (given person_name = false -> given album = false ->
      folder t = "unknown").
Proof.
  intros H. pose proof (saved_folder _ _ _ _ H) as Hfolder.
  split; [exact Hfolder|].
  intros Hp Ha. rewrite Hfolder, Hp.
  destruct album as [[|a r]|]; try discriminate Ha; reflexivity.
Qed.

(** X22: whatever the asset and whatever [Path.stem] makes of its name,
    the file name of a saved illustration is a base name that is not
    empty, followed by [.jpeg]; neither the file name nor the folder holds
    a path separator or another forbidden character, and the image is
    saved with quality 95. *)
Theorem illustration_path_is_safe
    (person_name album : option string) (asset : value) (t : target) :
  illustration_target stem person_name album asset = inr t ->
  (exists base, safe_filename t = base ++ ".jpeg" /\ base <> "")
  /\ forallb (fun c => negb (mem c (safe_filename t))) FORBIDDEN = true
  /\ folder t <> ""
  /\ forallb (fun c => negb (mem c (folder t))) FORBIDDEN = true
  /\ save_kwargs t = [("quality", 95%Z)].
Proof.
  intros H.
  pose proof (saved_folder _ _ _ _ H) as Hfolder.
  revert H. unfold illustration_target.
  destruct (original_filename asset) as [e|original]; [discriminate|].
  destruct (path_stem stem original) as [e|st]; [discriminate|].
  intros [= <-]. cbn [folder safe_filename save_kwargs] in *.
  split; [|split; [|split; [|split]]].
  - eexists. split; [reflexivity|].
    pose proof (sanitize_truthy (Some (or_else st "illustration"))) as Ht.
    destruct (_sanitize_filename (Some (or_else st "illustration")));
      [discriminate Ht|discriminate].
  - apply forallb_forall. intros c Hc. rewrite mem_append.
    rewrite (sanitize_clean _ c Hc). cbn in Hc.
    repeat (destruct Hc as [<-|Hc]; [reflexivity|]). contradiction.
  - rewrite Hfolder. intros Hempty.
    pose proof (sanitize_truthy
                  (if given person_name then person_name else album)) as Ht.
    rewrite Hempty in Ht. discriminate Ht.
  - rewrite Hfolder. apply forallb_forall. intros c Hc.
    rewrite (sanitize_clean _ c Hc). reflexivity.
  - reflexivity.
Qed.

End Saved.

End AlbumMore.


(** ** The Immich provider *)

Section ImmichMore.
Import Py Net Immich Observations.

Variable image : Type.
Variable json_loads : string -> option value.
Variable albums_get : http_outcome.
Variable person_get : string -> http_outcome.
Variable random_post : value -> http_outcome.
Variable metadata_post : value -> nat -> http_outcome.
Variable draw : nat.
Variable from_url : value -> bool -> option image.

Let album_id_of := get_album_id json_loads albums_get.
Let assets_of := get_assets_by_album json_loads metadata_post.
Let pages_from := assets_pages json_loads metadata_post.
Let by_album :=
  get_image_by_album image json_loads albums_get metadata_post draw from_url.
Let by_person :=
  get_image_by_person image json_loads person_get random_post draw from_url.

Lemma matching_others (album : string) (pre : list value) :
  Forall (other_album album) pre -> matching album pre = inr [].
Proof.
  induction 1 as [|b pre (name & Hn & Hne) _ IH]; [reflexivity|].
  cbn [matching]. rewrite Hn, IH, Hne. reflexivity.
Qed.

Lemma matching_named (album : string) (post : list value) :
  Forall named_album post -> exists m, matching album post = inr m.
Proof.
  induction 1 as [|b post (name & Hn) _ (m & IH)]; [exists []; reflexivity|].
  cbn [matching]. rewrite Hn, IH. eexists. reflexivity.
Qed.

Lemma matching_app (album : string) (pre post : list value)
    (m : list value) :
  Forall (other_album album) pre ->
  matching album post = inr m ->
  matching album (pre ++ post) = inr m.
Proof.
  intros Hpre Hpost.
  induction Hpre as [|b pre (name & Hn & Hne) _ IH]; [exact Hpost|].
  cbn [matching app]. rewrite Hn, IH, Hne. reflexivity.
Qed.

(** X23: when several albums have the name asked for, [get_album_id]
    returns the id of the first of them in the order of the response; the
    later ones are not looked at beyond their name. *)
Theorem album_id_is_first_match (album : string) (pre post : list value)
    (a name : value) :
  json_of json_loads albums_get = inr (VList (pre ++ a :: post)) ->
  Forall (other_album album) pre ->
  subscript a "albumName" = inr name ->
  eq name (VStr album) = true ->
  Forall named_album post ->
  album_id_of album = subscript a "id".
Proof.
  intros Hget Hpre Hname Heq Hpost.
  destruct (matching_named album post Hpost) as (m & Hm).
  unfold album_id_of, get_album_id. rewrite Hget. cbn [iter].
  rewrite (matching_app album pre (a :: post) (a :: m) Hpre); [reflexivity|].
  cbn [matching]. rewrite Hname, Hm, Heq. reflexivity.
Qed.

Lemma matching_malformed (album : string) (albums : list value) :
  Exists (fun a => forall name, subscript a "albumName" <> inr name) albums ->
  matching album albums = inl KeyError
  \/ matching album albums = inl (Raised TypeError).
Proof.
  induction albums as [|a rest IH]; intros Hbad; [inversion Hbad|].
  cbn [matching].
  destruct (subscript a "albumName") as [e|name] eqn:Ha.
  - unfold subscript in Ha.
    destruct a as [| | | | |kv]; try (right; congruence).
    destruct (lookup "albumName" kv); [discriminate|left; congruence].
  - inversion Hbad as [? ? H|? ? H]; subst.
    + exfalso. exact (H name Ha).
    + destruct (IH H) as [->| ->]; [left|right]; reflexivity.
Qed.

(** X24: one entry of the album list that has no [albumName], or is no
    object, makes [get_album_id] raise [KeyError] or [TypeError], also
    when the album asked for is in the list; [get_image_by_album] then
    returns [(None, None)] without asking for assets. *)
Theorem malformed_album_entry_fails_lookup (album : string)
    (albums : list value) (fuel : nat) (resize : bool) :
  json_of json_loads albums_get = inr (VList albums) ->
  Exists (fun a => forall name, subscript a "albumName" <> inr name) albums ->
  (album_id_of album = inl KeyError
   \/ album_id_of album = inl (Raised TypeError))
  /\ by_album fuel album resize = Some (inr (None, None)).
Proof.
  intros Hget Hbad.
  pose proof (matching_malformed album albums Hbad) as Hm.
  assert (Hid : album_id_of album = inl KeyError
                \/ album_id_of album = inl (Raised TypeError)).
  { unfold album_id_of, get_album_id. rewrite Hget. cbn [iter].
    destruct Hm as [->| ->]; [left|right]; reflexivity. }
  split; [exact Hid|].
  unfold by_album, get_image_by_album. fold album_id_of.
  destruct Hid as [->| ->]; reflexivity.
Qed.

Lemma pages_concat (album_id : value) (pages : list (list value)) :
  forall (page : nat) (acc : list value) (fuel : nat),
  (forall k l, nth_error pages k = Some l ->
     l <> []
     /\ page_items json_loads (metadata_post album_id (page + k))
        = Some (VList l)) ->
  page_items json_loads (metadata_post album_id (page + length pages))
  = Some (VList []) ->
  length pages < fuel ->
  pages_from fuel album_id page acc = Some (inr (acc ++ concat pages)%list).
Proof.
  unfold pages_from.
  induction pages as [|l pages IH]; intros page acc fuel Hpages Hlast Hfuel;
    (destruct fuel as [|fuel]; [inversion Hfuel|]); cbn [assets_pages].
  - cbn [length] in Hlast. rewrite Nat.add_0_r in Hlast.
    unfold page_items in Hlast.
    destruct (json_of json_loads (metadata_post album_id page))
      as [e|assets_data]; [discriminate|].
    destruct (get_default assets_data "assets" (VDict [])) as [e|assets];
      [discriminate|]. cbn [raised].
    destruct (get_default assets "items" (VList [])) as [e|items];
      [discriminate|]. cbn [raised].
    injection Hlast as ->. cbn [iter truthy concat]. rewrite app_nil_r.
    reflexivity.
  - destruct (Hpages 0 l eq_refl) as [Hne Hpage].
    rewrite Nat.add_0_r in Hpage. unfold page_items in Hpage.
    destruct (json_of json_loads (metadata_post album_id page))
      as [e|assets_data]; [discriminate|].
    destruct (get_default assets_data "assets" (VDict [])) as [e|assets];
      [discriminate|]. cbn [raised].
    destruct (get_default assets "items" (VList [])) as [e|items];
      [discriminate|]. cbn [raised].
    injection Hpage as ->. cbn [iter truthy].
    destruct l as [|x l]; [contradiction|].
    rewrite (IH (S page) (acc ++ x :: l)%list fuel).
    + cbn [concat]. rewrite app_assoc. reflexivity.
    + intros k l' Hk. specialize (Hpages (S k) l' Hk).
      rewrite Nat.add_succ_r in Hpages. exact Hpages.
    + cbn [length] in Hlast. rewrite Nat.add_succ_r in Hlast. exact Hlast.
    + cbn [length] in Hfuel. apply Nat.succ_lt_mono. exact Hfuel.
Qed.

(** X25: [get_assets_by_album] asks for the pages 1, 2, ... until one
    comes without items and returns the items of all pages in the order
    read: when the pages up to the [n]-th hold items and the next one is
    empty, the result is their concatenation, and [n + 1] turns of the
    loop are enough. *)
Theorem album_pages_are_concatenated (album_id : value)
    (pages : list (list value)) (fuel : nat) :
  (forall k l, nth_error pages k = Some l ->
     l <> []
     /\ page_items json_loads (metadata_post album_id (S k))
        = Some (VList l)) ->
  page_items json_loads (metadata_post album_id (S (length pages)))
  = Some (VList []) ->
  length pages < fuel ->
  assets_of fuel album_id = Some (inr (concat pages)).
Proof.
  intros Hpages Hlast Hfuel. unfold assets_of, get_assets_by_album.
  exact (pages_concat album_id pages 1 [] fuel Hpages Hlast Hfuel).
Qed.

(** X26: for an album without assets [get_image_by_album] returns
    [(None, None)]: nothing is chosen and nothing is loaded. *)
Theorem album_without_assets_gives_none (album : string) (album_id : value)
    (fuel : nat) (resize : bool) :
  album_id_of album = inr album_id ->
  page_items json_loads (metadata_post album_id 1) = Some (VList []) ->
  0 < fuel ->
  by_album fuel album resize = Some (inr (None, None)).
Proof.
  intros Hid Hpage Hfuel. unfold by_album, get_image_by_album.
  fold album_id_of. rewrite Hid. fold assets_of.
  unfold assets_of, get_assets_by_album. fold pages_from.
  rewrite (pages_concat album_id [] 1 [] fuel);
    [reflexivity| |exact Hpage|exact Hfuel].
  intros [|k] l Hk; discriminate Hk.
Qed.

(** X27: for a person without assets [get_image_by_person] does not
    return [(None, None)]: the empty list passes the [try], and the
    [choice] after it raises [IndexError], which the method lets
    through. *)
Theorem person_without_assets_raises (person_name : string)
    (person_id : value) (resize : bool) :
  get_person_id json_loads person_get person_name = inr person_id ->
  json_of json_loads (random_post person_id) = inr (VList []) ->
  by_person person_name resize = inl IndexError.
Proof.
  intros Hid Hitems. unfold by_person, get_image_by_person.
  rewrite Hid. unfold get_assets_by_person. rewrite Hitems. reflexivity.
Qed.

(** X28: an image comes with its asset: what the two methods return is
    [(None, None)], or an image together with the asset chosen, and then
    the image is the one loaded for the [id] of that asset with the
    [resize] flag of the call. *)
Theorem image_comes_with_its_asset (person_name : string) (resize : bool)
    (out_img : option image) (out_asset : option value) :
  by_person person_name resize = inr (out_img, out_asset) ->
  (out_img = None /\ out_asset = None)
  \/ exists img asset asset_id,
       out_img = Some img /\ out_asset = Some asset
       /\ subscript asset "id" = inr asset_id
       /\ from_url asset_id resize = Some img.
Proof.
  unfold by_person, get_image_by_person.
  destruct (get_person_id _ _ _) as [e|person_id];
    [intros [= <- <-]; left; split; reflexivity|].
  destruct (get_assets_by_person _ _ _) as [e|assets];
    [intros [= <- <-]; left; split; reflexivity|].
  unfold select.
  destruct (choice draw assets) as [e|selected]; [discriminate|].
  destruct (subscript selected "id") as [e|asset_id] eqn:Hid; [discriminate|].
  destruct (from_url asset_id resize) as [img|] eqn:Himg;
    intros [= <- <-]; [right|left; split; reflexivity].
  exists img, selected, asset_id. repeat split; assumption.
Qed.

End ImmichMore.


(** ** The plugin *)

Section PluginMore.
Import Py PyStr Provider Illustrations Plugin.
Local Open Scope Z_scope.

Variable image : Type.
Variable color : Type.
Variable orientation : option string.
Variable resolution : Z * Z.
Variable load_env_key : string -> option string.
Variable get_image_by_person :
  string -> string -> string -> Z * Z -> bool
  -> Immich.error + (option image * option value).
Variable get_image_by_album :
  string -> string -> string -> Z * Z -> bool
  -> Immich.error + (option image * option value).
Variable session_made : bool.
Variable to_illustration : provider -> image -> bool -> option image.
Variable stem : string -> string.
Variable mkdir : string -> bool.
Variable save : image -> target -> bool.
Variable pad_image_blur : image -> Z * Z -> image.
Variable fit : image -> Z * Z -> image.
Variable getcolor : string -> image -> option color.
Variable pad : image -> Z * Z -> color -> image.

Let generate :=
  generate_image image color orientation resolution load_env_key
    get_image_by_person get_image_by_album session_made to_illustration stem
    mkdir save pad_image_blur fit getcolor pad.
Let loadf :=
  load image orientation resolution get_image_by_person get_image_by_album.
Let dims := dimensions orientation resolution.
Let ok := accepted load_env_key.

Lemma accepted_inv (s : settings) :
  ok s = true ->
  is_str (albumProvider s) "Immich" = true
  /\ given (load_env_key "IMMICH_KEY") = true
  /\ given (url s) = true
  /\ negb (given (album s)) && negb (given (personName s)) = false.
Proof.
  unfold ok, accepted. intros H.
  apply andb_true_iff in H. destruct H as [H Hap].
  apply andb_true_iff in H. destruct H as [H Hurl].
  apply andb_true_iff in H. destruct H as [Himm Hkey].
  repeat split; try assumption.
  rewrite <- negb_orb, Hap. reflexivity.
Qed.

(** X29: when the conversion to an illustration is asked for without
    padding and gives no illustration, [generate_image] returns the image
    as it was loaded with [resize=False]: it is neither fitted nor padded
    to the dimensions of the display, and nothing is saved. *)
Theorem failed_conversion_shows_unresized_image (s : settings)
    (img : image) (selected_asset : option value) :
  ok s = true ->
  is_str (convertToIllustration s) "true" = true ->
  is_str (padImage s) "true" = false ->
  loadf s (load_env_key "IMMICH_KEY") false
  = inr (Some img, selected_asset) ->
  (forall self, to_illustration self img (given (personName s)) = None) ->
  generate s = inr (mkGenerated img None).
Proof.
  intros Hok Hconv Hpad Hload Hnone.
  destruct (accepted_inv s Hok) as (Himm & Hkey & Hurl & Hap).
  unfold generate, generate_image.
  rewrite Himm, Hkey, Hurl, Hap, Hconv, Hpad. cbn [negb].
  fold loadf. rewrite Hload. unfold illustrate.
  destruct (Registry.get_illustration_provider _ _ _ _) as [self|];
    [|reflexivity].
  destruct (Base.is_configured _ _); [|reflexivity].
  rewrite Hnone. reflexivity.
Qed.

(** X30: an illustration is resized once, by [pad_image_blur] with
    padding and by [ImageOps.fit] without, whatever the background option
    and colour of the settings; what is saved is the illustration as the
    provider returned it, before the resizing.  The resized illustration
    is returned only if the copy could be saved: when [mkdir] or
    [img.save] raises, [generate_image] raises with it. *)
Theorem illustration_is_resized_once (s : settings) (token : string)
    (img illustrated : image) (asset : value) (t : target) :
  ok s = true ->
  is_str (convertToIllustration s) "true" = true ->
  loadf s (load_env_key "IMMICH_KEY") false = inr (Some img, Some asset) ->
  Py.truthy asset = true ->
  get_or (illustrationProvider s) "deapi" = "deapi" ->
  session_made = true ->
  load_env_key "DEAPI_TOKEN" = Some token ->
  strip token <> "" ->
  to_illustration (init (Some token) None DEFAULT_MODEL) img
    (given (personName s))
  = Some illustrated ->
  illustration_target stem (personName s) (album s) asset = inr t ->
  (mkdir (folder t) = true -> save illustrated t = true ->
   generate s
   = inr (mkGenerated
            (if is_str (padImage s) "true"
             then pad_image_blur illustrated dims
             else fit illustrated dims)
            (Some (illustrated, t))))
  /\ (mkdir (folder t) = false -> generate s = inl (FromSave MkdirRaised))
  /\ (mkdir (folder t) = true -> save illustrated t = false ->
      generate s = inl (FromSave SaveRaised)).
Proof.
  intros Hok Hconv Hload Hasset Hid -> Htok Hstrip Hill Htarget.
  destruct (accepted_inv s Hok) as (Himm & Hkey & Hurl & Hap).
  unfold generate, generate_image.
  rewrite Himm, Hkey, Hurl, Hap, Hconv. cbn [negb].
  fold loadf. rewrite Hload. unfold illustrate.
  rewrite Hid, Htok.
  cbn [Registry.get_illustration_provider Registry.dict_get
       Registry.ILLUSTRATION_PROVIDERS Registry.provider_id String.eqb
       Ascii.eqb Bool.eqb Registry.construct Registry.no_kwargs
       Registry.kw_client_id Registry.kw_model].
  unfold Base.is_configured. cbn [Registry.requires_api_key negb].
  assert (Ht : truthy token = true).
  { destruct token; [exfalso; apply Hstrip; reflexivity|reflexivity]. }
  assert (Hs : truthy (strip token) = true).
  { destruct (strip token); [contradiction|reflexivity]. }
  rewrite Ht, Hs, Hill, Hasset. unfold _save_illustration.
  rewrite Htarget. unfold finish. cbn [negb].
  split; [|split].
  - intros -> ->. reflexivity.
  - intros ->. reflexivity.
  - intros -> ->. reflexivity.
Qed.

End PluginMore.


(** ** Runs of the further properties *)

Section MoreRuns.
Import Py Net WebSocket Provider Protocol JsonText Examples Worlds.
Local Open Scope Z_scope.

Let rid : value := VStr "r-1".

Ltac run := vm_compute; reflexivity.

Ltac each_step := repeat (apply Forall_cons; [run|]); apply Forall_nil.

Let greeting : value :=
  VDict [("socket_id", VStr "1234.5678"); ("activity_timeout", VInt 30)].

Lemma submitted_without_client :
  submits loads
    (submit_accepted (api_key self_by_registry)
       (PyStr.opt_or_else None (Prompts.get_illustration_prompt true))
       (model self_by_registry) "photo") rid.
Proof.
  exists (dumps (VDict [("data", VDict [("request_id", rid)])])),
    (VDict [("data", VDict [("request_id", rid)])]),
    (VDict [("request_id", rid)]).
  repeat split; run.
Qed.

(** X1 on [script_done]: the payload returned is that of the [done] at
    2500 ms. *)
Lemma returned_payload_is_awaited_done_witness :
  exists t message,
    In (t, OnMessage message) script_done
    /\ t < secs 300
    /\ woke (wait_for_result loads auth_granted rid "token-1" "client-7" 300
               script_done) = Signalled t (OnMessage message)
    /\ payload_of loads message
       = Some (returned (wait_for_result loads auth_granted rid "token-1"
                           "client-7" 300 script_done))
    /\ awaited rid (returned (wait_for_result loads auth_granted rid
                                "token-1" "client-7" 300 script_done)) = true
    /\ status_is (returned (wait_for_result loads auth_granted rid "token-1"
                              "client-7" 300 script_done)) "done" = true.
Proof.
  apply (returned_payload_is_awaited_done loads auth_granted rid "token-1"
           "client-7" 300 script_done).
  vm_compute. discriminate.
Defined.

(** A run of the race that X2 speaks of: the [done] of the awaited job
    is handled when the wait has just run out.  [wait_for_result] returns
    [None] although the payload is stored, and the connection is closed
    by the handler and then by the caller. *)
Example done_at_the_deadline_is_lost :
  returned (wait_for_result loads auth_granted rid "token-1" "client-7" 300
              script_photo_finish) = VNone
  /\ result_holder (final (wait_for_result loads auth_granted rid "token-1"
                             "client-7" 300 script_photo_finish))
     = payload_done_r1
  /\ closes (final (wait_for_result loads auth_granted rid "token-1"
                      "client-7" 300 script_photo_finish))
     = [ByOwner; ByHandler].
Proof. repeat split; run. Qed.

(** X3 on a socket that is closed at 2600 ms after foreign messages. *)
Lemma socket_failure_ends_wait_witness :
  verdict_of (wait_for_result loads auth_granted rid "token-1" "client-7" 300
                (before_done ++ [(2600, OnClose)]))
  = Unavailable
  /\ returned_at (wait_for_result loads auth_granted rid "token-1" "client-7"
                    300 (before_done ++ [(2600, OnClose)])) = 2600.
Proof.
  destruct (socket_failure_ends_wait loads auth_granted rid "token-1"
              "client-7" 300 2600 before_done [] OnClose)
    as (_ & H2 & _ & H4 & _);
    [each_step|run|right; reflexivity|].
  split; [exact H4|exact H2].
Defined.

(** X6 on a greeting without a socket id. *)
Lemma handshake_without_socket_id_is_dropped_witness :
  on_message loads auth_granted rid "token-1" "client-7" handshake_no_socket
    initial
  = initial.
Proof.
  apply (handshake_without_socket_id_is_dropped loads auth_granted rid
           "token-1" "client-7" handshake_no_socket
           (VDict [("activity_timeout", VInt 30)]) VNone initial); run.
Defined.

(** X7 on a greeting when the authentication endpoint cannot be
    reached. *)
Lemma auth_exception_is_swallowed_witness :
  exists e,
    on_message loads auth_raises rid "token-1" "client-7" handshake initial
    = WebSocket.logger (LogParseError e)
        (note_auth_post (VStr "1234.5678") ("private-client." ++ "client-7")
           initial).
Proof.
  apply (auth_exception_is_swallowed loads auth_raises rid "token-1"
           "client-7" handshake greeting (VStr "1234.5678") initial);
    [run|run|run|left; reflexivity].
Defined.

(** X9 on a job that is [done] without a result URL. *)
Lemma done_without_url_ends_polling_witness :
  poll_result (_poll_for_result string loads image_of_bytes cdn
                 done_without_url rid) = inr None
  /\ poll_fetched (poll_did (_poll_for_result string loads image_of_bytes cdn
                               done_without_url rid)) = [].
Proof.
  unfold _poll_for_result.
  rewrite (done_without_url_ends_polling string loads image_of_bytes cdn
             done_without_url 0 (poll_start rid)
             (VDict [("status", VStr "done")]) VNone);
    [split; reflexivity|run..].
Defined.

(** X10 on a job whose result URL the store does not serve. *)
Lemma refused_download_ends_polling_witness :
  poll_result (_poll_for_result string loads image_of_bytes cdn
                 done_elsewhere rid) = inr None
  /\ poll_fetched (poll_did (_poll_for_result string loads image_of_bytes cdn
                               done_elsewhere rid)) = [url_r2].
Proof.
  unfold _poll_for_result.
  rewrite (refused_download_ends_polling string loads image_of_bytes cdn
             done_elsewhere 0 (poll_start rid)
             (VDict [("status", VStr "done"); ("result_url", url_r2)])
             url_r2 404 "");
    [split; reflexivity|try run..].
  discriminate.
Defined.

(** X11 on a status endpoint that answers 202. *)
Lemma only_200_continues_polling_witness :
  poll_result (_poll_for_result string loads image_of_bytes cdn
                 accepted_at_once rid) = inr None
  /\ status_gets (poll_did (_poll_for_result string loads image_of_bytes cdn
                              accepted_at_once rid)) = 1%nat.
Proof.
  unfold _poll_for_result.
  rewrite (only_200_continues_polling string loads image_of_bytes cdn
             accepted_at_once 0 (poll_start rid) 202 "Accepted");
    [split; reflexivity|run|reflexivity|discriminate].
Defined.

(** X12 on a job that is first [queued]. *)
Lemma unknown_status_is_retried_witness :
  poll_loop string loads image_of_bytes cdn queued_then_done 0
    (poll_start rid)
  = poll_loop string loads image_of_bytes cdn queued_then_done
      (0 + Z.of_N (fst (queued_then_done
                          (status_gets (poll_start rid))))
       + secs POLL_INTERVAL)
      (note_sleep (note_status_get (poll_start rid))).
Proof.
  apply (unknown_status_is_retried string loads image_of_bytes cdn
           queued_then_done 0 (poll_start rid)
           (VDict [("status", VStr "queued")]) (VStr "queued")); run.
Defined.


(** X14 on the provider without a client id. *)
Lemma without_client_id_polls_directly_witness :
  ws_run (did (to_illustration string loads png_bytes image_of_bytes
                 submit_accepted auth_granted script_done cdn done_on_fourth
                 self_by_registry "photo" None true)) = None
  /\ poll_run (did (to_illustration string loads png_bytes image_of_bytes
                      submit_accepted auth_granted script_done cdn
                      done_on_fourth self_by_registry "photo" None true))
     = Some (_poll_for_result string loads image_of_bytes cdn done_on_fourth
               rid).
Proof.
  destruct (without_client_id_polls_directly string loads png_bytes
              image_of_bytes submit_accepted auth_granted script_done cdn
              done_on_fourth self_by_registry "photo" None true "photo" rid)
    as (H1 & _ & H3 & _);
    [run|run|reflexivity|exact submitted_without_client|].
  split; [exact H1|exact H3].
Defined.

(** X15 on a job that is [done] at the fourth request. *)
Lemma polled_image_comes_from_done_status_witness :
  exists data status url content,
    status_view loads
      (snd (done_on_fourth
              (Nat.pred (status_gets
                           (poll_did (_poll_for_result string loads
                                        image_of_bytes cdn done_on_fourth
                                        rid))))))
    = Some (data, status)
    /\ eq_str status "done" = true
    /\ get data "result_url" = inr url
    /\ truthy url = true
    /\ cdn url = HttpResponse 200 content
    /\ image_of_bytes content = Some "PNG r-1"
    /\ poll_fetched (poll_did (_poll_for_result string loads image_of_bytes
                                 cdn done_on_fourth rid)) = [url].
Proof.
  apply (polled_image_comes_from_done_status string loads image_of_bytes cdn
           done_on_fourth rid "PNG r-1").
  run.
Defined.

(** X16 on the run in which the socket delivers the result. *)
Lemma returned_image_was_downloaded_witness :
  exists url content,
    cdn url = HttpResponse 200 content
    /\ image_of_bytes content = Some "PNG r-1"
    /\ ((ws_fetched (did (to_illustration string loads png_bytes
                            image_of_bytes submit_accepted auth_granted
                            script_done cdn done_on_fourth self "photo" None
                            true)) = [url]
         /\ poll_run (did (to_illustration string loads png_bytes
                             image_of_bytes submit_accepted auth_granted
                             script_done cdn done_on_fourth self "photo" None
                             true)) = None)
        \/ (exists p,
               poll_run (did (to_illustration string loads png_bytes
                                image_of_bytes submit_accepted auth_granted
                                script_done cdn done_on_fourth self "photo"
                                None true)) = Some p
               /\ poll_result p = inr (Some "PNG r-1")
               /\ poll_fetched (poll_did p) = [url])).
Proof.
  apply (returned_image_was_downloaded string loads png_bytes image_of_bytes
           submit_accepted auth_granted script_done cdn done_on_fourth self
           "photo" None true "PNG r-1").
  run.
Defined.

(** X17 on a status endpoint that cannot be reached, for a job whose
    listener timed out. *)
Lemma polling_exception_is_caught_witness :
  illustration (to_illustration string loads png_bytes image_of_bytes
                  submit_accepted auth_refused script_greeted cdn
                  status_raises self "photo" None true) = None
  /\ poll_calls (did (to_illustration string loads png_bytes image_of_bytes
                        submit_accepted auth_refused script_greeted cdn
                        status_raises self "photo" None true)) = 1%nat.
Proof.
  destruct (polling_exception_is_caught string loads png_bytes image_of_bytes
              submit_accepted auth_refused script_greeted cdn status_raises
              self "photo" None true
              (_poll_for_result string loads image_of_bytes cdn status_raises
                 rid)
              RequestException)
    as (H1 & H2 & _); [run|run|].
  split; [exact H1|exact H2].
Defined.

(** X18 on the call that the plugin makes. *)
Lemma registry_provider_never_uses_socket_witness :
  client_id self_by_registry = ""
  /\ ws_run (did (to_illustration string loads png_bytes image_of_bytes
                    submit_accepted auth_granted script_done cdn
                    done_on_fourth self_by_registry "photo" None true))
     = None.
Proof.
  destruct (registry_provider_never_uses_socket string loads png_bytes
              image_of_bytes submit_accepted auth_granted script_done cdn
              done_on_fourth true "deapi" (Some "token-1") self_by_registry
              "photo" None true) as (_ & H2 & H3 & _); [reflexivity|].
  split; [exact H2|exact H3].
Defined.

(** X20 on the name of the parent directory. *)
Lemma clean_name_is_kept_witness :
  ImageAlbum._sanitize_filename (Some "..") = "..".
Proof.
  apply (clean_name_is_kept ".."); [discriminate|reflexivity|reflexivity].
Defined.

(** X21 on an album without a person, and on neither. *)
Lemma illustration_folder_is_person_or_album_witness :
  Illustrations.folder
    (Illustrations.mkTarget "Family" "IMG_0042.jpeg" [("quality", 95)])
  = ImageAlbum._sanitize_filename (Some " Family ")
  /\ Illustrations.folder
       (Illustrations.mkTarget "unknown" "IMG_0042.jpeg" [("quality", 95)])
     = "unknown".
Proof.
  split.
  - apply (illustration_folder_is_person_or_album stem (Some "")
             (Some " Family ") (asset "x2" "IMG_0042.HEIC")
             (Illustrations.mkTarget "Family" "IMG_0042.jpeg"
                [("quality", 95)])).
    run.
  - apply (illustration_folder_is_person_or_album stem None None
             (asset "x2" "IMG_0042.HEIC")
             (Illustrations.mkTarget "unknown" "IMG_0042.jpeg"
                [("quality", 95)]));
      run.
Defined.

(** X22 on a person whose name holds a slash. *)
Lemma illustration_path_is_safe_witness :
  forallb (fun c => negb (PyStr.mem c "IMG_0042.jpeg")) ImageAlbum.FORBIDDEN
  = true
  /\ forallb (fun c => negb (PyStr.mem c "AdaL.")) ImageAlbum.FORBIDDEN = true.
Proof.
  destruct (illustration_path_is_safe stem (Some "Ada/L.") None
              (asset "x2" "IMG_0042.HEIC")
              (Illustrations.mkTarget "AdaL." "IMG_0042.jpeg"
                 [("quality", 95)]))
    as (_ & H2 & _ & H4 & _); [run|].
  split; [exact H2|exact H4].
Defined.

(** X23 on a server with two albums of the name asked for. *)
Lemma album_id_is_first_match_witness :
  Immich.get_album_id loads albums_get "Family" = inr (VStr "a2").
Proof.
  rewrite (album_id_is_first_match loads albums_get "Family"
             [album_entry "Holidays" "a1"] [album_entry "Family" "a3"]
             (album_entry "Family" "a2") (VStr "Family"));
    [reflexivity|run| |reflexivity|reflexivity|].
  - apply Forall_cons; [|apply Forall_nil].
    exists (VStr "Holidays"). split; reflexivity.
  - apply Forall_cons; [|apply Forall_nil].
    exists (VStr "Family"). reflexivity.
Defined.

(** X24 on an album list with an entry that has no name. *)
Lemma malformed_album_entry_fails_lookup_witness :
  Immich.get_image_by_album string loads albums_get_stray metadata_post 0
    from_url 5 "Family" true
  = Some (inr (None, None)).
Proof.
  apply (malformed_album_entry_fails_lookup string loads albums_get_stray
           metadata_post 0 from_url "Family" albums_with_stray 5 true);
    [run|].
  apply Exists_cons_tl, Exists_cons_hd. intros name. discriminate.
Defined.

(** X25 on an album of two pages. *)
Lemma album_pages_are_concatenated_witness :
  Immich.get_assets_by_album loads metadata_post 5 (VStr "a2")
  = Some (inr (concat [first_page; second_page])).
Proof.
  apply (album_pages_are_concatenated loads metadata_post (VStr "a2")
           [first_page; second_page] 5).
  - intros [|[|[|k]]] l Hk; try discriminate Hk;
      injection Hk as <-; (split; [discriminate|run]).
  - run.
  - cbn [length]. lia.
Defined.

(** X26 on an album that has no assets. *)
Lemma album_without_assets_gives_none_witness :
  Immich.get_image_by_album string loads albums_get no_assets 0 from_url 5
    "Family" true
  = Some (inr (None, None)).
Proof.
  apply (album_without_assets_gives_none string loads albums_get no_assets 0
           from_url "Family" (VStr "a2") 5 true); [run|run|lia].
Defined.

(** X27 on a person who has no assets. *)
Lemma person_without_assets_raises_witness :
  Immich.get_image_by_person string loads person_get random_post_none 0
    from_url "Ada" true
  = inl Immich.IndexError.
Proof.
  apply (person_without_assets_raises string loads person_get
           random_post_none 0 from_url "Ada" (VStr "p1") true); run.
Defined.

(** X28 on a person with two assets, the second of which is drawn. *)
Lemma image_comes_with_its_asset_witness :
  exists asset_id,
    Immich.subscript (asset "x2" "IMG_0042.HEIC") "id" = inr asset_id
    /\ from_url asset_id false = Some "x2, full size".
Proof.
  destruct (image_comes_with_its_asset string loads person_get random_post 1
              from_url "Ada" false (Some "x2, full size")
              (Some (asset "x2" "IMG_0042.HEIC")))
    as [[H _]|(img & chosen & asset_id & Himg & Hasset & Hid & Hload)];
    [run|discriminate H|].
  injection Himg as <-. injection Hasset as <-.
  exists asset_id. split; [exact Hid|exact Hload].
Defined.

Let generate_with to_illustration pad_image :=
  Plugin.generate_image string string (Some "horizontal") (800, 480)
    load_env_key by_person by_album true to_illustration stem mkdir save
    pad_image_blur fit getcolor pad (settings_person pad_image).

(** X29 on a conversion that fails, without padding. *)
Lemma failed_conversion_shows_unresized_image_witness :
  generate_with no_illustration "false"
  = inr (Plugin.mkGenerated "x2, full size" None).
Proof.
  apply (failed_conversion_shows_unresized_image string string
           (Some "horizontal") (800, 480) load_env_key by_person by_album
           true no_illustration stem mkdir save pad_image_blur fit getcolor
           pad (settings_person "false") "x2, full size"
           (Some (asset "x2" "IMG_0042.HEIC")));
    run.
Defined.

(** X30 on a conversion that succeeds, with padding and a background
    colour in the settings. *)
Lemma illustration_is_resized_once_witness :
  generate_with sketch "true"
  = inr (Plugin.mkGenerated
           (pad_image_blur "sketch of x2, full size" (800, 480))
           (Some ("sketch of x2, full size",
                  Illustrations.mkTarget "Ada" "IMG_0042.jpeg"
                    [("quality", 95)]))).
Proof.
  destruct (illustration_is_resized_once string string (Some "horizontal")
              (800, 480) load_env_key by_person by_album true sketch stem
              mkdir save pad_image_blur fit getcolor pad
              (settings_person "true") " token-1 " "x2, full size"
              "sketch of x2, full size" (asset "x2" "IMG_0042.HEIC")
              (Illustrations.mkTarget "Ada" "IMG_0042.jpeg"
                 [("quality", 95)]))
    as (H & _);
    [run|run|run|run|run|run|run|vm_compute; discriminate|run|run|].
  apply H; reflexivity.
Defined.

(** The theorem of corrected C1 on [script_done]: with the store of
    results at hand the image comes from the socket path, and with the
    store out of reach [to_illustration] returns [None]; the polling is
    called in neither run. *)
Lemma polling_runs_unless_image_delivered_witness :
  poll_calls (did (to_illustration string loads png_bytes image_of_bytes
                     submit_accepted auth_granted script_done cdn
                     done_on_fourth self "photo" None true)) = 0%nat
  /\ illustration (to_illustration string loads png_bytes image_of_bytes
                     submit_accepted auth_granted script_done cdn
                     done_on_fourth self "photo" None true)
     = Some "PNG r-1"
  /\ poll_calls (did (to_illustration string loads png_bytes image_of_bytes
                        submit_accepted auth_granted script_done cdn_down
                        done_on_fourth self "photo" None true)) = 0%nat
  /\ illustration (to_illustration string loads png_bytes image_of_bytes
                     submit_accepted auth_granted script_done cdn_down
                     done_on_fourth self "photo" None true)
     = None.
Proof.
  destruct (polling_runs_unless_image_delivered string loads png_bytes
              image_of_bytes submit_accepted auth_granted script_done cdn
              done_on_fourth self "photo" None true "photo" rid)
    as (_ & _ & _ & H4 & _); [run|run|exact job_is_submitted|run|].
  destruct (H4 payload_done_r1 url_r1 "PNG r-1" "PNG r-1")
    as (Hc & _ & Hi); [run..|].
  destruct (polling_runs_unless_image_delivered string loads png_bytes
              image_of_bytes submit_accepted auth_granted script_done
              cdn_down done_on_fourth self "photo" None true "photo" rid)
    as (_ & _ & _ & _ & H5 & _); [run|run|exact job_is_submitted|run|].
  destruct (H5 payload_done_r1 url_r1) as (Hc' & _ & Hi');
    [run|run|run|left; reflexivity|].
  split; [exact Hc|]. split; [exact Hi|]. split; [exact Hc'|exact Hi'].
Defined.

End MoreRuns.
